(** * SEO audit platform: crawler, rule engine, on-page scoring, prioritizer

    A shallow embedding of the audit pipeline's pure core:
    - [app/core/rule_engine.py]: the operator and transform tables, field
      access, condition and rule evaluation, the rule registry, the
      impact-score and category-score formulas;
    - [app/engines/crawler/engine.py]: the rate limiter, URL normalisation,
      the robots gate, sitemap discovery, the BFS loop, the crawl issues
      and the crawl score;
    - [app/engines/onpage/engine.py]: issue creation of the on-page engine;
    - [app/engines/technical/engine.py]: the checks of the technical engine;
    - [app/engines/prioritization/engine.py]: priority scores, ranking and
      recommendations;
    - [app/engines/scoring/engine.py]: the overall score, the confidence
      and the revenue estimate;
    - [app/engines/base.py] and [app/workers/audit_tasks.py]: the engine
      wrapper and the site data the analysis engines are handed.

    Conventions.
    - Python [str] is [string]; the development covers ASCII text (code
      points below 128), which is where [lower], [strip] and the URL syntax
      characters live.
    - Python [int] is [Z].  A Python [float] is the rational it denotes.
      [calculate_impact_score], whose value is stated digit for digit, is
      computed in double precision ([Num.fl]).  The other scores enter the
      development through bounds and order, which rounding to the nearest
      double keeps: their formulas are stated over the reals they denote,
      with [round(x, 2)] as round-half-even to two decimals.
    - Code that can raise returns [res A]; a caught exception is handled
      where the source has its [try/except].
    - Library functions whose internals are not part of this repository
      (regular expressions, BeautifulSoup queries, MD5, number parsing) are
      fields of the classes in [Module Lib]. *)

From Stdlib Require Import ZArith QArith Qround Qpower Lqa Ascii String List Bool Lia.
From Stdlib Require Import Sorting.Sorted Sorting.Permutation DecimalString.
From stdpp Require Import base decidable option list strings gmap.
Import ListNotations.

#[local] Set Warnings "-register-all".
#[local] Arguments String.append !_ _ / : simpl nomatch.
#[local] Open Scope string_scope.
#[local] Open Scope list_scope.
#[local] Open Scope Z_scope.

(* ===================================================================== *)
(** ** Python strings                                                     *)
(* ===================================================================== *)

Module PyStr.

Definition ascii_in (c : ascii) (set : string) : bool :=
  existsb (Ascii.eqb c) (list_ascii_of_string set).

Definition is_upper (c : ascii) : bool :=
  let n := nat_of_ascii c in (65 <=? n)%nat && (n <=? 90)%nat.

Definition is_lower (c : ascii) : bool :=
  let n := nat_of_ascii c in (97 <=? n)%nat && (n <=? 122)%nat.

Definition is_digit (c : ascii) : bool :=
  let n := nat_of_ascii c in (48 <=? n)%nat && (n <=? 57)%nat.

Definition is_alpha (c : ascii) : bool := is_upper c || is_lower c.

(** [str.isspace] on ASCII: TAB, LF, VT, FF, CR, FS, GS, RS, US, SPACE. *)
Definition is_space (c : ascii) : bool :=
  let n := nat_of_ascii c in
  ((9 <=? n)%nat && (n <=? 13)%nat) || ((28 <=? n)%nat && (n <=? 32)%nat).

Definition lower_char (c : ascii) : ascii :=
  if is_upper c then ascii_of_nat (nat_of_ascii c + 32) else c.

Definition upper_char (c : ascii) : ascii :=
  if is_lower c then ascii_of_nat (nat_of_ascii c - 32) else c.

Fixpoint map_chars (f : ascii -> ascii) (s : string) : string :=
  match s with
  | EmptyString => EmptyString
  | String c r => String (f c) (map_chars f r)
  end.

(** [s.lower()], [s.upper()] *)
Definition lower : string -> string := map_chars lower_char.
Definition upper : string -> string := map_chars upper_char.

(** [s.lstrip(chars)] with the character class given as a predicate. *)
Fixpoint lstrip_while (p : ascii -> bool) (s : string) : string :=
  match s with
  | EmptyString => EmptyString
  | String c r => if p c then lstrip_while p r else s
  end.

(** [s.rstrip(chars)]: drop the longest suffix made of [p] characters. *)
Fixpoint rstrip_while (p : ascii -> bool) (s : string) : string :=
  match s with
  | EmptyString => EmptyString
  | String c r =>
      match rstrip_while p r with
      | EmptyString => if p c then EmptyString else String c EmptyString
      | r' => String c r'
      end
  end.

(** [s.strip()] *)
Definition strip (s : string) : string :=
  rstrip_while is_space (lstrip_while is_space s).

(** [s.startswith(p)] *)
Fixpoint startswith (s p : string) {struct p} : bool :=
  match p, s with
  | EmptyString, _ => true
  | String a p', String b s' => Ascii.eqb a b && startswith s' p'
  | String _ _, EmptyString => false
  end.

(** [p in s] for strings: [p] occurs as a substring of [s]. *)
Fixpoint contains (s p : string) : bool :=
  startswith s p ||
  match s with
  | EmptyString => false
  | String _ r => contains r p
  end.

(** [s.endswith(p)] *)
Fixpoint endswith (s p : string) : bool :=
  String.eqb s p ||
  match s with
  | EmptyString => false
  | String _ r => endswith r p
  end.

(** [c in s] for a single character. *)
Fixpoint has_char (c : ascii) (s : string) : bool :=
  match s with
  | EmptyString => false
  | String a r => Ascii.eqb a c || has_char c r
  end.

(** [s.replace(c, "")] for a class of characters. *)
Fixpoint remove_chars (p : ascii -> bool) (s : string) : string :=
  match s with
  | EmptyString => EmptyString
  | String c r => if p c then remove_chars p r else String c (remove_chars p r)
  end.

(** Split at the first character satisfying [p]: the text before it and
    the text from it on (the whole string and [""] when there is none).
    [s[:i], s[i:]] for [i] the least index of such a character. *)
Fixpoint break (p : ascii -> bool) (s : string) : string * string :=
  match s with
  | EmptyString => (EmptyString, EmptyString)
  | String c r =>
      if p c then (EmptyString, s)
      else let '(a, b) := break p r in (String c a, b)
  end.

(** [s.split(c, 1)] when [c] occurs in [s]: text before and after the
    first [c]; [None] when [c] does not occur. *)
Definition split_once (c : ascii) (s : string) : option (string * string) :=
  match break (Ascii.eqb c) s with
  | (a, String _ b) => Some (a, b)
  | (_, EmptyString) => None
  end.

(** [s.split(c)]: always at least one piece. *)
Fixpoint split (c : ascii) (s : string) : list string :=
  match s with
  | EmptyString => [EmptyString]
  | String a r =>
      if Ascii.eqb a c then EmptyString :: split c r
      else match split c r with
           | p :: ps => String a p :: ps
           | [] => [String a EmptyString]
           end
  end.

(** [sep.join(parts)] *)
Fixpoint join (sep : string) (parts : list string) : string :=
  match parts with
  | [] => EmptyString
  | [p] => p
  | p :: ps => p ++ sep ++ join sep ps
  end.

(** [s.split()]: maximal runs of non-whitespace characters. *)
Fixpoint words_aux (cur : string) (s : string) : list string :=
  match s with
  | EmptyString => if String.eqb cur "" then [] else [cur]
  | String c r =>
      if is_space c
      then (if String.eqb cur "" then words_aux "" r else cur :: words_aux "" r)
      else words_aux (cur ++ String c "") r
  end.
Definition words (s : string) : list string := words_aux "" s.

(** [s.splitlines()] on ASCII text: a line ends at LF, CR, CR LF, VT, FF,
    FS, GS or RS. *)
Definition is_linebreak (c : ascii) : bool :=
  let n := nat_of_ascii c in
  ((10 <=? n)%nat && (n <=? 13)%nat) || ((28 <=? n)%nat && (n <=? 30)%nat).

Fixpoint splitlines_aux (after_cr : bool) (cur : string) (s : string) : list string :=
  match s with
  | EmptyString => if String.eqb cur "" then [] else [cur]
  | String c r =>
      if after_cr && (nat_of_ascii c =? 10)%nat then splitlines_aux false cur r
      else if (nat_of_ascii c =? 13)%nat then cur :: splitlines_aux true "" r
      else if is_linebreak c then cur :: splitlines_aux false "" r
      else splitlines_aux false (cur ++ String c "") r
  end.
Definition splitlines (s : string) : list string := splitlines_aux false "" s.

(** [s.isdigit()] on ASCII text. *)
Definition isdigit (s : string) : bool :=
  negb (String.eqb s "") && forallb is_digit (list_ascii_of_string s).

(** [int(s)] for a string of ASCII digits. *)
Definition digits_to_Z (s : string) : Z :=
  fold_left (fun acc c => 10 * acc + Z.of_nat (nat_of_ascii c - 48))
            (list_ascii_of_string s) 0.

(** Lexicographic order by code point: [a < b]. *)
Fixpoint ltb (a b : string) : bool :=
  match a, b with
  | _, EmptyString => false
  | EmptyString, String _ _ => true
  | String x a', String y b' =>
      if Ascii.eqb x y then ltb a' b'
      else (nat_of_ascii x <? nat_of_ascii y)%nat
  end.

End PyStr.

(* ===================================================================== *)
(** ** Python values, exceptions                                          *)
(* ===================================================================== *)

Module Py.

(** The exceptions the modelled code can meet. *)
Inductive exn : Type :=
| TypeError
| AttributeError
| ValueError
| IndexError
| ReError.          (* re.error: the pattern does not compile *)

(** A computation either returns or raises. *)
Inductive res (A : Type) : Type :=
| Ret (a : A)
| Raise (e : exn).
Arguments Ret {A} a.
Arguments Raise {A} e.

Definition bind {A B} (m : res A) (k : A -> res B) : res B :=
  match m with
  | Ret a => k a
  | Raise e => Raise e
  end.

Definition raises {A} (m : res A) : Prop := exists e, m = Raise e.

Fixpoint mapM {A B} (f : A -> res B) (l : list A) : res (list B) :=
  match l with
  | [] => Ret []
  | x :: r => bind (f x) (fun y => bind (mapM f r) (fun ys => Ret (y :: ys)))
  end.

(** Values as they come out of JSON rule files and of a dumped page:
    [None], booleans, integers, floats, strings, lists and
    string-keyed dictionaries (insertion-ordered, keys unique). *)
Inductive value : Type :=
| VNone
| VBool (b : bool)
| VInt (z : Z)
| VFloat (q : Q)
| VStr (s : string)
| VList (l : list value)
| VDict (d : list (string * value)).

(** [bool(v)] *)
Definition truthy (v : value) : bool :=
  match v with
  | VNone => false
  | VBool b => b
  | VInt z => negb (z =? 0)
  | VFloat q => negb (Qeq_bool q 0)
  | VStr s => negb (String.eqb s "")
  | VList l => match l with [] => false | _ => true end
  | VDict d => match d with [] => false | _ => true end
  end.

(** The number a numeric value denotes ([bool] is a subtype of [int]). *)
Definition as_number (v : value) : option Q :=
  match v with
  | VBool b => Some (inject_Z (if b then 1 else 0))
  | VInt z => Some (inject_Z z)
  | VFloat q => Some q
  | _ => None
  end.

(** [d.get(k)] on an insertion-ordered dictionary. *)
Fixpoint dict_get {A} (d : list (string * A)) (k : string) : option A :=
  match d with
  | [] => None
  | (k', v) :: r => if String.eqb k' k then Some v else dict_get r k
  end.

(** [a == b] *)
Fixpoint py_eq (a b : value) {struct a} : bool :=
  match a, b with
  | VNone, VNone => true
  | VStr s, VStr t => String.eqb s t
  | VList l, VList m =>
      (fix list_eq (l : list value) (m : list value) {struct l} : bool :=
         match l, m with
         | [], [] => true
         | x :: l', y :: m' => py_eq x y && list_eq l' m'
         | _, _ => false
         end) l m
  | VDict d, VDict e =>
      (length d =? length e)%nat &&
      (fix dict_sub (d : list (string * value)) {struct d} : bool :=
         match d with
         | [] => true
         | (k, v) :: d' =>
             match dict_get e k with
             | Some w => py_eq v w && dict_sub d'
             | None => false
             end
         end) d
  | _, _ =>
      match as_number a, as_number b with
      | Some x, Some y => Qeq_bool x y
      | _, _ => false
      end
  end.

(** The four ordered comparisons. *)
Inductive cmp_op : Type := Lt | Gt | Le | Ge.

Definition cmp_Q (o : cmp_op) (x y : Q) : bool :=
  match o with
  | Lt => negb (Qle_bool y x)
  | Gt => negb (Qle_bool x y)
  | Le => Qle_bool x y
  | Ge => Qle_bool y x
  end.

Definition cmp_str (o : cmp_op) (s t : string) : bool :=
  match o with
  | Lt => PyStr.ltb s t
  | Gt => PyStr.ltb t s
  | Le => negb (PyStr.ltb t s)
  | Ge => negb (PyStr.ltb s t)
  end.

Definition cmp_len (o : cmp_op) (n m : nat) : bool :=
  match o with
  | Lt => (n <? m)%nat
  | Gt => (m <? n)%nat
  | Le => (n <=? m)%nat
  | Ge => (m <=? n)%nat
  end.

(** [a < b], [a > b], [a <= b], [a >= b]: numbers with numbers, strings
    with strings, lists with lists (at the first index where the elements
    differ under [==], else by length); anything else is a [TypeError]. *)
Fixpoint py_cmp (o : cmp_op) (a b : value) {struct a} : res bool :=
  match a, b with
  | VStr s, VStr t => Ret (cmp_str o s t)
  | VList l, VList m =>
      (fix list_cmp (l : list value) (m : list value) {struct l} : res bool :=
         match l, m with
         | x :: l', y :: m' =>
             if py_eq x y then list_cmp l' m' else py_cmp o x y
         | _, _ => Ret (cmp_len o (length l) (length m))
         end) l m
  | _, _ =>
      match as_number a, as_number b with
      | Some x, Some y => Ret (cmp_Q o x y)
      | _, _ => Raise TypeError
      end
  end.

(** [hash(v)] succeeds: lists and dictionaries are unhashable. *)
Definition hashable (v : value) : bool :=
  match v with
  | VList _ | VDict _ => false
  | _ => true
  end.

(** [x in c] *)
Definition py_in (x c : value) : res bool :=
  match c with
  | VStr s =>
      match x with
      | VStr p => Ret (PyStr.contains s p)
      | _ => Raise TypeError
      end
  | VList l => Ret (existsb (py_eq x) l)
  | VDict d =>
      if hashable x
      then Ret (existsb (fun kv => py_eq x (VStr (fst kv))) d)
      else Raise TypeError
  | _ => Raise TypeError       (* argument is not iterable *)
  end.

(** [len(v)] *)
Definition py_len (v : value) : res Z :=
  match v with
  | VStr s => Ret (Z.of_nat (String.length s))
  | VList l => Ret (Z.of_nat (length l))
  | VDict d => Ret (Z.of_nat (length d))
  | _ => Raise TypeError
  end.

(** [hasattr(v, "__len__")] *)
Definition has_len (v : value) : bool :=
  match v with
  | VStr _ | VList _ | VDict _ => true
  | _ => false
  end.

End Py.

(* ===================================================================== *)
(** ** Library functions outside the repository                           *)
(* ===================================================================== *)

Module Lib.

(** Python's [re], [str()], [int()] and [float()] on the inputs whose
    result is not written out here. *)
Class PyBuiltins : Type := {
  (** [re.search(pattern, text)]: [None] when the pattern does not compile
      ([re.error]), else whether a match was found. *)
  re_search : string -> string -> option bool;
  (** [str(v)] for floats, lists and dictionaries. *)
  repr_value : Py.value -> string;
  (** [int(s)] and [float(s)] on a string; [None] is [ValueError]. *)
  int_of_str : string -> option Z;
  float_of_str : string -> option Q;
}.

(** [ipaddress]-based validation of a bracketed host in a network
    location ([urllib.parse._check_bracketed_netloc]): [false] is
    [ValueError]. *)
Class IpAddress : Type := {
  bracketed_netloc_ok : string -> bool;
}.

(** BeautifulSoup queries on an HTML text, and [hashlib.md5]. *)
Class Html : Type := {
  count_h1 : string -> nat;              (* len(soup.find_all("h1")) *)
  count_img_without_alt : string -> nat; (* images with no alt text *)
  (** [[loc.text.strip() for loc in BeautifulSoup(xml, "xml").find_all("loc")]] *)
  find_all_loc : string -> list string;
  md5_hex : string -> string;
}.

End Lib.

(* ===================================================================== *)
(** ** Numbers                                                            *)
(* ===================================================================== *)

Module Num.

#[local] Open Scope Q_scope.

(** Nearest integer, halves to the even neighbour. *)
Definition round_half_even (x : Q) : Z :=
  let f := Qfloor x in
  match Qcompare (x - inject_Z f) (1 # 2) with
  | Datatypes.Lt => f
  | Datatypes.Gt => (f + 1)%Z
  | Datatypes.Eq => if Z.even f then f else (f + 1)%Z
  end.

(** [round(x, 2)] and [round(x, 0)] *)
Definition round2 (x : Q) : Q := inject_Z (round_half_even (x * 100)) / 100.
Definition round0 (x : Q) : Q := inject_Z (round_half_even x).

(** [min(a, b)] and [max(a, b)] of two numbers: the first argument wins
    a tie. *)
Definition py_min (a b : Q) : Q := if Qle_bool a b then a else b.
Definition py_max (a b : Q) : Q := if Qle_bool b a then a else b.

(** [a >= b] on floats *)
Definition Qge_bool (a b : Q) : bool := Qle_bool b a.
Definition Qlt_bool (a b : Q) : bool := negb (Qle_bool b a).

(** [int(x)] of a float: truncation toward zero. *)
Definition trunc (x : Q) : Z :=
  if Qle_bool 0 x then Qfloor x else Qceiling x.

(** *** Double precision

    Where a value is compared digit for digit, the arithmetic is that of
    IEEE 754 binary64.  A double is the rational it denotes, and an
    operation is the exact operation followed by [fl]. *)

(** The exponent of a positive rational: the [e] with
    [2^e <= q < 2^(e+1)]. *)
Definition binade (q : Q) : Z :=
  let e := (Z.log2 (Qnum q) - Z.log2 (Z.pos (Qden q)))%Z in
  if Qle_bool (2 ^ e) q then e else (e - 1)%Z.

(** A positive rational rounded to the nearest double, a tie to the
    even significand: 53 significant bits, and a spacing that stays at
    [2^-1074] below the exponent -1022.  (A rational beyond the largest
    double would round to an infinity; none arises where [fl] is used.) *)
Definition fl_pos (q : Q) : Q :=
  let u := (Z.max (binade q) (-1022) - 52)%Z in
  inject_Z (round_half_even (q / 2 ^ u)) * 2 ^ u.

Definition fl (q : Q) : Q :=
  match Qcompare q 0 with
  | Datatypes.Eq => 0
  | Datatypes.Gt => fl_pos q
  | Datatypes.Lt => - fl_pos (- q)
  end.

(** [a + b], [a * b] and [a / b] on floats; [a / b] also on two ints. *)
Definition fadd (a b : Q) : Q := fl (a + b).
Definition fmul (a b : Q) : Q := fl (a * b).
Definition fdiv (a b : Q) : Q := fl (a / b).

(** [round(x, 2)] of a float: the two-decimal number nearest to the
    exact value of [x], a tie to the even digit, and then the double
    nearest to that number. *)
Definition fround2 (x : Q) : Q := fl (round2 x).

End Num.

(* ===================================================================== *)
(** ** app/engines/base.py                                                *)
(* ===================================================================== *)

Module Base.

Inductive Severity : Type := CRITICAL | HIGH | MEDIUM | LOW | INFO.

Inductive IssueCategory : Type :=
| CRAWLABILITY | TECHNICAL | ON_PAGE | CONTENT | PERFORMANCE
| INTERNAL_LINKS | SCHEMA | AUTHORITY | COMPETITOR | INTERNATIONAL | LOCAL.

Inductive EngineStatus : Type := SUCCESS | PARTIAL | FAILED | SKIPPED.

#[global] Instance Severity_eq_dec : EqDecision Severity.
Proof. solve_decision. Defined.
#[global] Instance EngineStatus_eq_dec : EqDecision EngineStatus.
Proof. solve_decision. Defined.

Record PageData : Type := mkPageData {
  url : string;
  canonical_url : option string;
  status_code : Z;
  content_type : string;
  html : string;
  text_content : string;
  headers : gmap string string;
  meta : gmap string string;
  links : list string;
  images : list Py.value;
  structured_data : list Py.value;
  load_time_ms : Q;
  page_size_bytes : Z;
  depth : Z;
}.

(** [PageData(url=u, status_code=s)]: every other field at its default. *)
Definition default_page (u : string) (s : Z) : PageData :=
  {| url := u; canonical_url := None; status_code := s;
     content_type := "text/html"; html := ""; text_content := "";
     headers := ∅; meta := ∅; links := []; images := [];
     structured_data := []; load_time_ms := 0; page_size_bytes := 0;
     depth := 0 |}.

Definition set_depth (p : PageData) (d : Z) : PageData :=
  {| url := url p; canonical_url := canonical_url p;
     status_code := status_code p; content_type := content_type p;
     html := html p; text_content := text_content p;
     headers := headers p; meta := meta p; links := links p;
     images := images p; structured_data := structured_data p;
     load_time_ms := load_time_ms p; page_size_bytes := page_size_bytes p;
     depth := d |}.

Definition set_meta (p : PageData) (k v : string) : PageData :=
  {| url := url p; canonical_url := canonical_url p;
     status_code := status_code p; content_type := content_type p;
     html := html p; text_content := text_content p;
     headers := headers p; meta := <[k := v]> (meta p); links := links p;
     images := images p; structured_data := structured_data p;
     load_time_ms := load_time_ms p; page_size_bytes := page_size_bytes p;
     depth := depth p |}.

Record Issue : Type := mkIssue {
  rule_id : string;
  title : string;
  description : string;
  severity : Severity;
  category : IssueCategory;
  affected_urls : list string;
  affected_count : Z;
  impact_score : Q;
  effort_score : Q;            (* default 5.0 *)
  recommendation : string;
  documentation_url : string;
}.

Record Recommendation : Type := mkRecommendation {
  issue_id : string;
  priority_rank : Z;
  rec_title : string;
  rec_description : string;
  effort : string;
  impact : string;
  estimated_traffic_gain : Q;
  estimated_revenue_impact : Q;
  implementation_steps : list string;
}.

Record AuditResult : Type := mkAuditResult {
  engine_name : string;
  audit_id : string;
  status : EngineStatus;
  result_category : IssueCategory;
  score : Q;
  grade : string;
  issues : list Issue;
  recommendations : list Recommendation;
  pages_analyzed : Z;
}.

(** [AuditEngine.calculate_grade] *)
Definition calculate_grade (score : Q) : string :=
  if Num.Qge_bool score 90 then "A"
  else if Num.Qge_bool score 80 then "B"
  else if Num.Qge_bool score 65 then "C"
  else if Num.Qge_bool score 50 then "D"
  else "F".

End Base.

(* ===================================================================== *)
(** ** app/core/rule_engine.py                                            *)
(* ===================================================================== *)

Module RuleEngine.
Import Py Base.

Record RuleCondition : Type := mkCondition {
  field : string;
  operator : string;
  value : Py.value;              (* default None *)
  transform : option string;     (* default None *)
}.

Record Rule : Type := mkRule {
  id : string;
  name : string;
  rule_category : IssueCategory;
  rule_severity : Severity;
  conditions : list RuleCondition;
  condition_logic : string;      (* "AND" | "OR" *)
  rule_impact_score : Q;
  rule_effort_score : Q;
  enabled : bool;
}.

Section Evaluator.
Context `{Lib.PyBuiltins}.

(** [str(v)] *)
Definition py_str (v : Py.value) : string :=
  match v with
  | VStr s => s
  | VNone => "None"
  | VBool true => "True"
  | VBool false => "False"
  | VInt z => DecimalString.NilZero.string_of_int (Z.to_int z)
  | _ => Lib.repr_value v
  end.

(** [bool(re.search(b, text))] *)
Definition search (b : Py.value) (text : string) : res bool :=
  match b with
  | VStr pattern =>
      match Lib.re_search pattern text with
      | Some found => Ret found
      | None => Raise ReError
      end
  | _ => Raise TypeError
  end.

(** [text.startswith(b)] and [text.endswith(b)] for an untyped [b]. *)
Definition startswith_value (text : string) (b : Py.value) : res bool :=
  match b with
  | VStr p => Ret (PyStr.startswith text p)
  | _ => Raise TypeError
  end.

Definition endswith_value (text : string) (b : Py.value) : res bool :=
  match b with
  | VStr p => Ret (PyStr.endswith text p)
  | _ => Raise TypeError
  end.

Definition is_none (v : Py.value) : bool :=
  match v with VNone => true | _ => false end.

Definition negate (m : res bool) : res bool := bind m (fun b => Ret (negb b)).

(** The [OPERATORS] table: [OPERATORS.get(name)]. *)
Definition OPERATORS (name : string)
  : option (Py.value -> Py.value -> res bool) :=
  if String.eqb name "eq" then Some (fun a b => Ret (py_eq a b))
  else if String.eqb name "ne" then Some (fun a b => Ret (negb (py_eq a b)))
  else if String.eqb name "lt" then Some (py_cmp Lt)
  else if String.eqb name "gt" then Some (py_cmp Gt)
  else if String.eqb name "lte" then Some (py_cmp Le)
  else if String.eqb name "gte" then Some (py_cmp Ge)
  else if String.eqb name "contains" then
    Some (fun a b => if truthy a then py_in b a else Ret false)
  else if String.eqb name "not_contains" then
    Some (fun a b => if truthy a then negate (py_in b a) else Ret true)
  else if String.eqb name "matches" then
    Some (fun a b => if truthy a then search b (py_str a) else Ret false)
  else if String.eqb name "not_matches" then
    Some (fun a b => if truthy a then negate (search b (py_str a)) else Ret true)
  else if String.eqb name "exists" then
    Some (fun a _ => Ret (negb (is_none a) && negb (py_eq a (VStr ""))
                          && negb (py_eq a (VList []))))
  else if String.eqb name "not_exists" then
    Some (fun a _ => Ret (is_none a || py_eq a (VStr "") || py_eq a (VList [])))
  else if String.eqb name "in" then
    Some (fun a b => if truthy b then py_in a b else Ret false)
  else if String.eqb name "not_in" then
    Some (fun a b => if truthy b then negate (py_in a b) else Ret true)
  else if String.eqb name "length_lt" then
    Some (fun a b => if truthy a
                     then bind (py_len a) (fun n => py_cmp Lt (VInt n) b)
                     else Ret true)
  else if String.eqb name "length_gt" then
    Some (fun a b => if truthy a
                     then bind (py_len a) (fun n => py_cmp Gt (VInt n) b)
                     else Ret false)
  else if String.eqb name "length_eq" then
    Some (fun a b => if truthy a
                     then bind (py_len a) (fun n => Ret (py_eq (VInt n) b))
                     else Ret false)
  else if String.eqb name "starts_with" then
    Some (fun a b => if truthy a then startswith_value (py_str a) b else Ret false)
  else if String.eqb name "ends_with" then
    Some (fun a b => if truthy a then endswith_value (py_str a) b else Ret false)
  else None.

(** [int(x)] and [float(x)] on a truthy value. *)
Definition py_int (x : Py.value) : res Py.value :=
  match x with
  | VBool b => Ret (VInt (if b then 1 else 0))
  | VInt z => Ret (VInt z)
  | VFloat q => Ret (VInt (Num.trunc q))
  | VStr s => match Lib.int_of_str s with
              | Some z => Ret (VInt z)
              | None => Raise ValueError
              end
  | _ => Raise TypeError
  end.

Definition py_float (x : Py.value) : res Py.value :=
  match x with
  | VBool b => Ret (VFloat (inject_Z (if b then 1 else 0)))
  | VInt z => Ret (VFloat (inject_Z z))
  | VFloat q => Ret (VFloat q)
  | VStr s => match Lib.float_of_str s with
              | Some q => Ret (VFloat q)
              | None => Raise ValueError
              end
  | _ => Raise TypeError
  end.

Definition on_str (f : string -> string) (x : Py.value) : Py.value :=
  match x with
  | VStr s => VStr (f s)
  | _ => x
  end.

(** The [TRANSFORMS] table: [TRANSFORMS.get(name)]. *)
Definition TRANSFORMS (name : string) : option (Py.value -> res Py.value) :=
  if String.eqb name "len" then
    Some (fun x => if truthy x then bind (py_len x) (fun n => Ret (VInt n))
                   else Ret (VInt 0))
  else if String.eqb name "lower" then Some (fun x => Ret (on_str PyStr.lower x))
  else if String.eqb name "upper" then Some (fun x => Ret (on_str PyStr.upper x))
  else if String.eqb name "strip" then Some (fun x => Ret (on_str PyStr.strip x))
  else if String.eqb name "count" then
    Some (fun x => if has_len x then bind (py_len x) (fun n => Ret (VInt n))
                   else Ret (VInt 0))
  else if String.eqb name "bool" then Some (fun x => Ret (VBool (truthy x)))
  else if String.eqb name "int" then
    Some (fun x => if truthy x then py_int x else Ret (VInt 0))
  else if String.eqb name "float" then
    Some (fun x => if truthy x then py_float x else Ret (VFloat 0))
  else None.

(** [sys.get_int_max_str_digits()] as CPython sets it: [int] refuses a
    text of more digits. *)
Definition int_max_str_digits : nat := 4300.

(** [get_nested_value]: walk the dotted path; a dictionary is read with
    [.get], a list is indexed when the key is all digits, anything else
    ends the walk with [None].  Of what indexing a list can raise only
    the [IndexError] is caught: the [ValueError] of [int] leaves the
    function.  On ASCII text [int] refuses a key of digits only when it
    is too long.  (Beyond ASCII, [isdigit] also accepts characters such
    as the superscript digits, which [int] refuses with the same
    error.) *)
Fixpoint walk (keys : list string) (current : Py.value) : res Py.value :=
  match keys with
  | [] => Ret current
  | key :: rest =>
      match current with
      | VDict d =>
          walk rest (match dict_get d key with Some v => v | None => VNone end)
      | VList l =>
          if PyStr.isdigit key then
            if (int_max_str_digits <? String.length key)%nat then Raise ValueError
            else
              match nth_error l (Z.to_nat (PyStr.digits_to_Z key)) with
              | Some v => walk rest v
              | None => Ret VNone             (* IndexError *)
              end
          else Ret VNone
      | _ => Ret VNone
      end
  end.

Definition get_nested_value (data : list (string * Py.value)) (path : string)
  : res Py.value :=
  walk (PyStr.split "." path) (VDict data).

(** [apply_transform]: an unknown transform and a transform that raises
    both leave the value as it was. *)
Definition apply_transform (v : Py.value) (transform : option string)
  : Py.value :=
  match transform with
  | None => v
  | Some t =>
      match TRANSFORMS t with
      | None => v
      | Some fn =>
          match fn v with
          | Ret v' => v'
          | Raise _ => v
          end
      end
  end.

(** The left operand of a condition on a page. *)
Definition left_operand (c : RuleCondition) (page_data : list (string * Py.value))
  : res Py.value :=
  bind (get_nested_value page_data (field c)) (fun raw_value =>
    Ret (apply_transform raw_value (transform c))).

(** [RuleEvaluator.evaluate_condition]: the left operand is computed
    outside the [try]; of what the operator raises only [TypeError] and
    [AttributeError] are caught. *)
Definition evaluate_condition (c : RuleCondition)
    (page_data : list (string * Py.value)) : res bool :=
  bind (left_operand c page_data) (fun v =>
    match OPERATORS (operator c) with
    | None => Ret false
    | Some op_fn =>
        match op_fn v (value c) with
        | Ret b => Ret b
        | Raise TypeError => Ret false
        | Raise AttributeError => Ret false
        | Raise e => Raise e
        end
    end).

(** [RuleEvaluator.evaluate_rule] *)
Definition evaluate_rule (r : Rule) (page_data : list (string * Py.value))
  : res bool :=
  bind (mapM (fun c => evaluate_condition c page_data) (conditions r))
       (fun results =>
          if String.eqb (condition_logic r) "AND" then Ret (forallb (fun b => b) results)
          else if String.eqb (condition_logic r) "OR" then Ret (existsb (fun b => b) results)
          else Ret false).

End Evaluator.

#[local] Open Scope Q_scope.

Definition SEVERITY_WEIGHTS (s : Severity) : Q :=
  match s with
  | CRITICAL => 25 | HIGH => 15 | MEDIUM => 8 | LOW => 3 | INFO => 0
  end.

(** [issue.affected_count / max(1, pages)] capped at 1. *)
Definition coverage (affected_count total_pages : Z) : Q :=
  Num.py_min 1 (inject_Z affected_count / inject_Z (Z.max 1 total_pages)).

Definition sumQ (l : list Q) : Q := fold_left Qplus l 0.

(** [calculate_category_score] *)
Definition calculate_category_score (issues : list Issue) (total_checks : Z)
    (pages_analyzed : Z) : Q :=
  if (total_checks =? 0)%Z then 100
  else
    let penalty :=
      fold_left (fun acc i =>
                   acc + SEVERITY_WEIGHTS (severity i)
                         * ((1 # 2) + (1 # 2) * coverage (affected_count i) pages_analyzed))
                issues 0 in
    let max_penalty :=
      sumQ (map SEVERITY_WEIGHTS [CRITICAL; HIGH; MEDIUM; LOW; INFO])
      * inject_Z (Z.min total_checks 10) in
    Num.round2 (Num.py_max 0 (100 - (penalty / Num.py_max max_penalty 1) * 100)).

Definition severity_multipliers (s : Severity) : Q :=
  match s with
  | CRITICAL => 1 | HIGH => 3 # 4 | MEDIUM => 1 # 2 | LOW => 1 # 4 | INFO => 0
  end.

(** [calculate_impact_score], in double precision and in the order the
    source writes the operations. *)
Definition calculate_impact_score (sev : Severity) (affected_count total_pages : Z)
    (rule_impact_score : Q) : Q :=
  let multiplier := severity_multipliers sev in
  let coverage :=
    Num.py_min 1 (Num.fdiv (inject_Z affected_count)
                           (inject_Z (Z.max 1 total_pages))) in
  let impact :=
    Num.fmul (Num.fmul rule_impact_score multiplier)
             (Num.fadd (Num.fl (3 # 10)) (Num.fmul (Num.fl (7 # 10)) coverage)) in
  Num.fround2 (Num.py_min 100 impact).

End RuleEngine.

(* ===================================================================== *)
(** ** urllib.parse (CPython 3.11), as far as the crawler uses it        *)
(* ===================================================================== *)

Module UrlParse.
Import Py.

Definition uses_relative : list string :=
  [""; "ftp"; "http"; "gopher"; "nntp"; "imap"; "wais"; "file"; "https";
   "shttp"; "mms"; "prospero"; "rtsp"; "rtspu"; "sftp"; "svn"; "svn+ssh";
   "ws"; "wss"].

Definition uses_netloc : list string :=
  [""; "ftp"; "http"; "gopher"; "nntp"; "telnet"; "imap"; "wais"; "file";
   "mms"; "https"; "shttp"; "snews"; "prospero"; "rtsp"; "rtspu"; "rsync";
   "svn"; "svn+ssh"; "sftp"; "nfs"; "git"; "git+ssh"; "ws"; "wss"].

Definition uses_params : list string :=
  [""; "ftp"; "hdl"; "prospero"; "http"; "imap"; "https"; "shttp"; "rtsp";
   "rtspu"; "sip"; "sips"; "mms"; "sftp"; "tel"].

Definition mem (s : string) (l : list string) : bool := existsb (String.eqb s) l.

Definition scheme_char (c : ascii) : bool :=
  PyStr.is_alpha c || PyStr.is_digit c || PyStr.ascii_in c "+-.".

(** [_WHATWG_C0_CONTROL_OR_SPACE]: code points 0 to 32. *)
Definition c0_control_or_space (c : ascii) : bool := (nat_of_ascii c <=? 32)%nat.

(** [_UNSAFE_URL_BYTES_TO_REMOVE]: TAB, CR, LF. *)
Definition unsafe_url_byte (c : ascii) : bool :=
  let n := nat_of_ascii c in (n =? 9)%nat || (n =? 13)%nat || (n =? 10)%nat.

Definition nonempty (s : string) : bool := negb (String.eqb s "").

Record SplitResult : Type := mkSplit {
  s_scheme : string; s_netloc : string; s_path : string;
  s_query : string; s_fragment : string;
}.

Record ParseResult : Type := mkParse {
  scheme : string; netloc : string; path : string;
  params : string; query : string; fragment : string;
}.

Section Split.
Context `{Lib.IpAddress}.

(** The scheme prefix of [urlsplit]: [url[:i].lower(), url[i+1:]] when
    the text before the first colon is a non-empty run of scheme
    characters starting with a letter. *)
Definition split_scheme (default : string) (url : string) : string * string :=
  match PyStr.split_once ":" url with
  | Some (String c0 pre, rest) =>
      if PyStr.is_alpha c0 && forallb scheme_char (list_ascii_of_string (String c0 pre))
      then (PyStr.lower (String c0 pre), rest)
      else (default, url)
  | _ => (default, url)
  end.

(** The bracket checks of [urlsplit] on a network location. *)
Definition netloc_brackets_ok (nl : string) : bool :=
  let o := PyStr.has_char "[" nl in
  let c := PyStr.has_char "]" nl in
  if (o && negb c) || (c && negb o) then false
  else if o && c then Lib.bracketed_netloc_ok nl
  else true.

(** [urlsplit(url, scheme)] *)
Definition urlsplit (url : string) (default_scheme : string) : res SplitResult :=
  let url := PyStr.lstrip_while c0_control_or_space url in
  let default_scheme :=
    PyStr.rstrip_while c0_control_or_space
      (PyStr.lstrip_while c0_control_or_space default_scheme) in
  let url := PyStr.remove_chars unsafe_url_byte url in
  let default_scheme := PyStr.remove_chars unsafe_url_byte default_scheme in
  let '(sch, url) := split_scheme default_scheme url in
  let '(nl, url) :=
    match url with
    | String "/" (String "/" after) =>
        PyStr.break (fun c => PyStr.ascii_in c "/?#") after
    | _ => ("", url)
    end in
  if negb (netloc_brackets_ok nl) then Raise ValueError
  else
    let '(url, frag) :=
      match PyStr.split_once "#" url with
      | Some (a, b) => (a, b)
      | None => (url, "")
      end in
    let '(url, q) :=
      match PyStr.split_once "?" url with
      | Some (a, b) => (a, b)
      | None => (url, "")
      end in
    Ret (mkSplit sch nl url q frag).

(** [_splitparams]: the parameters follow the first [;] of the last
    path segment. *)
Definition splitparams (url : string) : string * string :=
  let pieces := PyStr.split "/" url in
  match PyStr.split_once ";" (List.last pieces "") with
  | Some (a, b) => (PyStr.join "/" (removelast pieces ++ [a]), b)
  | None => (url, "")
  end.

(** [urlparse(url, scheme)] *)
Definition urlparse (url : string) (default_scheme : string) : res ParseResult :=
  bind (urlsplit url default_scheme) (fun r =>
    let '(p, prm) :=
      if mem (s_scheme r) uses_params && PyStr.has_char ";" (s_path r)
      then splitparams (s_path r)
      else (s_path r, "") in
    Ret (mkParse (s_scheme r) (s_netloc r) p prm (s_query r) (s_fragment r))).

End Split.

(** [urlunsplit] *)
Definition urlunsplit (sch nl url q frag : string) : string :=
  let url :=
    if nonempty nl
       || (nonempty sch && mem sch uses_netloc && negb (PyStr.startswith url "//"))
    then ("//" ++ nl ++ (if nonempty url && negb (PyStr.startswith url "/")
                         then "/" ++ url else url))%string
    else url in
  let url := if nonempty sch then (sch ++ ":" ++ url)%string else url in
  let url := if nonempty q then (url ++ "?" ++ q)%string else url in
  if nonempty frag then (url ++ "#" ++ frag)%string else url.

(** [urlunparse] *)
Definition urlunparse (p : ParseResult) : string :=
  let url :=
    if nonempty (params p) then (path p ++ ";" ++ params p)%string else path p in
  urlunsplit (scheme p) (netloc p) url (query p) (fragment p).

(** [segments[1:-1] = filter(None, segments[1:-1])] *)
Definition filter_middle (segments : list string) : list string :=
  match segments with
  | x :: (_ :: _) as r => x :: List.filter nonempty (removelast r) ++ [List.last r ""]
  | _ => segments
  end.

(** The dot-segment loop of [urljoin]. *)
Definition resolve (segments : list string) : list string :=
  fold_left (fun resolved seg =>
               if String.eqb seg ".." then removelast resolved
               else if String.eqb seg "." then resolved
               else resolved ++ [seg])
            segments [].

Section Join.
Context `{Lib.IpAddress}.

(** [urljoin(base, url)] *)
Definition urljoin (base url : string) : res string :=
  if negb (nonempty base) then Ret url
  else if negb (nonempty url) then Ret base
  else
    bind (urlparse base "") (fun b =>
    bind (urlparse url (scheme b)) (fun u =>
      if negb (String.eqb (scheme u) (scheme b)) || negb (mem (scheme u) uses_relative)
      then Ret url
      else if mem (scheme u) uses_netloc && nonempty (netloc u)
      then Ret (urlunparse u)
      else
        let nl := if mem (scheme u) uses_netloc then netloc b else netloc u in
        if negb (nonempty (path u)) && negb (nonempty (params u)) then
          Ret (urlunparse
                 (mkParse (scheme u) nl (path b) (params b)
                          (if nonempty (query u) then query u else query b)
                          (fragment u)))
        else
          let base_parts := PyStr.split "/" (path b) in
          let base_parts :=
            if nonempty (List.last base_parts "") then removelast base_parts
            else base_parts in
          let segments :=
            if PyStr.startswith (path u) "/" then PyStr.split "/" (path u)
            else filter_middle (base_parts ++ PyStr.split "/" (path u)) in
          let resolved := resolve segments in
          let resolved :=
            if mem (List.last segments "") ["."; ".."] then resolved ++ [""]
            else resolved in
          let joined := PyStr.join "/" resolved in
          Ret (urlunparse
                 (mkParse (scheme u) nl (if nonempty joined then joined else "/")
                          (params u) (query u) (fragment u))))).

End Join.

(** *** Percent-encoding *)

Definition hex_value (c : ascii) : option nat :=
  let n := nat_of_ascii c in
  if PyStr.is_digit c then Some (n - 48)%nat
  else if (65 <=? n)%nat && (n <=? 70)%nat then Some (n - 55)%nat
  else if (97 <=? n)%nat && (n <=? 102)%nat then Some (n - 87)%nat
  else None.

Definition hex_digit (n : nat) : ascii :=
  if (n <? 10)%nat then ascii_of_nat (48 + n) else ascii_of_nat (55 + n).

(** [unquote]: every [%XX] with two hexadecimal digits becomes the
    character of that code; any other [%] stays. *)
Fixpoint unquote (s : string) : string :=
  match s with
  | EmptyString => EmptyString
  | String c r =>
      if Ascii.eqb c "%" then
        match r with
        | String h (String l r') =>
            match hex_value h, hex_value l with
            | Some a, Some b =>
                String (ascii_of_nat (16 * a + b))
                       (match r with String _ (String _ t) => unquote t | _ => "" end)
            | _, _ => String c (unquote r)
            end
        | _ => String c (unquote r)
        end
      else String c (unquote r)
  end.

(** [_ALWAYS_SAFE]: letters, digits and [_.-~]. *)
Definition always_safe (c : ascii) : bool :=
  PyStr.is_alpha c || PyStr.is_digit c || PyStr.ascii_in c "_.-~".

(** [quote_plus(s)] with the default empty [safe]: a space becomes [+],
    a safe character stays, any other byte becomes [%XX]. *)
Fixpoint quote_plus (s : string) : string :=
  match s with
  | EmptyString => EmptyString
  | String c r =>
      if Ascii.eqb c " " then String "+" (quote_plus r)
      else if always_safe c then String c (quote_plus r)
      else
        let n := nat_of_ascii c in
        String "%" (String (hex_digit (n / 16)) (String (hex_digit (n mod 16))
                                                        (quote_plus r)))
  end.

Definition plus_to_space (c : ascii) : ascii := if Ascii.eqb c "+" then " "%char else c.

(** [parse_qsl(qs, keep_blank_values=True)] *)
Definition parse_qsl (qs : string) : list (string * string) :=
  if negb (nonempty qs) then []
  else
    flat_map (fun name_value =>
                if negb (nonempty name_value) then []
                else
                  let '(n, v) :=
                    match PyStr.split_once "=" name_value with
                    | Some (a, b) => (a, b)
                    | None => (name_value, "")
                    end in
                  [(unquote (PyStr.map_chars plus_to_space n),
                    unquote (PyStr.map_chars plus_to_space v))])
             (PyStr.split "&" qs).

(** Appending a value under a key of an insertion-ordered dictionary. *)
Fixpoint dict_append (d : list (string * list string)) (k v : string)
  : list (string * list string) :=
  match d with
  | [] => [(k, [v])]
  | (k', vs) :: r =>
      if String.eqb k' k then (k', vs ++ [v]) :: r
      else (k', vs) :: dict_append r k v
  end.

(** [parse_qs(qs, keep_blank_values=True)] *)
Definition parse_qs (qs : string) : list (string * list string) :=
  fold_left (fun d nv => dict_append d (fst nv) (snd nv)) (parse_qsl qs) [].

(** [urlencode(d, doseq=True)] on a dictionary of string lists. *)
Definition urlencode (d : list (string * list string)) : string :=
  PyStr.join "&"
    (flat_map (fun kv =>
                 map (fun elt => (quote_plus (fst kv) ++ "=" ++ quote_plus elt)%string)
                     (snd kv))
              d).

End UrlParse.

(* ===================================================================== *)
(** ** urllib.robotparser                                                 *)
(* ===================================================================== *)

Module RobotParser.

Record RuleLine : Type := mkRuleLine { rl_path : string; rl_allowance : bool }.

Record Entry : Type := mkEntry {
  useragents : list string;
  rulelines : list RuleLine;
  delay : option Q;
}.

(** The parser object.  [last_checked] is a wall-clock time, [0] until
    [parse] or [read] stamps it through [modified()]. *)
Record RobotFileParser : Type := mkParser {
  entries : list Entry;
  default_entry : option Entry;
  disallow_all : bool;
  allow_all : bool;
  last_checked : Q;
}.

(** [RobotFileParser(url)]: nothing read yet. *)
Definition new_parser : RobotFileParser :=
  {| entries := []; default_entry := None;
     disallow_all := false; allow_all := false; last_checked := 0 |}.

(** The line-by-line reading of a robots.txt body and the quoting of a
    URL's path are the library's; [parse] is given the entries the lines
    define and the clock. *)
Class RobotsText : Type := {
  parse_entries : list string -> list Entry * option Entry;
  request_path : string -> string;   (* the quoted path, params and query of a URL *)
  time_now : Q;                      (* time.time(), never zero *)
  time_now_nonzero : Qeq_bool time_now 0 = false;
}.

Section Parser.
Context `{RobotsText}.

(** [parser.parse(lines)]: [modified()] then the entries. *)
Definition parse (p : RobotFileParser) (lines : list string) : RobotFileParser :=
  let '(es, d) := parse_entries lines in
  {| entries := entries p ++ es;
     default_entry := match default_entry p with Some e => Some e | None => d end;
     disallow_all := disallow_all p; allow_all := allow_all p;
     last_checked := time_now |}.

(** [RuleLine.applies_to] *)
Definition line_applies_to (l : RuleLine) (filename : string) : bool :=
  String.eqb (rl_path l) "*" || PyStr.startswith filename (rl_path l).

(** [Entry.applies_to] *)
Definition entry_applies_to (e : Entry) (useragent : string) : bool :=
  let ua := PyStr.lower (hd "" (PyStr.split "/" useragent)) in
  (fix go (agents : list string) : bool :=
     match agents with
     | [] => false
     | agent :: r =>
         if String.eqb agent "*" then true
         else if PyStr.contains ua (PyStr.lower agent) then true
         else go r
     end) (useragents e).

(** [Entry.allowance] *)
Definition allowance (e : Entry) (filename : string) : bool :=
  match List.find (fun l => line_applies_to l filename) (rulelines e) with
  | Some l => rl_allowance l
  | None => true
  end.

(** [RobotFileParser.can_fetch] *)
Definition can_fetch (p : RobotFileParser) (useragent url : string) : bool :=
  if disallow_all p then false
  else if allow_all p then true
  else if Qeq_bool (last_checked p) 0 then false
  else
    let url := request_path url in
    let url := if String.eqb url "" then "/" else url in
    match List.find (fun e => entry_applies_to e useragent) (entries p) with
    | Some e => allowance e url
    | None =>
        match default_entry p with
        | Some e => allowance e url
        | None => true
        end
    end.

(** [RobotFileParser.crawl_delay] *)
Definition crawl_delay (p : RobotFileParser) (useragent : string) : option Q :=
  if Qeq_bool (last_checked p) 0 then None
  else
    match List.find (fun e => entry_applies_to e useragent) (entries p) with
    | Some e => delay e
    | None =>
        match default_entry p with
        | Some e => delay e
        | None => None
        end
    end.

End Parser.

End RobotParser.

(* ===================================================================== *)
(** ** app/engines/crawler/engine.py                                      *)
(* ===================================================================== *)

Module Crawler.
Import Py Base.

(** What [await session.get(url)] gives: an exception, or a response
    with its status code and body text. *)
Inductive http_result : Type :=
| HttpRaised
| HttpResponse (status : Z) (text : string).

(** *** URLNormalizer *)

Definition IGNORED_PARAMS : list string :=
  ["utm_source"; "utm_medium"; "utm_campaign"; "utm_content"; "utm_term";
   "ref"; "fbclid"; "gclid"].

Definition IGNORED_EXTENSIONS : list string :=
  [".pdf"; ".jpg"; ".jpeg"; ".png"; ".gif"; ".svg"; ".ico"; ".css"; ".js";
   ".woff"; ".woff2"; ".ttf"; ".zip"; ".tar"; ".gz"; ".mp4"; ".mp3"; ".wav"].

Definition has_ignored_extension (path : string) : bool :=
  existsb (PyStr.endswith (PyStr.lower path)) IGNORED_EXTENSIONS.

(** The query with the tracking parameters dropped and re-encoded. *)
Definition clean_query (query : string) : string :=
  if UrlParse.nonempty query then
    UrlParse.urlencode
      (List.filter (fun kv => negb (UrlParse.mem (fst kv) IGNORED_PARAMS))
                   (UrlParse.parse_qs query))
  else "".

(** A single trailing-slash rule: every trailing [/] goes, except on the
    root path. *)
Definition trim_path (path : string) : string :=
  if negb (String.eqb path "/") && PyStr.endswith path "/"
  then PyStr.rstrip_while (Ascii.eqb "/") path
  else path.

Section Normalizer.
Context `{Lib.IpAddress}.

(** [URLNormalizer.normalize]: [None] is the reject signal; any
    exception is turned into it. *)
Definition normalize (url base_url : string) : option string :=
  match UrlParse.urljoin base_url (PyStr.strip url) with
  | Raise _ => None
  | Ret joined =>
      match UrlParse.urlparse joined "" with
      | Raise _ => None
      | Ret parsed =>
          if negb (UrlParse.mem (UrlParse.scheme parsed) ["http"; "https"]) then None
          else if has_ignored_extension (UrlParse.path parsed) then None
          else
            Some (UrlParse.urlunparse
                    (UrlParse.mkParse
                       (PyStr.lower (UrlParse.scheme parsed))
                       (PyStr.lower (UrlParse.netloc parsed))
                       (trim_path (UrlParse.path parsed))
                       (UrlParse.params parsed)
                       (clean_query (UrlParse.query parsed))
                       ""))
      end
  end.

(** [URLNormalizer.is_same_domain] *)
Definition is_same_domain (url root_domain : string) : res bool :=
  bind (UrlParse.urlparse url "") (fun parsed =>
    let host := PyStr.lower (UrlParse.netloc parsed) in
    Ret (String.eqb host root_domain
         || PyStr.endswith host ("." ++ root_domain))).

End Normalizer.

(** *** RobotsHandler *)

Section Robots.
Context `{Lib.IpAddress} `{RobotParser.RobotsText}.

(** [RobotsHandler.fetch_and_parse], given what the request for
    [https://<domain>/robots.txt] produced. *)
Definition fetch_and_parse (parsers : gmap string RobotParser.RobotFileParser)
    (domain : string) (got : http_result)
  : gmap string RobotParser.RobotFileParser :=
  match got with
  | HttpResponse st text =>
      let parser := RobotParser.new_parser in
      let parser :=
        if (st =? 200)%Z then RobotParser.parse parser (PyStr.splitlines text)
        else parser in
      <[domain := parser]> parsers
  | HttpRaised => <[domain := RobotParser.new_parser]> parsers
  end.

(** [RobotsHandler.can_fetch] *)
Definition can_fetch (parsers : gmap string RobotParser.RobotFileParser)
    (url user_agent : string) : res bool :=
  bind (UrlParse.urlparse url "") (fun parsed =>
    let domain := PyStr.lower (UrlParse.netloc parsed) in
    match parsers !! domain with
    | None => Ret true
    | Some parser => Ret (RobotParser.can_fetch parser user_agent url)
    end).

(** [RobotsHandler.get_crawl_delay] *)
Definition get_crawl_delay (parsers : gmap string RobotParser.RobotFileParser)
    (domain user_agent : string) : option Q :=
  match parsers !! domain with
  | Some parser =>
      match RobotParser.crawl_delay parser user_agent with
      | Some d => if Qeq_bool d 0 then None else Some d
      | None => None
      end
  | None => None
  end.

End Robots.

(** *** SitemapParser *)

Section Sitemaps.
Context `{Lib.IpAddress} `{Lib.Html}.
(** The site as the HTTP client sees it. *)
Variable web : string -> http_result.

(** [SitemapParser._fetch_sitemap].  The recursion follows the
    references the site serves, and nothing in the function bounds it;
    what bounds it is the interpreter: [limit] is the number of nested
    calls of [_fetch_sitemap] that the recursion limit leaves room for.
    A call beyond it raises [RecursionError] inside its own [try], and
    its [except Exception] returns the empty list.  The result carries
    the URLs found and the requests made, in order. *)
Fixpoint _fetch_sitemap (limit : nat) (url : string)
  : list string * list string :=
  match limit with
  | O => ([], [])
  | S limit' =>
      match web url with
      | HttpRaised => ([], [url])
      | HttpResponse st content =>
          if negb (st =? 200)%Z then ([], [url])
          else if PyStr.contains content "<sitemapindex" then
            fold_left
              (fun acc loc =>
                 match acc, _fetch_sitemap limit' loc with
                 | (urls, log), (nested, log') => (urls ++ nested, log ++ log')
                 end)
              (Lib.find_all_loc content) ([], [url])
          else if PyStr.contains content "<urlset" then
            (Lib.find_all_loc content, [url])
          else ([], [url])
      end
  end.

(** The three locations [discover] probes. *)
Definition candidates (root_url : string) : res (list string) :=
  bind (UrlParse.urlparse root_url "") (fun parsed =>
    let base := (UrlParse.scheme parsed ++ "://" ++ UrlParse.netloc parsed)%string in
    Ret [(base ++ "/sitemap.xml")%string;
         (base ++ "/sitemap_index.xml")%string;
         (base ++ "/sitemap/sitemap.xml")%string]).

(** [SitemapParser.discover]: the set of URLs found and the requests
    made. *)
Definition discover (limit : nat) (root_url : string)
  : res (gset string * list string) :=
  bind (candidates root_url) (fun cands =>
    Ret (fold_left
           (fun acc url =>
              match acc, _fetch_sitemap limit url with
              | (found, log), (urls, log') =>
                  (found ∪ list_to_set urls, log ++ log')
              end)
           cands (∅, []))).

End Sitemaps.

(** *** The BFS crawl *)

Record CrawlURL : Type := mkCrawlURL {
  cu_url : string;
  cu_depth : Z;
  parent_url : option string;
  discovered_via : string;       (* link | sitemap | manual *)
}.

Record CrawlStats : Type := mkStats {
  total_queued : Z;
  total_crawled : Z;
  total_failed : Z;
  total_skipped : Z;
}.

(** The settings [run] reads. *)
Record Config : Type := mkConfig {
  max_pages : Z;
  max_depth : Z;
  concurrency : Z;
  js_render : bool;
}.

(** The structures the crawl owns. *)
Record CrawlState : Type := mkState {
  queue : list CrawlURL;
  visited : gset string;
  fingerprints : gset string;
  stats : CrawlStats;
  crawled_pages : list PageData;
}.

Definition CRAWLER_USER_AGENT : string :=
  "SEOAuditBot/1.0 (+https://seoplatform.com/bot)".

(** What one [crawl_url] task hands to [gather]. *)
Inductive task_result : Type :=
| TaskPage (p : PageData)
| TaskNone
| TaskException.

Section BFS.
Context `{Lib.IpAddress} `{Lib.Html} `{RobotParser.RobotsText}.
(** [fetcher.fetch(url, force_render)]: always a [PageData]. *)
Variable fetch : string -> bool -> PageData.
Variable parsers : gmap string RobotParser.RobotFileParser.
Variable cfg : Config.
Variable root_url : string.
Variable domain : string.

Definition skip (st : CrawlState) : CrawlState :=
  {| queue := queue st; visited := visited st; fingerprints := fingerprints st;
     stats := {| total_queued := total_queued (stats st);
                 total_crawled := total_crawled (stats st);
                 total_failed := total_failed (stats st);
                 total_skipped := total_skipped (stats st) + 1 |};
     crawled_pages := crawled_pages st |}.

Definition visit (st : CrawlState) (u : string) : CrawlState :=
  {| queue := queue st; visited := {[u]} ∪ visited st;
     fingerprints := fingerprints st; stats := stats st;
     crawled_pages := crawled_pages st |}.

Definition count_crawled (st : CrawlState) : CrawlState :=
  {| queue := queue st; visited := visited st; fingerprints := fingerprints st;
     stats := {| total_queued := total_queued (stats st);
                 total_crawled := total_crawled (stats st) + 1;
                 total_failed := total_failed (stats st);
                 total_skipped := total_skipped (stats st) |};
     crawled_pages := crawled_pages st |}.

Definition add_fingerprint (st : CrawlState) (fp : string) : CrawlState :=
  {| queue := queue st; visited := visited st;
     fingerprints := {[fp]} ∪ fingerprints st; stats := stats st;
     crawled_pages := crawled_pages st |}.

Definition enqueue (st : CrawlState) (item : CrawlURL) : CrawlState :=
  {| queue := queue st ++ [item]; visited := visited st;
     fingerprints := fingerprints st;
     stats := {| total_queued := total_queued (stats st) + 1;
                 total_crawled := total_crawled (stats st);
                 total_failed := total_failed (stats st);
                 total_skipped := total_skipped (stats st) |};
     crawled_pages := crawled_pages st |}.

(** The loop over [page.links] at the end of [crawl_url].  A link is
    enqueued when it normalises, is not yet visited, is on the domain
    and the growth cap [len(queue) + len(visited) < max_pages * 2]
    has room.  The flag is [true] when the domain check raised; the
    links enqueued before that stay in the queue. *)
Fixpoint enqueue_links (links : list string) (normalized : string) (depth : Z)
    (st : CrawlState) : CrawlState * bool :=
  match links with
  | [] => (st, false)
  | link :: rest =>
      match normalize link normalized with
      | Some ln =>
          if UrlParse.nonempty ln && negb (bool_decide (ln ∈ visited st)) then
            match is_same_domain ln domain with
            | Raise _ => (st, true)
            | Ret same =>
                if same
                   && (Z.of_nat (length (queue st)) + Z.of_nat (size (visited st))
                       <? max_pages cfg * 2)%Z
                then enqueue_links rest normalized depth
                       (enqueue st (mkCrawlURL ln (depth + 1) (Some normalized) "link"))
                else enqueue_links rest normalized depth st
            end
          else enqueue_links rest normalized depth st
      | None => enqueue_links rest normalized depth st
      end
  end.

(** [crawl_url(crawl_item)] up to its [await fetcher.fetch(...)]: the
    task either ends here, or has marked its URL visited, passed the depth
    and robots checks and now waits for the page. *)
Inductive started : Type :=
| Ended (r : task_result)
| AwaitingFetch (normalized : string).

Definition start_task (item : CrawlURL) (st : CrawlState) : CrawlState * started :=
  match normalize (cu_url item) root_url with
  | None => (st, Ended TaskNone)
  | Some normalized =>
      if negb (UrlParse.nonempty normalized) then (st, Ended TaskNone)
      else
        match is_same_domain normalized domain with
        | Raise _ => (st, Ended TaskException)
        | Ret false => (st, Ended TaskNone)
        | Ret true =>
            if bool_decide (normalized ∈ visited st) then (st, Ended TaskNone)
            else
              let st := visit st normalized in
              if (max_depth cfg <? cu_depth item)%Z then (skip st, Ended TaskNone)
              else
                match can_fetch parsers normalized CRAWLER_USER_AGENT with
                | Raise _ => (st, Ended TaskException)
                | Ret false => (skip st, Ended TaskNone)
                | Ret true => (st, AwaitingFetch normalized)
                end
        end
  end.

(** [crawl_url(crawl_item)] from the fetched page on. *)
Definition finish_task (item : CrawlURL) (normalized : string) (st : CrawlState)
  : CrawlState * task_result :=
  let page := set_depth (fetch normalized (js_render cfg)) (cu_depth item) in
  let st := count_crawled st in
  let '(page, st) :=
    if UrlParse.nonempty (html page) then
      let fp := Lib.md5_hex (html page) in
      (if bool_decide (fp ∈ fingerprints st)
       then set_meta page "is_duplicate_content" "true"
       else page,
       add_fingerprint st fp)
    else (page, st) in
  if (cu_depth item <? max_depth cfg)%Z then
    match enqueue_links (links page) normalized (cu_depth item) st with
    | (st', false) => (st', TaskPage page)
    | (st', true) => (st', TaskException)
    end
  else (st, TaskPage page).

(** [crawl_url(crawl_item)] run without interruption. *)
Definition crawl_url (item : CrawlURL) (st : CrawlState)
  : CrawlState * task_result :=
  match start_task item st with
  | (st', Ended r) => (st', r)
  | (st', AwaitingFetch normalized) => finish_task item normalized st'
  end.

(** *** One batch under [asyncio.gather]

    The tasks of a batch enter the semaphore in batch order; a task that
    waits for its page leaves the event loop to the others, and the pages
    arrive in any order.  [waiting] are the tasks not yet started,
    [running] those awaiting their page, [results] the slots of the list
    [gather] returns, one per task, in batch order. *)
Record BatchRun : Type := mkBatchRun {
  waiting : list (nat * CrawlURL);
  running : list (nat * CrawlURL * string);
  results : list task_result;
}.

(** The next waiting task runs up to its fetch. *)
Definition start_next (b : BatchRun) (st : CrawlState) : BatchRun * CrawlState :=
  match waiting b with
  | [] => (b, st)
  | (slot, item) :: rest =>
      match start_task item st with
      | (st', Ended r) =>
          ({| waiting := rest; running := running b;
              results := <[slot := r]> (results b) |}, st')
      | (st', AwaitingFetch normalized) =>
          ({| waiting := rest; running := running b ++ [(slot, item, normalized)];
              results := results b |}, st')
      end
  end.

(** The page of the [j]-th running task arrives and the task runs to its
    end. *)
Definition finish_at (j : nat) (b : BatchRun) (st : CrawlState)
  : BatchRun * CrawlState :=
  match running b !! j with
  | None => (b, st)
  | Some (slot, item, normalized) =>
      let '(st', r) := finish_task item normalized st in
      ({| waiting := waiting b; running := delete j (running b);
          results := <[slot := r]> (results b) |}, st')
  end.

(** One scheduling step.  Choice [0] asks for the next task to start,
    which it does when the semaphore has room; choice [j + 1] asks for a
    page to arrive, for the running task number [j] (modulo their
    number).  When the asked-for move is not possible the other one is
    made, so that a step always advances the batch. *)
Definition batch_step (choice : nat) (b : BatchRun) (st : CrawlState)
  : BatchRun * CrawlState :=
  let room := (Z.of_nat (length (running b)) <? concurrency cfg)%Z in
  match choice, waiting b, running b with
  | O, _ :: _, ru => if room then start_next b st
                     else match ru with
                          | [] => start_next b st
                          | _ => finish_at 0 b st
                          end
  | _, _, _ :: _ =>
      finish_at (Nat.pred choice mod length (running b)) b st
  | _, _, [] => start_next b st
  end.

(** [steps] scheduling steps, the choices read off [schedule]. *)
Fixpoint batch_steps (schedule : nat -> nat) (steps : nat) (k : nat)
    (b : BatchRun) (st : CrawlState) : BatchRun * CrawlState :=
  match steps with
  | O => (b, st)
  | S steps' =>
      let '(b', st') := batch_step (schedule k) b st in
      batch_steps schedule steps' (S k) b' st'
  end.

Fixpoint indexed {A} (from : nat) (l : list A) : list (nat * A) :=
  match l with
  | [] => []
  | x :: r => (from, x) :: indexed (S from) r
  end.

(** The [await asyncio.gather] over [crawl_url(item) for item in batch]:
    every task starts once and ends once, so twice as many steps as tasks run
    the batch to its end. *)
Definition run_batch (schedule : nat -> nat) (batch : list CrawlURL)
    (st : CrawlState) : CrawlState * list task_result :=
  let b0 := {| waiting := indexed 0 batch; running := [];
               results := replicate (length batch) TaskNone |} in
  let '(b, st') := batch_steps schedule (2 * length batch) 0 b0 st in
  (st', results b).

Definition collect (st : CrawlState) (r : task_result) : CrawlState :=
  match r with
  | TaskPage p =>
      {| queue := queue st; visited := visited st;
         fingerprints := fingerprints st; stats := stats st;
         crawled_pages := crawled_pages st ++ [p] |}
  | TaskException =>
      {| queue := queue st; visited := visited st;
         fingerprints := fingerprints st;
         stats := {| total_queued := total_queued (stats st);
                     total_crawled := total_crawled (stats st);
                     total_failed := total_failed (stats st) + 1;
                     total_skipped := total_skipped (stats st) |};
         crawled_pages := crawled_pages st |}
  | TaskNone => st
  end.

(** The loop condition: [queue and len(crawled_pages) < max_pages]. *)
Definition loop_continues (st : CrawlState) : bool :=
  match queue st with
  | [] => false
  | _ => (Z.of_nat (length (crawled_pages st)) <? max_pages cfg)%Z
  end.

(** [min(concurrency * 2, len(queue), max_pages - len(crawled_pages))].
    (A negative concurrency does not get this far: creating the semaphore
    raises.) *)
Definition batch_size (st : CrawlState) : Z :=
  Z.min (Z.min (concurrency cfg * 2) (Z.of_nat (length (queue st))))
        (max_pages cfg - Z.of_nat (length (crawled_pages st))).

(** One iteration of the [while] loop of [run], its batch scheduled by
    [schedule]. *)
Definition loop_body (schedule : nat -> nat) (st : CrawlState) : CrawlState :=
  let n := Z.to_nat (batch_size st) in
  let batch := firstn n (queue st) in
  let st0 :=
    {| queue := skipn n (queue st); visited := visited st;
       fingerprints := fingerprints st; stats := stats st;
       crawled_pages := crawled_pages st |} in
  let '(st1, results) := run_batch schedule batch st0 in
  fold_left collect results st1.

(** The [while] loop, for at most [fuel] iterations; [None] when the
    loop is still running after them.  [schedules i] schedules the batch
    of iteration [i]. *)
Fixpoint bfs_loop (schedules : nat -> nat -> nat) (fuel : nat) (i : nat)
    (st : CrawlState) : option CrawlState :=
  if loop_continues st then
    match fuel with
    | O => None
    | S fuel' => bfs_loop schedules fuel' (S i) (loop_body (schedules i) st)
    end
  else Some st.

(** The seeded state: the root URL, then the first 1000 sitemap URLs
    that normalise. *)
Definition seed (sitemap_urls : list string) : CrawlState :=
  let seeds :=
    flat_map (fun surl =>
                match normalize surl root_url with
                | Some n => if UrlParse.nonempty n
                            then [mkCrawlURL n 1 None "sitemap"] else []
                | None => []
                end)
             (firstn 1000 sitemap_urls) in
  let q := mkCrawlURL root_url 0 None "manual" :: seeds in
  {| queue := q; visited := ∅; fingerprints := ∅;
     stats := {| total_queued := Z.of_nat (length q); total_crawled := 0;
                 total_failed := 0; total_skipped := 0 |};
     crawled_pages := [] |}.

End BFS.

End Crawler.

(** *** CrawlerEngine: issues and score of a finished crawl *)

Module CrawlReport.
Import Base.
#[local] Open Scope Q_scope.

Definition str_of_nat (n : nat) : string :=
  DecimalString.NilZero.string_of_int (Z.to_int (Z.of_nat n)).

Definition truthy_str (o : option string) : bool :=
  match o with
  | Some s => negb (String.eqb s "")
  | None => false
  end.

(** One crawl issue over the pages [found], when there are any. *)
Definition crawl_issue (found : list PageData) (rid ttl : string)
    (descr : string) (sev : Severity) (ceiling factor : Q) (recm : string)
  : list Issue :=
  match found with
  | [] => []
  | _ =>
      [ {| rule_id := rid; title := ttl;
           description := (str_of_nat (length found) ++ descr)%string;
           severity := sev; category := CRAWLABILITY;
           affected_urls := map url (firstn 50 found);
           affected_count := Z.of_nat (length found);
           impact_score := Num.py_min ceiling (inject_Z (Z.of_nat (length found)) * factor);
           effort_score := 5;
           recommendation := recm; documentation_url := "" |} ]
  end.

(** [CrawlerEngine._analyze_crawl_issues] *)
Definition _analyze_crawl_issues (pages : list PageData) : list Issue :=
  let error_4xx :=
    List.filter (fun p => (400 <=? status_code p)%Z && (status_code p <? 500)%Z) pages in
  let error_5xx := List.filter (fun p => (500 <=? status_code p)%Z) pages in
  let duplicates :=
    List.filter (fun p => bool_decide (meta p !! "is_duplicate_content" = Some "true"))
                pages in
  let no_canonical :=
    List.filter (fun p => (status_code p =? 200)%Z && negb (truthy_str (canonical_url p)))
                pages in
  let canonical_mismatch :=
    List.filter (fun p => truthy_str (canonical_url p)
                          && negb (bool_decide (canonical_url p = Some (url p)))
                          && (status_code p =? 200)%Z) pages in
  let slow_pages :=
    List.filter (fun p => Num.Qlt_bool 5000 (load_time_ms p) && (status_code p =? 200)%Z)
                pages in
  crawl_issue error_4xx "crawl-4xx-pages" "Pages returning 4xx errors"
    " pages return client error status codes." HIGH 100 2
    "Fix or redirect broken URLs. Use 301 redirects for permanently moved content."
  ++ crawl_issue error_5xx "crawl-5xx-pages" "Pages returning 5xx server errors"
    " pages return server error status codes." CRITICAL 100 3
    "Investigate server errors immediately. These pages are unindexable."
  ++ crawl_issue duplicates "crawl-duplicate-content" "Duplicate content detected"
    " pages have identical or near-identical content." MEDIUM 80 (3 # 2)
    "Implement canonical tags or 301 redirects to consolidate duplicate content."
  ++ crawl_issue no_canonical "crawl-missing-canonical" "Pages without canonical tags"
    " pages are missing canonical link elements." MEDIUM 60 (1 # 2)
    "Add self-referencing canonical tags to all indexable pages."
  ++ crawl_issue canonical_mismatch "crawl-canonical-mismatch"
    "Crawled URLs differ from canonical"
    " crawled URLs point to a different canonical URL, wasting crawl budget."
    MEDIUM 70 1
    "Ensure internal links point to the canonical version of each URL."
  ++ crawl_issue slow_pages "crawl-slow-pages" "Pages with slow server response time"
    " pages took over 5 seconds to respond." HIGH 80 2
    "Optimize server response time. Target < 200ms TTFB.".

Definition severity_penalties (s : Severity) : Q :=
  match s with
  | CRITICAL => 20 | HIGH => 10 | MEDIUM => 5 | LOW => 2 | INFO => 0
  end.

(** [CrawlerEngine._calculate_crawl_score] *)
Definition _calculate_crawl_score (pages : list PageData) (issues : list Issue) : Q :=
  match pages with
  | [] => 0
  | _ =>
      let total := Z.of_nat (length pages) in
      let successful :=
        Z.of_nat (length (List.filter
                            (fun p => (200 <=? status_code p)%Z && (status_code p <? 400)%Z)
                            pages)) in
      let success_rate := inject_Z successful / inject_Z total in
      let score := success_rate * 70 in
      let has_canonical :=
        inject_Z (Z.of_nat (length (List.filter (fun p => truthy_str (canonical_url p)) pages)))
        / inject_Z (Z.max 1 total) in
      let score := score + has_canonical * 20 in
      let score := fold_left (fun sc i => sc - severity_penalties (severity i)) issues score in
      Num.py_max 0 (Num.py_min 100 (Num.round2 score))
  end.

(** The [AuditResult] [CrawlerEngine.run] returns for the pages crawled. *)
Definition crawl_result (audit : string) (pages : list PageData) : AuditResult :=
  let issues := _analyze_crawl_issues pages in
  let score := _calculate_crawl_score pages issues in
  {| engine_name := "crawler"; audit_id := audit; status := SUCCESS;
     result_category := CRAWLABILITY; score := score;
     grade := calculate_grade score; issues := issues; recommendations := [];
     pages_analyzed := Z.of_nat (length pages) |}.

End CrawlReport.

(* ===================================================================== *)
(** ** app/engines/onpage/engine.py                                       *)
(* ===================================================================== *)

Module OnPage.
Import Py Base.

Definition TITLE_MIN_LENGTH : nat := 30.
Definition TITLE_MAX_LENGTH : nat := 60.
Definition META_DESC_MIN_LENGTH : nat := 70.
Definition META_DESC_MAX_LENGTH : nat := 160.
Definition URL_MAX_LENGTH : nat := 115.
Definition MIN_WORD_COUNT : nat := 300.

(** The lists the page loop fills. *)
Record Buckets : Type := mkBuckets {
  titles : list string;
  meta_descs : list string;
  missing_title : list PageData;
  short_title : list PageData;
  long_title : list PageData;
  missing_meta : list PageData;
  short_meta : list PageData;
  long_meta : list PageData;
  missing_h1 : list PageData;
  multiple_h1 : list PageData;
  missing_alt : list PageData;
  thin_content : list PageData;
  long_urls : list PageData;
  dynamic_urls : list PageData;
  uppercase_urls : list PageData;
}.

Definition empty_buckets : Buckets :=
  mkBuckets [] [] [] [] [] [] [] [] [] [] [] [] [] [] [].

Definition meta_get (p : PageData) (k : string) : string :=
  default "" (meta p !! k).

Definition add_if {A} (b : bool) (x : A) (l : list A) : list A :=
  if b then l ++ [x] else l.

Section Engine.
Context `{Lib.IpAddress} `{Lib.Html}.

(** The page as the loop leaves it: [images_missing_alt] and
    [word_count] written into its [meta].  The lists hold the page
    object itself, so they all see these entries. *)
Definition annotate (page : PageData) : PageData :=
  let n := Lib.count_img_without_alt (html page) in
  let page :=
    if (0 <? n)%nat
    then set_meta page "images_missing_alt" (CrawlReport.str_of_nat n)
    else page in
  set_meta page "word_count"
           (CrawlReport.str_of_nat (length (PyStr.words (text_content page)))).

(** One turn of the loop over the pages. *)
Definition analyse_page (b : Buckets) (page : PageData) : res Buckets :=
  if negb (UrlParse.nonempty (html page)) then Ret b
  else
    let title := PyStr.strip (meta_get page "title") in
    let meta_desc := PyStr.strip (meta_get page "description") in
    let h1 := Lib.count_h1 (html page) in
    let no_alt := Lib.count_img_without_alt (html page) in
    let word_count := length (PyStr.words (text_content page)) in
    let pg := annotate page in
    bind (UrlParse.urlparse (url page) "") (fun parsed =>
      let has_title := UrlParse.nonempty title in
      let has_desc := UrlParse.nonempty meta_desc in
      let tl := String.length title in
      let dl := String.length meta_desc in
      Ret {|
        titles := add_if has_title title (titles b);
        meta_descs := add_if has_desc meta_desc (meta_descs b);
        missing_title := add_if (negb has_title) pg (missing_title b);
        short_title :=
          add_if (has_title && (tl <? TITLE_MIN_LENGTH)%nat) pg (short_title b);
        long_title :=
          add_if (has_title && negb (tl <? TITLE_MIN_LENGTH)%nat
                  && (TITLE_MAX_LENGTH <? tl)%nat) pg (long_title b);
        missing_meta := add_if (negb has_desc) pg (missing_meta b);
        short_meta :=
          add_if (has_desc && (dl <? META_DESC_MIN_LENGTH)%nat) pg (short_meta b);
        long_meta :=
          add_if (has_desc && negb (dl <? META_DESC_MIN_LENGTH)%nat
                  && (META_DESC_MAX_LENGTH <? dl)%nat) pg (long_meta b);
        missing_h1 := add_if (h1 =? 0)%nat pg (missing_h1 b);
        multiple_h1 := add_if (1 <? h1)%nat pg (multiple_h1 b);
        missing_alt := add_if (0 <? no_alt)%nat pg (missing_alt b);
        thin_content := add_if (word_count <? MIN_WORD_COUNT)%nat pg (thin_content b);
        long_urls :=
          add_if (URL_MAX_LENGTH <? String.length (url page))%nat pg (long_urls b);
        dynamic_urls :=
          add_if (3 <? length (PyStr.split "&" (UrlParse.query parsed)))%nat
                 pg (dynamic_urls b);
        uppercase_urls :=
          add_if (negb (String.eqb (UrlParse.path parsed)
                                   (PyStr.lower (UrlParse.path parsed))))
                 pg (uppercase_urls b);
      |}).

Fixpoint analyse_pages (b : Buckets) (pages : list PageData) : res Buckets :=
  match pages with
  | [] => Ret b
  | p :: rest => bind (analyse_page b p) (fun b' => analyse_pages b' rest)
  end.

(** [Counter(xs)[x] > 1] *)
Definition duplicated (xs : list string) (x : string) : bool :=
  (1 <? length (List.filter (String.eqb x) xs))%nat.

(** An issue whose impact comes from [calculate_impact_score]. *)
Definition scored_issue (found : list PageData) (total_pages : Z)
    (rid ttl descr : string) (sev : Severity) (rule_base : Q)
    (recm doc : string) : list Issue :=
  match found with
  | [] => []
  | _ =>
      [ {| rule_id := rid; title := ttl; description := descr;
           severity := sev; category := ON_PAGE;
           affected_urls := map url (firstn 50 found);
           affected_count := Z.of_nat (length found);
           impact_score :=
             RuleEngine.calculate_impact_score sev (Z.of_nat (length found))
                                               total_pages rule_base;
           effort_score := 5; recommendation := recm;
           documentation_url := doc |} ]
  end.

Definition n_pages (l : list PageData) : string := CrawlReport.str_of_nat (length l).

(** The issue-creation part of [run]. *)
Definition create_issues (b : Buckets) (pages : list PageData) (total_pages : Z)
  : list Issue :=
  let dup_title_urls :=
    List.filter (fun p => duplicated (titles b) (meta_get p "title")) pages in
  let dup_desc_urls :=
    List.filter (fun p => duplicated (meta_descs b) (meta_get p "description")) pages in
  let total_missing :=
    fold_left (fun acc p => (acc + Lib.count_img_without_alt (html p))%nat)
              (missing_alt b) 0%nat in
  scored_issue (missing_title b) total_pages "onpage-missing-title"
    "Pages missing title tags"
    (n_pages (missing_title b) ++ " pages have no title tag.")%string
    CRITICAL 95
    "Add unique, descriptive title tags (30-60 chars) to every page."
    "https://developers.google.com/search/docs/appearance/title-link"
  ++ scored_issue dup_title_urls total_pages "onpage-duplicate-title"
    "Duplicate title tags across pages"
    (n_pages dup_title_urls ++ " pages share title tags with other pages.")%string
    HIGH 75
    "Write unique title tags for every page. Include target keywords." ""
  ++ scored_issue (short_title b) total_pages "onpage-short-title"
    "Title tags too short"
    (n_pages (short_title b) ++ " pages have title tags under 30 characters.")%string
    MEDIUM 55 "Expand title tags to 30-60 characters." ""
  ++ scored_issue (long_title b) total_pages "onpage-long-title"
    "Title tags too long (will be truncated)"
    (n_pages (long_title b) ++ " pages have title tags over 60 characters.")%string
    MEDIUM 45 "Trim title tags to under 60 characters." ""
  ++ scored_issue (missing_meta b) total_pages "onpage-missing-meta-description"
    "Pages missing meta descriptions"
    (n_pages (missing_meta b) ++ " pages have no meta description tag.")%string
    HIGH 70
    "Write compelling meta descriptions (70-160 chars) to improve CTR from search results."
    ""
  ++ scored_issue dup_desc_urls total_pages "onpage-duplicate-meta-description"
    "Duplicate meta descriptions"
    (n_pages dup_desc_urls ++ " pages share identical meta descriptions.")%string
    MEDIUM 50 "Write unique meta descriptions for every page." ""
  ++ scored_issue (missing_h1 b) total_pages "onpage-missing-h1"
    "Pages missing H1 heading"
    (n_pages (missing_h1 b) ++ " pages have no H1 heading.")%string
    HIGH 65 "Add a single, keyword-rich H1 heading to every page." ""
  ++ scored_issue (multiple_h1 b) total_pages "onpage-multiple-h1"
    "Pages with multiple H1 headings"
    (n_pages (multiple_h1 b) ++ " pages have more than one H1 heading.")%string
    MEDIUM 40 "Use only one H1 per page. Use H2-H6 for subheadings." ""
  ++ scored_issue (missing_alt b) total_pages "onpage-missing-alt-text"
    "Images missing alt text"
    (CrawlReport.str_of_nat total_missing ++ " images across "
     ++ n_pages (missing_alt b) ++ " pages are missing alt attributes.")%string
    MEDIUM 45
    "Add descriptive alt text to all meaningful images. Use empty alt='' for decorative images."
    ""
  ++ scored_issue (thin_content b) total_pages "onpage-thin-content"
    "Pages with thin content"
    (n_pages (thin_content b) ++ " pages have fewer than 300 words.")%string
    MEDIUM 55
    "Expand content to at least 300 words. Focus on depth and value." ""
  ++ scored_issue (long_urls b) total_pages "onpage-long-urls"
    "URLs exceeding recommended length"
    (n_pages (long_urls b) ++ " pages have URLs longer than 115 characters.")%string
    LOW 25 "Keep URLs short, descriptive, and keyword-rich." ""
  ++ match uppercase_urls b with
     | [] => []
     | found =>
         [ {| rule_id := "onpage-uppercase-urls";
              title := "URLs containing uppercase characters";
              description :=
                (n_pages found
                 ++ " pages have uppercase letters in their URL paths.")%string;
              severity := LOW; category := ON_PAGE;
              affected_urls := map url (firstn 50 found);
              affected_count := Z.of_nat (length found);
              impact_score := 20;
              effort_score := 5;
              recommendation :=
                "Use only lowercase URLs. Redirect uppercase variants to lowercase equivalents.";
              documentation_url := "" |} ]
     end.

(** The pages the engine looks at and [total_pages]. *)
Definition html_pages (site_pages : list PageData) : list PageData :=
  List.filter (fun p => (status_code p =? 200)%Z
                        && PyStr.contains (content_type p) "text/html")
              site_pages.

Definition total_pages_of (site_pages : list PageData) : Z :=
  Z.max 1 (Z.of_nat (length (html_pages site_pages))).

(** [OnPageAnalyzerEngine.run] *)
Definition run (audit : string) (site_pages : list PageData) : res AuditResult :=
  let pages := html_pages site_pages in
  let total_pages := total_pages_of site_pages in
  bind (analyse_pages empty_buckets pages) (fun b =>
    let issues := create_issues b pages total_pages in
    let score := RuleEngine.calculate_category_score issues 12 total_pages in
    Ret {| engine_name := "onpage"; audit_id := audit; status := SUCCESS;
           result_category := ON_PAGE; score := score;
           grade := calculate_grade score; issues := issues;
           recommendations := []; pages_analyzed := total_pages |}).

End Engine.

End OnPage.

(* ===================================================================== *)
(** ** app/engines/prioritization/engine.py                               *)
(* ===================================================================== *)

Module Prioritization.
Import Base.
#[local] Open Scope Q_scope.

Definition SEVERITY_WEIGHTS (s : Severity) : Q :=
  match s with
  | CRITICAL => 100 | HIGH => 75 | MEDIUM => 50 | LOW => 25 | INFO => 0
  end.

Definition TRAFFIC_POTENTIAL_BY_SEVERITY (s : Severity) : Q :=
  match s with
  | CRITICAL => 80 | HIGH => 60 | MEDIUM => 35 | LOW => 15 | INFO => 0
  end.

Definition GENERIC_STEPS : list string :=
  ["Review the affected URLs listed in the audit report";
   "Implement the recommended fix on the highest-traffic pages first";
   "Validate the fix using Google Search Console or re-crawl";
   "Monitor rankings for affected pages over the next 4-8 weeks"].

(** [IMPLEMENTATION_STEPS.get(rule_id, generic)] *)
Definition implementation_steps_for (rid : string) : list string :=
  if String.eqb rid "onpage-missing-title" then
    ["Identify all pages without title tags using the affected URLs list";
     "Research target keywords for each page category";
     "Write unique titles following the formula: Primary Keyword | Secondary Keyword | Brand";
     "Keep titles between 30-60 characters";
     "Deploy via CMS or template modification";
     "Verify with a re-crawl within 48 hours"]
  else if String.eqb rid "onpage-missing-meta-description" then
    ["Export the list of affected pages from the audit report";
     "Write compelling meta descriptions that include the primary keyword";
     "Target 70-160 characters with a clear value proposition";
     "Include a soft call-to-action where appropriate";
     "Update via CMS or developer template"]
  else if String.eqb rid "tech-http-pages" then
    ["Purchase and install an SSL certificate (Let's Encrypt for free, or premium CA)";
     "Configure web server to redirect HTTP → HTTPS (301)";
     "Update internal links to use HTTPS";
     "Update canonical tags to HTTPS versions";
     "Verify in Google Search Console that HTTPS version is preferred";
     "Monitor for mixed content warnings after switch"]
  else if String.eqb rid "crawl-4xx-pages" then
    ["Export all 4xx URLs from the audit report";
     "For 404s with inbound links: implement 301 redirects to the most relevant page";
     "For 404s with no external links: update or remove internal links pointing to them";
     "Set up monitoring to catch future 404s early";
     "Submit a recrawl request via Google Search Console after fixes"]
  else if String.eqb rid "crawl-duplicate-content" then
    ["Identify which version of the duplicate should be canonical";
     "Add rel=canonical tags pointing to the preferred URL";
     "Alternatively, implement 301 redirects from duplicate to canonical";
     "Consolidate PageRank by removing internal links to non-canonical versions";
     "For e-commerce sites, review faceted navigation as a common cause"]
  else if String.eqb rid "onpage-missing-h1" then
    ["Audit each affected page for its primary content theme";
     "Write a clear H1 that reflects the page's primary keyword focus";
     "Ensure the H1 is different from the page title (complementary, not identical)";
     "Add via CMS or template change"]
  else if String.eqb rid "onpage-thin-content" then
    ["Prioritize high-traffic and high-value pages first";
     "Research what users are looking for on each page (search intent)";
     "Expand content by adding FAQs, examples, tables, or detailed explanations";
     "Target at minimum 500-1000 words for competitive keywords";
     "Add relevant internal links to related content";
     "Monitor rankings after content updates"]
  else GENERIC_STEPS.

(** [calculate_priority_score] *)
Definition calculate_priority_score (issue : Issue) : Q :=
  let impact := impact_score issue in
  let traffic_potential := TRAFFIC_POTENTIAL_BY_SEVERITY (severity issue) in
  let effort_ease := (10 - effort_score issue) * 10 in
  let severity_score := SEVERITY_WEIGHTS (severity issue) in
  Num.round2 (impact * (40 # 100) + traffic_potential * (25 # 100)
              + effort_ease * (20 # 100) + severity_score * (15 # 100)).

Definition effort_label (score : Q) : string :=
  if Qle_bool score 3 then "low"
  else if Qle_bool score 7 then "medium"
  else "high".

Definition impact_label (score : Q) : string :=
  if Num.Qge_bool score 70 then "high"
  else if Num.Qge_bool score 40 then "medium"
  else "low".

(** [list.sort(key=lambda x: x[1], reverse=True)]: a stable sort by
    descending key, so entries with equal keys keep their order. *)
Fixpoint insert_desc {A} (x : A * Q) (l : list (A * Q)) : list (A * Q) :=
  match l with
  | [] => [x]
  | y :: r =>
      if Qle_bool (snd y) (snd x) then x :: y :: r
      else y :: insert_desc x r
  end.

Fixpoint sort_desc {A} (l : list (A * Q)) : list (A * Q) :=
  match l with
  | [] => []
  | x :: r => insert_desc x (sort_desc r)
  end.

(** [scored_issues] after the sort. *)
Definition scored_issues (all_issues : list Issue) : list (Issue * Q) :=
  sort_desc (map (fun i => (i, calculate_priority_score i)) all_issues).

(** The body of the loop over [enumerate(scored_issues[:50], start=1)]. *)
Definition recommend (monthly_traffic : Q) (rank : Z) (issue : Issue)
  : Recommendation :=
  let traffic_gain_pct := TRAFFIC_POTENTIAL_BY_SEVERITY (severity issue) / 100 in
  let estimated_traffic := monthly_traffic * traffic_gain_pct * (impact_score issue / 100) in
  let estimated_revenue := estimated_traffic * (2 # 100) * 100 in
  {| issue_id := rule_id issue;
     priority_rank := rank;
     rec_title := title issue;
     rec_description :=
       if UrlParse.nonempty (recommendation issue) then recommendation issue
       else description issue;
     effort := effort_label (effort_score issue);
     impact := impact_label (impact_score issue);
     estimated_traffic_gain := Num.round0 estimated_traffic;
     estimated_revenue_impact := Num.round2 estimated_revenue;
     implementation_steps := implementation_steps_for (rule_id issue) |}.

Fixpoint enumerate_from {A} (start : Z) (l : list A) : list (Z * A) :=
  match l with
  | [] => []
  | x :: r => (start, x) :: enumerate_from (start + 1)%Z r
  end.

Definition build_recommendations (monthly_traffic : Q) (all_issues : list Issue)
  : list Recommendation :=
  map (fun '(rank, (issue, _)) => recommend monthly_traffic rank issue)
      (enumerate_from 1 (firstn 50 (scored_issues all_issues))).

(** [PrioritizationEngine.run], from the engine results and the monthly
    traffic found in [site_data.settings]. *)
Definition run (audit : string) (engine_results : list AuditResult)
    (monthly_traffic : Q) (n_site_pages : Z) : AuditResult :=
  let all_issues := flat_map issues engine_results in
  match all_issues with
  | [] =>
      {| engine_name := "prioritization"; audit_id := audit; status := SUCCESS;
         result_category := TECHNICAL; score := 100; grade := "A";
         issues := []; recommendations := []; pages_analyzed := 0 |}
  | _ =>
      {| engine_name := "prioritization"; audit_id := audit; status := SUCCESS;
         result_category := TECHNICAL; score := 100; grade := "N/A";
         issues := all_issues;
         recommendations := build_recommendations monthly_traffic all_issues;
         pages_analyzed := n_site_pages |}
  end.

End Prioritization.

(* ===================================================================== *)
(** ** app/core/rule_engine.py: rule ids and the registry                 *)
(* ===================================================================== *)

Module Registry.
Import Py Base RuleEngine.

#[global] Instance IssueCategory_eq_dec : EqDecision IssueCategory.
Proof. solve_decision. Defined.

(** The class [[a-z0-9_-]] of the rule-id pattern. *)
Definition id_char (c : ascii) : bool :=
  PyStr.is_lower c || PyStr.is_digit c || PyStr.ascii_in c "_-".

Definition line_feed : string := String "010" "".

(** [re.match(r"^[a-z][a-z0-9_-]{2,63}$", v)]: a lowercase letter, then
    2 to 63 characters of the class, then the end of the string.  The
    characters of the class form a run that ends at the first character
    outside it, and [$] matches at the end of the string and also just
    before a line feed that ends it. *)
Definition validate_id (v : string) : bool :=
  match v with
  | EmptyString => false
  | String c0 r =>
      let '(body, rest) := PyStr.break (fun c => negb (id_char c)) r in
      PyStr.is_lower c0
      && (2 <=? String.length body)%nat && (String.length body <=? 63)%nat
      && (String.eqb rest "" || String.eqb rest line_feed)
  end.

(** [Rule.model_validate] on data that has the fields of a rule: the id
    pattern and the bounds of [impact_score] and [effort_score]; [None]
    is the validation error. *)
Definition model_validate (raw : Rule) : option Rule :=
  if validate_id (id raw)
     && Qle_bool 0 (rule_impact_score raw) && Qle_bool (rule_impact_score raw) 100
     && Qle_bool 1 (rule_effort_score raw) && Qle_bool (rule_effort_score raw) 10
  then Some raw
  else None.

(** [d[k] = v] on an insertion-ordered dictionary: a key already there
    keeps its place. *)
Fixpoint dict_set {A} (d : list (string * A)) (k : string) (v : A)
  : list (string * A) :=
  match d with
  | [] => [(k, v)]
  | (k', v') :: rest =>
      if String.eqb k' k then (k', v) :: rest
      else (k', v') :: dict_set rest k v
  end.

(** A rule file as [load] meets it: it cannot be opened or is not JSON,
    or it holds a list of definitions (a single object counts as a list
    of one), each with the fields of a rule or not. *)
Inductive rule_file : Type :=
| Unreadable
| Definitions (rules_data : list (option Rule)).

Record RuleRegistry : Type := mkRegistry {
  _rules : list (string * Rule);
  _loaded : bool;
}.

(** [RuleRegistry(rules_dir)] *)
Definition new_registry : RuleRegistry := {| _rules := []; _loaded := false |}.

(** The loop over [rules_data].  It sits inside the [try] of its file:
    the first definition that does not validate ends it, the rules
    registered before stay. *)
Fixpoint load_definitions (rules : list (string * Rule)) (count : nat)
    (rules_data : list (option Rule)) : list (string * Rule) * nat :=
  match rules_data with
  | [] => (rules, count)
  | None :: _ => (rules, count)
  | Some raw :: rest =>
      match model_validate raw with
      | None => (rules, count)
      | Some rule =>
          if enabled rule
          then load_definitions (dict_set rules (id rule) rule) (S count) rest
          else load_definitions rules count rest
      end
  end.

Definition load_file (acc : list (string * Rule) * nat) (f : rule_file)
  : list (string * Rule) * nat :=
  match f with
  | Unreadable => acc
  | Definitions rules_data => load_definitions (fst acc) (snd acc) rules_data
  end.

(** [RuleRegistry.load] over the files of the rules directory, in the
    order the glob yields them; the number is the total it logs. *)
Definition load (reg : RuleRegistry) (files : list rule_file)
  : RuleRegistry * nat :=
  let '(rules, count) := fold_left load_file files (_rules reg, 0%nat) in
  ({| _rules := rules; _loaded := true |}, count).

Definition get_by_category (reg : RuleRegistry) (c : IssueCategory) : list Rule :=
  List.filter (fun r => bool_decide (rule_category r = c)) (map snd (_rules reg)).

Definition get_by_id (reg : RuleRegistry) (rule_id : string) : option Rule :=
  dict_get (_rules reg) rule_id.

Definition get_all (reg : RuleRegistry) : list Rule := map snd (_rules reg).

End Registry.

(* ===================================================================== *)
(** ** app/engines/crawler/engine.py: the rate limiter                    *)
(* ===================================================================== *)

Module Limiter.
#[local] Open Scope Q_scope.

(** The token bucket.  Times are readings of [time.time()]. *)
Record RateLimiter : Type := mkLimiter {
  rate : Q;
  max_tokens : Q;
  tokens : Q;
  last_refill : Q;
}.

(** [RateLimiter(rate, max_tokens)] created when the clock reads [now]. *)
Definition new_limiter (rate max_tokens now : Q) : RateLimiter :=
  {| rate := rate; max_tokens := max_tokens; tokens := max_tokens;
     last_refill := now |}.

(** How a call of [acquire] ends: it returns after sleeping for a time
    ([0] when it did not sleep), or the division by the rate raises. *)
Inductive outcome : Type :=
| Slept (wait_time : Q)
| ZeroDivision.

(** [acquire()] entered when the clock reads [now]: the bucket is
    refilled first, so it is refilled also when the division then
    raises. *)
Definition acquire (l : RateLimiter) (now : Q) : RateLimiter * outcome :=
  let elapsed := now - last_refill l in
  let refilled := Num.py_min (max_tokens l) (tokens l + elapsed * rate l) in
  if Num.Qlt_bool refilled 1 then
    if Qeq_bool (rate l) 0 then
      ({| rate := rate l; max_tokens := max_tokens l; tokens := refilled;
          last_refill := now |}, ZeroDivision)
    else
      ({| rate := rate l; max_tokens := max_tokens l; tokens := 0;
          last_refill := now |}, Slept ((1 - refilled) / rate l))
  else
    ({| rate := rate l; max_tokens := max_tokens l; tokens := refilled - 1;
        last_refill := now |}, Slept 0).

(** The limiter [CrawlerEngine.run] builds from the [rate_limit_rps]
    setting and the crawl delay of robots.txt; a delay of zero counts as
    none. *)
Definition crawl_limiter (rate_limit : Q) (crawl_delay : option Q) (now : Q)
  : RateLimiter :=
  let l := new_limiter rate_limit (Num.py_min (rate_limit * 3) 10) now in
  match crawl_delay with
  | Some d =>
      if Qeq_bool d 0 then l
      else {| rate := 1 / d; max_tokens := max_tokens l; tokens := tokens l;
              last_refill := last_refill l |}
  | None => l
  end.

(** Calls of [acquire] one after the other, at the given clock readings:
    the limiter after the last one and the outcomes, up to the first
    one that raises. *)
Fixpoint acquire_all (l : RateLimiter) (times : list Q)
  : RateLimiter * list outcome :=
  match times with
  | [] => (l, [])
  | now :: later =>
      match acquire l now with
      | (l', ZeroDivision) => (l', [ZeroDivision])
      | (l', Slept w) =>
          let '(l'', outcomes) := acquire_all l' later in
          (l'', Slept w :: outcomes)
      end
  end.

End Limiter.

(* ===================================================================== *)
(** ** app/engines/base.py: the engine wrapper                            *)
(* ===================================================================== *)

Module Engine.
Import Py Base.
#[local] Open Scope Q_scope.

(** [AuditEngine.execute] around the outcome of [run]: an exception
    becomes a failed result.  (The timing it adds is not part of the
    modelled result.) *)
Definition execute (ENGINE_NAME : string) (CATEGORY : IssueCategory)
    (audit : string) (ran : res AuditResult) : AuditResult :=
  match ran with
  | Ret result => result
  | Raise _ =>
      {| engine_name := ENGINE_NAME; audit_id := audit; status := FAILED;
         result_category := CATEGORY; score := 0; grade := "F";
         issues := []; recommendations := []; pages_analyzed := 0 |}
  end.

End Engine.

(* ===================================================================== *)
(** ** app/engines/technical/engine.py                                    *)
(* ===================================================================== *)

Module Technical.
Import Py Base.
#[local] Open Scope Q_scope.

(** [soup.find("link", rel=...)] finds an element, for the HTML text and
    the [rel] value: BeautifulSoup's. *)
Class LinkRel : Type := {
  has_link_rel : string -> string -> bool;
}.

(** The keyword [kw] (lowercase) at the start of [s], letters compared
    without case: the text after it. *)
Fixpoint after_keyword (kw s : string) : option string :=
  match kw, s with
  | EmptyString, _ => Some s
  | String a kw', String b s' =>
      if Ascii.eqb a (PyStr.lower_char b) then after_keyword kw' s' else None
  | String _ _, EmptyString => None
  end.

Definition is_quote (c : ascii) : bool := Ascii.eqb c "034" || Ascii.eqb c "039".

(** The pattern of [_find_mixed_content] under [re.IGNORECASE], matched
    at the start of [s]: one of the keywords src, href, action; any
    whitespace; an equals sign; any whitespace; a single or double quote;
    then http://. *)
Definition http_resource_at (s : string) : bool :=
  existsb
    (fun kw =>
       match after_keyword kw s with
       | Some r =>
           match PyStr.lstrip_while PyStr.is_space r with
           | String c r' =>
               Ascii.eqb c "=" &&
               match PyStr.lstrip_while PyStr.is_space r' with
               | String q r'' =>
                   is_quote q &&
                   match after_keyword "http://" r'' with
                   | Some _ => true
                   | None => false
                   end
               | EmptyString => false
               end
           | EmptyString => false
           end
       | None => false
       end)
    ["src"; "href"; "action"].

(** [http_resource_pattern.search(html)] *)
Fixpoint http_resource_search (html : string) : bool :=
  http_resource_at html ||
  match html with
  | EmptyString => false
  | String _ r => http_resource_search r
  end.

(** ["name" in {k.lower() for k in p.headers}] *)
Definition has_header (p : PageData) (name : string) : bool :=
  existsb (fun kv => String.eqb (PyStr.lower (fst kv)) name)
          (map_to_list (headers p)).

Definition meta_or (p : PageData) (k d : string) : string :=
  default d (meta p !! k).

(** An issue of the technical engine over the pages [found]. *)
Definition tech_issue (urls : list string) (count : nat)
    (rid ttl descr : string) (sev : Severity) (impact : Q) (recm doc : string)
  : Issue :=
  {| rule_id := rid; title := ttl; description := descr;
     severity := sev; category := TECHNICAL;
     affected_urls := urls; affected_count := Z.of_nat count;
     impact_score := impact; effort_score := 5;
     recommendation := recm; documentation_url := doc |}.

Definition n_of {A} (l : list A) : string := CrawlReport.str_of_nat (length l).

(** [_find_mixed_content] *)
Definition _find_mixed_content (pages : list PageData) : list PageData :=
  List.filter (fun p => PyStr.startswith (url p) "https://"
                        && (status_code p =? 200)%Z
                        && http_resource_search (html p))
              pages.

Section Engine.
Context `{Lib.PyBuiltins} `{Lib.IpAddress} `{LinkRel}.

(** The test of [_find_redirect_chains] on one page; [int] of a text
    that is no number raises. *)
Definition has_redirect_chain (p : PageData) : res bool :=
  let hops := meta_or p "redirect_hops" "0" in
  if UrlParse.nonempty hops then
    match Lib.int_of_str hops with
    | Some n => Ret (1 <? n)%Z
    | None => Raise ValueError
    end
  else Ret false.

(** The pages of [l] with their flags, those flagged kept. *)
Definition select (flags : list bool) (l : list PageData) : list PageData :=
  map snd (List.filter fst (combine flags l)).

(** [_find_redirect_chains] *)
Definition _find_redirect_chains (pages : list PageData) : res (list string) :=
  bind (mapM has_redirect_chain pages) (fun flags =>
    Ret (map url (select flags pages))).

(** [urlparse(p.url).netloc.startswith("www.")] *)
Definition is_www (p : PageData) : res bool :=
  bind (UrlParse.urlparse (url p) "") (fun parsed =>
    Ret (PyStr.startswith (UrlParse.netloc parsed) "www.")).

(** [_check_www_consistency] *)
Definition _check_www_consistency (pages : list PageData) : res (list Issue) :=
  bind (mapM is_www pages) (fun flags =>
    let www_urls := select flags pages in
    let nonwww_urls := select (map negb flags) pages in
    match www_urls, nonwww_urls with
    | _ :: _, _ :: _ =>
        Ret [tech_issue (map url (firstn 50 (www_urls ++ nonwww_urls)))
               (length www_urls + length nonwww_urls)
               "tech-www-consistency" "Inconsistent www/non-www URLs"
               "Both www and non-www versions of pages are accessible."
               MEDIUM 50
               "Choose one canonical version (www or non-www) and redirect the other."
               ""]
    | _, _ => Ret []
    end).

Definition looks_paginated (url_lower : string) : bool :=
  existsb (PyStr.contains url_lower) ["/page/"; "?page="; "&page="; "/p/"; "?p="].

(** [_check_pagination] *)
Definition _check_pagination (pages : list PageData) : list Issue :=
  let paginated_no_rel :=
    List.filter (fun p => (status_code p =? 200)%Z && UrlParse.nonempty (html p)
                          && looks_paginated (PyStr.lower (url p))
                          && negb (has_link_rel (html p) "next")
                          && negb (has_link_rel (html p) "prev"))
                pages in
  match paginated_no_rel with
  | [] => []
  | _ =>
      [tech_issue (map url (firstn 50 paginated_no_rel)) (length paginated_no_rel)
         "tech-missing-pagination-rel" "Paginated pages missing rel=next/prev"
         (n_of paginated_no_rel
          ++ " paginated pages lack proper rel=next/prev link elements.")%string
         LOW 25 "Add rel=next and rel=prev link tags to paginated series." ""]
  end.

(** [_check_security_headers] *)
Definition _check_security_headers (pages : list PageData) : list Issue :=
  let sample := firstn 10 (List.filter (fun p => (status_code p =? 200)%Z) pages) in
  match sample with
  | [] => []
  | _ =>
      let no_hsts :=
        List.filter (fun p => negb (has_header p "strict-transport-security")
                              && PyStr.startswith (url p) "https://")
                    sample in
      if Num.Qlt_bool (inject_Z (Z.of_nat (length sample)) * (1 # 2))
                      (inject_Z (Z.of_nat (length no_hsts)))
      then
        [tech_issue (map url no_hsts) (length no_hsts)
           "tech-missing-hsts"
           "HTTP Strict Transport Security (HSTS) not configured"
           "HTTPS pages are missing the Strict-Transport-Security header."
           LOW 20
           "Configure HSTS header: Strict-Transport-Security: max-age=31536000; includeSubDomains"
           ""]
      else []
  end.

(** An issue over the pages [found], scored by [calculate_impact_score],
    when there are any. *)
Definition scored (urls : list string) (count : nat) (total_pages : Z)
    (rid ttl descr : string) (sev : Severity) (rule_base : Q) (recm doc : string)
  : list Issue :=
  match count with
  | O => []
  | _ =>
      [tech_issue (firstn 50 urls) count rid ttl descr sev
         (RuleEngine.calculate_impact_score sev (Z.of_nat count) total_pages rule_base)
         recm doc]
  end.

(** [TechnicalSEOEngine.run] on the pages, the robots.txt text and the
    root URL of the site data. *)
Definition run (audit : string) (pages : list PageData) (robots_txt root_url : string)
  : res AuditResult :=
  let total_pages := Z.max 1 (Z.of_nat (length pages)) in
  let http_pages :=
    List.filter (fun p => PyStr.startswith (url p) "http://"
                          && (status_code p =? 200)%Z) pages in
  let mixed_content_pages := _find_mixed_content pages in
  bind (_find_redirect_chains pages) (fun redirect_chains =>
    let xrobots_noindex :=
      List.filter
        (fun p => has_header p "x-robots-tag"
                  && PyStr.contains
                       (PyStr.lower
                          (default (default "" (headers p !! "x-robots-tag"))
                                   (headers p !! "X-Robots-Tag")))
                       "noindex")
        pages in
    let meta_noindex :=
      List.filter
        (fun p => PyStr.contains (PyStr.lower (meta_or p "robots" "")) "noindex"
                  || PyStr.contains (PyStr.lower (meta_or p "googlebot" "")) "noindex")
        pages in
    bind (_check_www_consistency pages) (fun www_issue =>
      let issues :=
        scored (map url http_pages) (length http_pages) total_pages
          "tech-http-pages" "Pages served over HTTP (not HTTPS)"
          (n_of http_pages ++ " pages are accessible over insecure HTTP.")%string
          CRITICAL 90
          "Implement HTTPS sitewide and redirect all HTTP to HTTPS with 301."
          "https://developers.google.com/search/docs/crawling-indexing/http-https"
        ++ scored (map url mixed_content_pages) (length mixed_content_pages) total_pages
          "tech-mixed-content" "Mixed content (HTTP resources on HTTPS pages)"
          (n_of mixed_content_pages
           ++ " HTTPS pages load insecure HTTP resources.")%string
          HIGH 70 "Update all resource references to use HTTPS." ""
        ++ scored redirect_chains (length redirect_chains) total_pages
          "tech-redirect-chains" "Long redirect chains detected"
          (n_of redirect_chains
           ++ " URLs have redirect chains longer than 1 hop.")%string
          MEDIUM 55
          "Reduce redirect chains to a single hop. Update internal links to point directly to final URLs."
          ""
        ++ scored (map url xrobots_noindex) (length xrobots_noindex) total_pages
          "tech-xrobots-noindex" "Pages blocked via X-Robots-Tag: noindex"
          (n_of xrobots_noindex
           ++ " pages are excluded from indexing via HTTP header.")%string
          HIGH 75
          "Review X-Robots-Tag directives. Remove noindex from pages that should be indexed."
          ""
        ++ scored (map url meta_noindex) (length meta_noindex) total_pages
          "tech-meta-noindex" "Pages excluded from indexing via meta robots"
          (n_of meta_noindex ++ " pages have meta robots noindex directive.")%string
          HIGH 75
          "Review meta robots tags. Remove noindex from pages intended for indexation."
          ""
        ++ www_issue
        ++ _check_pagination pages
        ++ (if UrlParse.nonempty robots_txt then []
            else
              [tech_issue [root_url] 1
                 "tech-missing-robots-txt"
                 "robots.txt file is missing or inaccessible"
                 "No robots.txt was found at the root of the domain."
                 MEDIUM 45
                 "Create a robots.txt file at yourdomain.com/robots.txt." ""])
        ++ _check_security_headers pages in
      let score := RuleEngine.calculate_category_score issues 10 total_pages in
      Ret {| engine_name := "technical"; audit_id := audit; status := SUCCESS;
             result_category := TECHNICAL; score := score;
             grade := calculate_grade score; issues := issues;
             recommendations := []; pages_analyzed := total_pages |})).

End Engine.

End Technical.

(* ===================================================================== *)
(** ** app/workers/audit_tasks.py: what the analysis engines are given    *)
(* ===================================================================== *)

Module Tasks.
Import Py Base.

(** The fields of [SiteData] the engines read. *)
Record SiteData : Type := mkSiteData {
  domain : string;
  root_url : string;
  pages : list PageData;
  sitemap_urls : list string;
  robots_txt : string;
}.

(** [_build_site_data]: the site's domain and root URL, every other
    field at its default. *)
Definition _build_site_data (site_domain site_root_url : string) : SiteData :=
  {| domain := site_domain; root_url := site_root_url; pages := [];
     sitemap_urls := []; robots_txt := "" |}.

(** What [CrawlerEngine.run] writes into the site data: the sitemap
    URLs and the crawled pages. *)
Definition crawled (site_data : SiteData) (found : list string)
    (crawled_pages : list PageData) : SiteData :=
  {| domain := domain site_data; root_url := root_url site_data;
     pages := crawled_pages; sitemap_urls := found;
     robots_txt := robots_txt site_data |}.

(** A page as [_serialize_site_data] hands it on: its [html] emptied. *)
Definition without_html (p : PageData) : PageData :=
  {| url := url p; canonical_url := canonical_url p;
     status_code := status_code p; content_type := content_type p;
     html := ""; text_content := text_content p;
     headers := headers p; meta := meta p; links := links p;
     images := images p; structured_data := structured_data p;
     load_time_ms := load_time_ms p; page_size_bytes := page_size_bytes p;
     depth := depth p |}.

(** [_serialize_site_data]: the dump of the site data, the [html] of
    every page emptied.  Dumping checks nothing. *)
Definition _serialize_site_data (site_data : SiteData) : SiteData :=
  {| domain := domain site_data; root_url := root_url site_data;
     pages := map without_html (pages site_data);
     sitemap_urls := sitemap_urls site_data;
     robots_txt := robots_txt site_data |}.




Section Engines.
Context `{Lib.PyBuiltins} `{Lib.IpAddress} `{Lib.Html} `{Technical.LinkRel}.

(** What [run_engine_task] does with the site data it has rebuilt, for
    the two analysis engines: the engine is run through [execute]. *)
Definition run_onpage_task (audit : string) (site_data : SiteData) : AuditResult :=
  Engine.execute "onpage" ON_PAGE audit (OnPage.run audit (pages site_data)).

Definition run_technical_task (audit : string) (site_data : SiteData) : AuditResult :=
  Engine.execute "technical" TECHNICAL audit
    (Technical.run audit (pages site_data) (robots_txt site_data)
                   (root_url site_data)).


(** The dump the analysis tasks are given in an audit: [run_crawl_task]
    builds the site data, has the crawler fill it and serializes it;
    [run_analysis_engines] passes that on.  Rebuilt, it is the same
    data. *)
Definition analysis_input (site_domain site_root_url : string)
    (found : list string) (crawled_pages : list PageData) : SiteData :=
  _serialize_site_data
    (crawled (_build_site_data site_domain site_root_url) found crawled_pages).

End Engines.

End Tasks.

(* ===================================================================== *)
(** ** app/engines/scoring/engine.py                                      *)
(* ===================================================================== *)

Module Scoring.
Import Base.
#[local] Open Scope Q_scope.

(** The scoring weights of the settings ([app/core/config.py]). *)
Record Weights : Type := mkWeights {
  WEIGHT_CRAWLABILITY : Q;
  WEIGHT_TECHNICAL : Q;
  WEIGHT_ON_PAGE : Q;
  WEIGHT_CONTENT : Q;
  WEIGHT_PERFORMANCE : Q;
  WEIGHT_INTERNAL_LINKS : Q;
  WEIGHT_SCHEMA : Q;
  WEIGHT_AUTHORITY : Q;
}.

(** The defaults of [Settings]. *)
Definition default_weights : Weights :=
  {| WEIGHT_CRAWLABILITY := 15 # 100; WEIGHT_TECHNICAL := 20 # 100;
     WEIGHT_ON_PAGE := 15 # 100; WEIGHT_CONTENT := 15 # 100;
     WEIGHT_PERFORMANCE := 15 # 100; WEIGHT_INTERNAL_LINKS := 10 # 100;
     WEIGHT_SCHEMA := 5 # 100; WEIGHT_AUTHORITY := 5 # 100 |}.

(** [CATEGORY_WEIGHTS.get(category, 0.0)]: three categories have no
    entry. *)
Definition CATEGORY_WEIGHTS (w : Weights) (c : IssueCategory) : Q :=
  match c with
  | TECHNICAL => WEIGHT_TECHNICAL w
  | ON_PAGE => WEIGHT_ON_PAGE w
  | CONTENT => WEIGHT_CONTENT w
  | PERFORMANCE => WEIGHT_PERFORMANCE w
  | CRAWLABILITY => WEIGHT_CRAWLABILITY w
  | INTERNAL_LINKS => WEIGHT_INTERNAL_LINKS w
  | SCHEMA => WEIGHT_SCHEMA w
  | AUTHORITY => WEIGHT_AUTHORITY w
  | COMPETITOR | INTERNATIONAL | LOCAL => 0
  end.

Definition traffic_lift_rates (s : Severity) : Q :=
  match s with
  | CRITICAL => 15 # 100 | HIGH => 8 # 100 | MEDIUM => 3 # 100
  | LOW => 1 # 100 | INFO => 0
  end.

(** [estimate_revenue_impact] *)
Definition estimate_revenue_impact (issues : list Issue)
    (monthly_traffic avg_conversion_rate avg_order_value : Q) : Q :=
  let total_lift :=
    fold_left
      (fun total_lift issue =>
         let coverage :=
           Num.py_min 1 (inject_Z (affected_count issue) / inject_Z (Z.max 1 1000)) in
         let base_lift := traffic_lift_rates (severity issue) in
         let lift_traffic :=
           monthly_traffic * base_lift * coverage * (impact_score issue / 100) in
         let revenue := lift_traffic * avg_conversion_rate * avg_order_value in
         total_lift + revenue)
      issues 0 in
  Num.round2 total_lift.

(** [len([r for r in engine_results if r.status == EngineStatus.SUCCESS])] *)
Definition successful (engine_results : list AuditResult) : Z :=
  Z.of_nat (length (List.filter (fun r => bool_decide (status r = SUCCESS))
                                engine_results)).

(** [calculate_confidence_score] *)
Definition calculate_confidence_score (engine_results : list AuditResult)
    (pages_crawled expected_engines : Z) : Q :=
  let engine_coverage :=
    inject_Z (successful engine_results) / inject_Z (Z.max 1 expected_engines) in
  let page_coverage := Num.py_min 1 (inject_Z pages_crawled / 1000) in
  let confidence := (engine_coverage * (6 # 10) + page_coverage * (4 # 10)) * 100 in
  Num.round2 confidence.

Record CategoryScore : Type := mkCategoryScore {
  cs_category : IssueCategory;
  cs_score : Q;
  cs_grade : string;
  issues_count : Z;
  critical_count : Z;
  high_count : Z;
  weight : Q;
}.

(** [len([i for i in issues if i.severity == s])] *)
Definition count_severity (s : Severity) (l : list Issue) : Z :=
  Z.of_nat (length (List.filter (fun i => bool_decide (severity i = s)) l)).

(** What the loop over the engine results accumulates. *)
Record Tally : Type := mkTally {
  category_scores : list CategoryScore;
  all_issues : list Issue;
  weighted_sum : Q;
  total_weight : Q;
}.

(** One turn of that loop: a failed result and a category of weight
    zero are passed over. *)
Definition tally_result (w : Weights) (t : Tally) (result : AuditResult) : Tally :=
  if bool_decide (status result = FAILED) then t
  else
    let weight := CATEGORY_WEIGHTS w (result_category result) in
    if Qeq_bool weight 0 then t
    else
      {| category_scores :=
           category_scores t
           ++ [ {| cs_category := result_category result;
                   cs_score := score result;
                   cs_grade := grade result;
                   issues_count := Z.of_nat (length (issues result));
                   critical_count := count_severity CRITICAL (issues result);
                   high_count := count_severity HIGH (issues result);
                   weight := weight |} ];
         all_issues := all_issues t ++ issues result;
         weighted_sum := weighted_sum t + score result * weight;
         total_weight := total_weight t + weight |}.

Definition tally (w : Weights) (engine_results : list AuditResult) : Tally :=
  fold_left (tally_result w) engine_results
            {| category_scores := []; all_issues := [];
               weighted_sum := 0; total_weight := 0 |}.

(** The metadata of the scoring result. *)
Record ScoringMetadata : Type := mkScoringMetadata {
  overall_score : Q;
  overall_grade : string;
  confidence_score : Q;
  estimated_monthly_revenue_impact : Q;
  md_category_scores : list CategoryScore;
  summary_total : Z;
  summary_critical : Z;
  summary_high : Z;
  summary_medium : Z;
  summary_low : Z;
  engines_run : Z;
  engines_successful : Z;
}.

(** [ScoringEngine.run], from the engine results, the monthly traffic
    and the number of pages of the site data. *)
Definition run (w : Weights) (audit : string) (engine_results : list AuditResult)
    (monthly_traffic : Q) (n_site_pages : Z) : AuditResult * ScoringMetadata :=
  let t := tally w engine_results in
  let overall :=
    if Num.Qlt_bool 0 (total_weight t) then weighted_sum t / total_weight t else 0 in
  let overall := Num.round2 overall in
  let confidence := calculate_confidence_score engine_results n_site_pages 8 in
  let revenue_impact :=
    estimate_revenue_impact (all_issues t) monthly_traffic (2 # 100) 100 in
  ({| engine_name := "scoring"; audit_id := audit; status := SUCCESS;
      result_category := TECHNICAL; score := overall;
      grade := calculate_grade overall; issues := all_issues t;
      recommendations := []; pages_analyzed := n_site_pages |},
   {| overall_score := overall;
      overall_grade := calculate_grade overall;
      confidence_score := confidence;
      estimated_monthly_revenue_impact := revenue_impact;
      md_category_scores := category_scores t;
      summary_total := Z.of_nat (length (all_issues t));
      summary_critical := count_severity CRITICAL (all_issues t);
      summary_high := count_severity HIGH (all_issues t);
      summary_medium := count_severity MEDIUM (all_issues t);
      summary_low := count_severity LOW (all_issues t);
      engines_run := Z.of_nat (length engine_results);
      engines_successful := successful engine_results |}).

End Scoring.

(* ===================================================================== *)
(** ** Library instances for running the model on examples               *)
(* ===================================================================== *)

Module Demo.

(** A stand-in for [re]: a pattern with more [(] than [)] does not
    compile, as in Python; any other pattern is searched as a literal. *)
Fixpoint paren_depth (s : string) (open : nat) : option nat :=
  match s with
  | EmptyString => Some open
  | String c r =>
      if Ascii.eqb c "(" then paren_depth r (S open)
      else if Ascii.eqb c ")" then
        match open with
        | O => None
        | S n => paren_depth r n
        end
      else paren_depth r open
  end.

#[export] Instance builtins : Lib.PyBuiltins := {|
  Lib.re_search pattern text :=
    match paren_depth pattern 0 with
    | Some O => Some (PyStr.contains text pattern)
    | _ => None
    end;
  Lib.repr_value _ := "";
  Lib.int_of_str s :=
    if PyStr.isdigit s then Some (PyStr.digits_to_Z s) else None;
  Lib.float_of_str s :=
    if PyStr.isdigit s then Some (inject_Z (PyStr.digits_to_Z s)) else None;
|}.

(** No bracketed host is accepted. *)
#[export] Instance ip : Lib.IpAddress := {| Lib.bracketed_netloc_ok _ := false |}.

(** The text between each [<loc>] and the next [<]. *)
Fixpoint locs_aux (fuel : nat) (s : string) : list string :=
  match fuel with
  | O => []
  | S n =>
      match s with
      | EmptyString => []
      | String _ r =>
          if PyStr.startswith s "<loc>"
          then PyStr.strip (fst (PyStr.break (Ascii.eqb "<") (String.substring 5 (String.length s) s)))
               :: locs_aux n r
          else locs_aux n r
      end
  end.

#[export] Instance html : Lib.Html := {|
  Lib.count_h1 text := if PyStr.contains text "<h1" then 1%nat else 0%nat;
  Lib.count_img_without_alt _ := 0%nat;
  Lib.find_all_loc text := locs_aux (String.length text) text;
  Lib.md5_hex text := text;
|}.

#[export] Instance robots : RobotParser.RobotsText := {|
  RobotParser.parse_entries _ := ([], None);
  RobotParser.request_path url := url;
  RobotParser.time_now := 1700000000%Q;
  RobotParser.time_now_nonzero := eq_refl;
|}.

(** A page dump without a title, and conditions on the missing field. *)
Definition page_without_title : list (string * Py.value) :=
  [("url", Py.VStr "https://example.com/");
   ("status_code", Py.VInt 200);
   ("meta", Py.VDict [("description", Py.VStr "A page")])].

Definition title_condition (op : string) (v : Py.value) : RuleEngine.RuleCondition :=
  {| RuleEngine.field := "meta.title"; RuleEngine.operator := op;
     RuleEngine.value := v; RuleEngine.transform := None |}.

(** A condition whose pattern has an unclosed group. *)
Definition url_matches_bad_pattern : RuleEngine.RuleCondition :=
  {| RuleEngine.field := "url"; RuleEngine.operator := "matches";
     RuleEngine.value := Py.VStr "("; RuleEngine.transform := None |}.

Definition bad_pattern_rule : RuleEngine.Rule :=
  {| RuleEngine.id := "bad-pattern"; RuleEngine.name := "Bad pattern";
     RuleEngine.rule_category := Base.TECHNICAL; RuleEngine.rule_severity := Base.LOW;
     RuleEngine.conditions := [url_matches_bad_pattern];
     RuleEngine.condition_logic := "AND";
     RuleEngine.rule_impact_score := 50%Q; RuleEngine.rule_effort_score := 5%Q;
     RuleEngine.enabled := true |}.

(** A site whose sitemaps are nested five deep: four index documents,
    each naming the next, and a URL set at the end. *)
Definition sitemap_index_for (next : string) : string :=
  ("<sitemapindex><sitemap><loc>" ++ next ++ "</loc></sitemap></sitemapindex>")%string.

Definition nested_sitemaps : list string :=
  ["https://example.com/sitemap.xml";
   "https://example.com/sitemap-1.xml";
   "https://example.com/sitemap-2.xml";
   "https://example.com/sitemap-3.xml";
   "https://example.com/sitemap-4.xml"].

Definition nested_site (url : string) : Crawler.http_result :=
  if String.eqb url "https://example.com/sitemap.xml" then
    Crawler.HttpResponse 200 (sitemap_index_for "https://example.com/sitemap-1.xml")
  else if String.eqb url "https://example.com/sitemap-1.xml" then
    Crawler.HttpResponse 200 (sitemap_index_for "https://example.com/sitemap-2.xml")
  else if String.eqb url "https://example.com/sitemap-2.xml" then
    Crawler.HttpResponse 200 (sitemap_index_for "https://example.com/sitemap-3.xml")
  else if String.eqb url "https://example.com/sitemap-3.xml" then
    Crawler.HttpResponse 200 (sitemap_index_for "https://example.com/sitemap-4.xml")
  else if String.eqb url "https://example.com/sitemap-4.xml" then
    Crawler.HttpResponse 200
      "<urlset><url><loc>https://example.com/deep-page</loc></url></urlset>"
  else Crawler.HttpResponse 404 "".

(** A sitemap index that names itself. *)
Definition cyclic_site (url : string) : Crawler.http_result :=
  if String.eqb url "https://example.com/sitemap.xml" then
    Crawler.HttpResponse 200 (sitemap_index_for "https://example.com/sitemap.xml")
  else Crawler.HttpResponse 404 "".

(** Two issues of equal severity, impact and effort, listed against the
    alphabetical order of their rule ids. *)
Definition thin_content_issue : Base.Issue :=
  {| Base.rule_id := "onpage-thin-content"; Base.title := "Pages with thin content";
     Base.description := "1 pages have fewer than 300 words.";
     Base.severity := Base.MEDIUM; Base.category := Base.ON_PAGE;
     Base.affected_urls := ["https://example.com/"]; Base.affected_count := 1;
     Base.impact_score := (55 # 2)%Q; Base.effort_score := 5%Q;
     Base.recommendation := "Expand content to at least 300 words. Focus on depth and value.";
     Base.documentation_url := "" |}.

Definition short_title_issue : Base.Issue :=
  {| Base.rule_id := "onpage-short-title"; Base.title := "Title tags too short";
     Base.description := "1 pages have title tags under 30 characters.";
     Base.severity := Base.MEDIUM; Base.category := Base.ON_PAGE;
     Base.affected_urls := ["https://example.com/"]; Base.affected_count := 1;
     Base.impact_score := (55 # 2)%Q; Base.effort_score := 5%Q;
     Base.recommendation := "Expand title tags to 30-60 characters.";
     Base.documentation_url := "" |}.

Definition tied_result : Base.AuditResult :=
  {| Base.engine_name := "onpage"; Base.audit_id := "audit-1";
     Base.status := Base.SUCCESS; Base.result_category := Base.ON_PAGE;
     Base.score := 90%Q; Base.grade := "A";
     Base.issues := [thin_content_issue; short_title_issue];
     Base.recommendations := []; Base.pages_analyzed := 1 |}.

(** Pages for the on-page engine. *)
Definition html_page (u title : string) : Base.PageData :=
  {| Base.url := u; Base.canonical_url := Some u; Base.status_code := 200;
     Base.content_type := "text/html; charset=utf-8";
     Base.html := "<html><body><h1>Heading</h1><p>Text</p></body></html>";
     Base.text_content := "Heading Text";
     Base.headers := ∅;
     Base.meta := <["title" := title]> (<["description" := "About this page"]> ∅);
     Base.links := []; Base.images := []; Base.structured_data := [];
     Base.load_time_ms := 100%Q; Base.page_size_bytes := 54; Base.depth := 0 |}.

(** Three pages, one of them without a title. *)
Definition site_one_untitled : list Base.PageData :=
  [html_page "https://example.com/" "";
   html_page "https://example.com/a" "A title of a reasonable length, page A";
   html_page "https://example.com/b" "A title of a reasonable length, page B"].

(** Two pages, one of them with a short title. *)
Definition site_one_short_title : list Base.PageData :=
  [html_page "https://example.com/" "Home";
   html_page "https://example.com/a" "A title of a reasonable length, page A"].

(** One page with an uppercase path, alone and next to a lowercase one. *)
Definition site_upper_alone : list Base.PageData :=
  [html_page "https://example.com/About" "A title of a reasonable length, about"].

Definition site_upper_and_lower : list Base.PageData :=
  [html_page "https://example.com/About" "A title of a reasonable length, about";
   html_page "https://example.com/b" "A title of a reasonable length, page B"].

(** Rule id, affected count and impact score of the issues of a run that
    carry the rule id [rid]. *)
Definition impacts_of (rid : string) (r : Py.res Base.AuditResult)
  : list (string * Z * Q) :=
  match r with
  | Py.Ret a =>
      map (fun i => (Base.rule_id i, Base.affected_count i, Qred (Base.impact_score i)))
          (List.filter (fun i => String.eqb (Base.rule_id i) rid) (Base.issues a))
  | Py.Raise _ => []
  end.

(** The on-page run over the three pages, and its first issue. *)
Definition untitled_run : Base.AuditResult :=
  match OnPage.run "audit-1" site_one_untitled with
  | Py.Ret r => r
  | Py.Raise _ => CrawlReport.crawl_result "audit-1" []
  end.

Definition untitled_issue : Base.Issue :=
  hd thin_content_issue (Base.issues untitled_run).

(** The run over the two pages, and its short-title issue. *)
Definition short_title_run : Base.AuditResult :=
  match OnPage.run "audit-1" site_one_short_title with
  | Py.Ret r => r
  | Py.Raise _ => CrawlReport.crawl_result "audit-1" []
  end.

Definition short_title_found : Base.Issue :=
  hd thin_content_issue
     (List.filter (fun i => String.eqb (Base.rule_id i) "onpage-short-title")
                  (Base.issues short_title_run)).

(** A crawl configuration with the concurrency set to zero, and a small
    sound one; a site of three linked pages. *)
Definition zero_concurrency : Crawler.Config :=
  {| Crawler.max_pages := 10; Crawler.max_depth := 2;
     Crawler.concurrency := 0; Crawler.js_render := false |}.

Definition small_crawl : Crawler.Config :=
  {| Crawler.max_pages := 2; Crawler.max_depth := 2;
     Crawler.concurrency := 2; Crawler.js_render := false |}.

Definition linked_page (u body : string) (out : list string) : Base.PageData :=
  {| Base.url := u; Base.canonical_url := None; Base.status_code := 200;
     Base.content_type := "text/html"; Base.html := body; Base.text_content := body;
     Base.headers := ∅; Base.meta := ∅; Base.links := out; Base.images := [];
     Base.structured_data := []; Base.load_time_ms := 50%Q;
     Base.page_size_bytes := 10; Base.depth := 0 |}.

Definition three_pages (u : string) (render : bool) : Base.PageData :=
  if String.eqb u "https://example.com/" then
    linked_page u "<h1>home</h1>" ["/a"; "/b"]
  else if String.eqb u "https://example.com/a" then
    linked_page u "<h1>a</h1>" ["/"; "/b"]
  else if String.eqb u "https://example.com/b" then
    linked_page u "<h1>b</h1>" ["/a"]
  else Base.default_page u 404.

(** A link with a trailing slash, uppercase host, tracking parameters and
    a fragment, and the page it was found on. *)
Definition team_link : string :=
  " /About/Team/?utm_source=news&id=7&tag=a b#staff ".

Definition found_on : string := "https://Example.COM/index.html".

(** A stand-in for BeautifulSoup's search for a [link] element by its
    [rel]: the text [rel=] followed by the value. *)
#[export] Instance link_rel : Technical.LinkRel := {|
  Technical.has_link_rel text rel := PyStr.contains text ("rel=" ++ rel)%string;
|}.

(** A page on which the crawl finds nothing to report. *)
Definition clean_page : Base.PageData :=
  {| Base.url := "https://example.com/";
     Base.canonical_url := Some "https://example.com/";
     Base.status_code := 200; Base.content_type := "text/html";
     Base.html := "<html><h1>Home</h1></html>"; Base.text_content := "Home";
     Base.headers := ∅; Base.meta := ∅; Base.links := []; Base.images := [];
     Base.structured_data := []; Base.load_time_ms := 120%Q;
     Base.page_size_bytes := 26; Base.depth := 0 |}.

End Demo.

(* ===================================================================== *)
(** * Properties                                                          *)
(* ===================================================================== *)

(** ** Crawl score of an empty crawl *)

(** C9: with no page collected [_calculate_crawl_score] is exactly [0.0],
    whatever the issues, and the crawler's result then carries score 0 and
    grade F. *)
Theorem C9_empty_crawl_scores_zero :
  forall (audit : string) (issues : list Base.Issue),
    CrawlReport._calculate_crawl_score [] issues = 0%Q
    /\ Base.score (CrawlReport.crawl_result audit []) = 0%Q
    /\ Base.grade (CrawlReport.crawl_result audit []) = "F".
Proof.
  intros audit issues. repeat split; reflexivity.
Qed.

(** ** Prioritization with nothing to prioritise *)

(** C10: when the engine results carry no issue at all, the prioritizer
    answers success, score 100, grade A, no issues, no recommendations. *)
Theorem C10_no_issues_result :
  forall (audit : string) (engine_results : list Base.AuditResult)
         (monthly_traffic : Q) (n_site_pages : Z),
    flat_map Base.issues engine_results = [] ->
    let r := Prioritization.run audit engine_results monthly_traffic n_site_pages in
    Base.status r = Base.SUCCESS
    /\ Base.score r = 100%Q
    /\ Base.grade r = "A"
    /\ Base.issues r = []
    /\ Base.recommendations r = [].
Proof.
  intros audit engine_results monthly_traffic n_site_pages Hnone.
  unfold Prioritization.run. rewrite Hnone. cbn. repeat split; reflexivity.
Qed.

Lemma C10_no_issues_result_witness :
  let results := [CrawlReport.crawl_result "audit-1" [Demo.clean_page]] in
  flat_map Base.issues results = []
  /\ Base.grade (Prioritization.run "audit-1" results 10000%Q 1) = "A".
Proof.
  split; [reflexivity |].
  apply (C10_no_issues_result "audit-1"
           [CrawlReport.crawl_result "audit-1" [Demo.clean_page]] 10000%Q 1).
  reflexivity.
Defined.

(** ** Rule evaluation on a null left operand *)

Section NullOperand.
Context `{Lib.PyBuiltins}.
Import Py RuleEngine.

Lemma py_eq_none_l (v : Py.value) : py_eq VNone v = is_none v.
Proof. destruct v; reflexivity. Qed.

Lemma py_cmp_none_l (o : cmp_op) (v : Py.value) : py_cmp o VNone v = Raise TypeError.
Proof. destruct v; reflexivity. Qed.

(** What [a in b] gives for [a = None], after the [TypeError] handler. *)
Definition none_in (b : Py.value) : bool :=
  match b with
  | VList l => existsb is_none l
  | _ => false
  end.

Definition none_not_in (b : Py.value) : bool :=
  match b with
  | VList l => negb (existsb is_none l)
  | VDict _ => true
  | _ => negb (truthy b)
  end.

Lemma existsb_py_eq_none (l : list Py.value) :
  existsb (py_eq VNone) l = existsb is_none l.
Proof.
  induction l as [|x l IH]; cbn [existsb]; [reflexivity|].
  now rewrite py_eq_none_l, IH.
Qed.

Lemma dict_has_no_none (d : list (string * Py.value)) :
  existsb (fun kv => py_eq VNone (VStr (fst kv))) d = false.
Proof. induction d as [|[k v] d IH]; cbn; auto. Qed.

(** The eleven operators that answer false, the four that answer true. *)
Definition false_on_null : list string :=
  ["lt"; "gt"; "lte"; "gte"; "contains"; "matches"; "exists";
   "length_gt"; "length_eq"; "starts_with"; "ends_with"].

Definition true_on_null : list string :=
  ["not_contains"; "not_matches"; "not_exists"; "length_lt"].

(** C1 (amended): on a null left operand, [lt], [gt], [lte], [gte],
    [contains], [matches], [exists], [length_gt], [length_eq],
    [starts_with] and [ends_with] answer false; [not_contains],
    [not_matches], [not_exists] and [length_lt] answer true; [eq] answers
    whether the condition value is null and [ne] whether it is not; [in]
    answers whether the value is a list holding null; [not_in] answers
    true for a falsy value, a dictionary and a list without null, and false
    otherwise. *)
Theorem C1_null_left_operand :
  forall (c : RuleCondition) (page_data : list (string * Py.value)),
    left_operand c page_data = Ret VNone ->
    (In (operator c) false_on_null -> evaluate_condition c page_data = Ret false)
    /\ (In (operator c) true_on_null -> evaluate_condition c page_data = Ret true)
    /\ (operator c = "eq" ->
        evaluate_condition c page_data = Ret (is_none (value c)))
    /\ (operator c = "ne" ->
        evaluate_condition c page_data = Ret (negb (is_none (value c))))
    /\ (operator c = "in" ->
        evaluate_condition c page_data = Ret (none_in (value c)))
    /\ (operator c = "not_in" ->
        evaluate_condition c page_data = Ret (none_not_in (value c))).
Proof.
  intros c page_data Hnull.
  repeat split.
  - intros Hin. unfold false_on_null in Hin. cbn [In] in Hin.
    unfold evaluate_condition. rewrite Hnull.
    repeat (destruct Hin as [Hop | Hin];
            [ rewrite <- Hop; cbn; rewrite ?py_cmp_none_l; reflexivity | ]).
    destruct Hin.
  - intros Hin. unfold true_on_null in Hin. cbn [In] in Hin.
    unfold evaluate_condition. rewrite Hnull.
    repeat (destruct Hin as [Hop | Hin]; [ rewrite <- Hop; reflexivity | ]).
    destruct Hin.
  - intros Hop. unfold evaluate_condition. rewrite Hnull, Hop. cbn.
    destruct (value c); reflexivity.
  - intros Hop. unfold evaluate_condition. rewrite Hnull, Hop. cbn.
    destruct (value c); reflexivity.
  - intros Hop. unfold evaluate_condition. rewrite Hnull, Hop. cbn.
    destruct (value c) as [ | b | z | q | s | l | d ]; cbn; try reflexivity.
    + destruct b; reflexivity.
    + destruct (z =? 0)%Z; reflexivity.
    + destruct (Qeq_bool q 0); reflexivity.
    + destruct (String.eqb s ""); reflexivity.
    + destruct l as [|x l]; [reflexivity|].
      change (Ret (existsb (py_eq VNone) (x :: l)) = Ret (existsb is_none (x :: l))).
      now rewrite existsb_py_eq_none.
    + destruct d as [|kv d]; [reflexivity|].
      change (Ret (existsb (fun kv0 => py_eq VNone (VStr (fst kv0))) (kv :: d))
              = Ret false).
      now rewrite dict_has_no_none.
  - intros Hop. unfold evaluate_condition. rewrite Hnull, Hop. cbn.
    destruct (value c) as [ | b | z | q | s | l | d ]; cbn; try reflexivity.
    + destruct b; reflexivity.
    + destruct (z =? 0)%Z; reflexivity.
    + destruct (Qeq_bool q 0); reflexivity.
    + destruct (String.eqb s ""); reflexivity.
    + destruct l as [|x l]; [reflexivity|].
      change (Ret (negb (existsb (py_eq VNone) (x :: l)))
              = Ret (negb (existsb is_none (x :: l)))).
      now rewrite existsb_py_eq_none.
    + destruct d as [|kv d]; [reflexivity|].
      change (Ret (negb (existsb (fun kv0 => py_eq VNone (VStr (fst kv0))) (kv :: d)))
              = Ret true).
      now rewrite dict_has_no_none.
Qed.

End NullOperand.

Section NullOperandExamples.
#[local] Existing Instance Demo.builtins.

Lemma C1_null_left_operand_witness :
  RuleEngine.left_operand (Demo.title_condition "not_in" (Py.VList [Py.VStr "Home"]))
                          Demo.page_without_title = Py.Ret Py.VNone
  /\ RuleEngine.evaluate_condition
       (Demo.title_condition "not_in" (Py.VList [Py.VStr "Home"]))
       Demo.page_without_title = Py.Ret true.
Proof.
  split; [reflexivity |].
  apply (C1_null_left_operand
           (Demo.title_condition "not_in" (Py.VList [Py.VStr "Home"]))
           Demo.page_without_title);
    reflexivity.
Defined.

(** C1 as stated fails: the title is missing, so the left operand is
    null, and yet [eq] against null, [ne] against a string, [in] against a
    list holding null and [not_in] against a list of strings all answer
    true. *)
Lemma C1_counterexample :
  RuleEngine.left_operand (Demo.title_condition "eq" Py.VNone) Demo.page_without_title
  = Py.Ret Py.VNone
  /\ RuleEngine.evaluate_condition (Demo.title_condition "eq" Py.VNone)
       Demo.page_without_title = Py.Ret true
  /\ RuleEngine.evaluate_condition (Demo.title_condition "ne" (Py.VStr "Home"))
       Demo.page_without_title = Py.Ret true
  /\ RuleEngine.evaluate_condition (Demo.title_condition "in" (Py.VList [Py.VNone]))
       Demo.page_without_title = Py.Ret true
  /\ RuleEngine.evaluate_condition
       (Demo.title_condition "not_in" (Py.VList [Py.VStr "Home"]))
       Demo.page_without_title = Py.Ret true.
Proof. repeat split; reflexivity. Qed.

End NullOperandExamples.

(** ** Exceptions out of rule evaluation *)

Section Totality.
Context `{Lib.PyBuiltins}.
Import Py RuleEngine.

Lemma mapM_raises {A B} (f : A -> res B) (l : list A) (x : A) :
  In x l -> raises (f x) -> raises (mapM f l).
Proof.
  induction l as [|y l IH]; intros Hin Hx; [destruct Hin|].
  cbn [mapM]. destruct Hin as [-> | Hin].
  - destruct Hx as [e ->]. exists e. reflexivity.
  - destruct (f y) as [b | e]; [| exists e; reflexivity].
    cbn [bind]. destruct (IH Hin Hx) as [e ->]. exists e. reflexivity.
Qed.

(** C7 (the code at the failing inputs): a [matches] or [not_matches]
    condition whose pattern does not compile, met on a truthy left
    operand, makes [evaluate_condition] raise [re.error], and with it
    [evaluate_rule] for every rule that contains the condition. *)
Theorem C7_invalid_pattern_raises :
  forall (c : RuleCondition) (page_data : list (string * Py.value))
         (pattern : string) (v : Py.value),
    operator c = "matches" \/ operator c = "not_matches" ->
    value c = VStr pattern ->
    left_operand c page_data = Ret v ->
    truthy v = true ->
    Lib.re_search pattern (py_str v) = None ->
    evaluate_condition c page_data = Raise ReError
    /\ forall r : Rule, In c (conditions r) -> raises (evaluate_rule r page_data).
Proof.
  intros c page_data pattern v Hop Hval Hleft Htruthy Hre.
  assert (Hc : evaluate_condition c page_data = Raise ReError).
  { unfold evaluate_condition. rewrite Hleft. cbn [bind].
    destruct Hop as [Hop | Hop]; rewrite Hop; cbn;
      rewrite Htruthy, Hval; unfold search, negate; rewrite Hre; reflexivity. }
  split; [exact Hc |].
  intros r Hin. unfold evaluate_rule.
  destruct (mapM_raises (fun c0 => evaluate_condition c0 page_data)
                        (conditions r) c Hin) as [e He].
  - exists ReError. exact Hc.
  - rewrite He. exists e. reflexivity.
Qed.

End Totality.

Section TotalityExamples.
#[local] Existing Instance Demo.builtins.

Lemma C7_invalid_pattern_raises_witness :
  RuleEngine.evaluate_condition Demo.url_matches_bad_pattern Demo.page_without_title
  = Py.Raise Py.ReError
  /\ Py.raises (RuleEngine.evaluate_rule Demo.bad_pattern_rule Demo.page_without_title).
Proof.
  destruct (C7_invalid_pattern_raises Demo.url_matches_bad_pattern
              Demo.page_without_title "(" (Py.VStr "https://example.com/"))
    as [Hc Hr].
  - left. reflexivity.
  - reflexivity.
  - reflexivity.
  - reflexivity.
  - reflexivity.
  - split; [exact Hc |]. apply Hr. left. reflexivity.
Defined.

End TotalityExamples.

(** ** Which exceptions leave [evaluate_condition] *)

Section Escapes.
Context `{Lib.PyBuiltins}.
Import Py RuleEngine.

(** Induction on values that reaches into lists and dictionaries. *)
Section ValueInduction.
Variable P : Py.value -> Prop.
Hypothesis Hnone : P VNone.
Hypothesis Hbool : forall b, P (VBool b).
Hypothesis Hint : forall z, P (VInt z).
Hypothesis Hfloat : forall q, P (VFloat q).
Hypothesis Hstr : forall s, P (VStr s).
Hypothesis Hlist : forall l, List.Forall P l -> P (VList l).
Hypothesis Hdict : forall d, List.Forall (fun kv => P (snd kv)) d -> P (VDict d).

Fixpoint value_nested_ind (v : Py.value) : P v :=
  match v with
  | VNone => Hnone
  | VBool b => Hbool b
  | VInt z => Hint z
  | VFloat q => Hfloat q
  | VStr s => Hstr s
  | VList l =>
      Hlist l ((fix go (l : list Py.value) : List.Forall P l :=
                  match l with
                  | [] => @List.Forall_nil _ P
                  | x :: r => @List.Forall_cons _ P x r (value_nested_ind x) (go r)
                  end) l)
  | VDict d =>
      Hdict d ((fix go (d : list (string * Py.value))
                  : List.Forall (fun kv => P (snd kv)) d :=
                  match d with
                  | [] => @List.Forall_nil _ (fun kv => P (snd kv))
                  | kv :: r =>
                      @List.Forall_cons _ (fun kv => P (snd kv)) kv r
                        (value_nested_ind (snd kv)) (go r)
                  end) d)
  end.
End ValueInduction.

Lemma py_cmp_raises_type_error (o : cmp_op) (a : Py.value) :
  forall (b : Py.value) (e : exn), py_cmp o a b = Raise e -> e = TypeError.
Proof.
  induction a as [ | x | z | q | s | l IH | d _ ] using value_nested_ind;
    intros b e He; destruct b; cbn in He; try congruence.
  revert l0 He. induction IH as [| x l Hx Hl IHl]; intros m He.
  - destruct m; discriminate.
  - destruct m as [|y m]; [discriminate|].
    destruct (py_eq x y); [now apply (IHl m) | now apply (Hx y)].
Qed.

Lemma py_in_raises_type_error (x c : Py.value) (e : exn) :
  py_in x c = Raise e -> e = TypeError.
Proof.
  destruct c; cbn; try congruence.
  - destruct x; congruence.
  - destruct (hashable x); congruence.
Qed.

Lemma py_len_raises_type_error (v : Py.value) (e : exn) :
  py_len v = Raise e -> e = TypeError.
Proof. destruct v; cbn; congruence. Qed.

(** An operator other than the two regular-expression ones raises nothing
    but [TypeError]. *)
Lemma operator_raises (name : string) (op : Py.value -> Py.value -> res bool)
    (a b : Py.value) (e : exn) :
  OPERATORS name = Some op ->
  op a b = Raise e ->
  e = TypeError
  \/ (e = ReError /\ (name = "matches" \/ name = "not_matches")).
Proof.
  unfold OPERATORS. intros Hop Hraise.
  repeat match type of Hop with
         | (if String.eqb name ?s then _ else _) = _ =>
             destruct (String.eqb_spec name s) as [-> | _]
         end; try discriminate; injection Hop as <-;
    try discriminate;
    try (left; now apply (py_cmp_raises_type_error _ _ _ _ Hraise)).
  - destruct (truthy a); [| discriminate].
    left. now apply (py_in_raises_type_error _ _ _ Hraise).
  - destruct (truthy a); [| discriminate]. unfold negate in Hraise.
    destruct (py_in b a) eqn:Hin; [discriminate|]. cbn in Hraise.
    injection Hraise as <-. left. now apply (py_in_raises_type_error _ _ _ Hin).
  - destruct (truthy a); [| discriminate]. unfold search in Hraise.
    destruct b; try (left; congruence).
    destruct (Lib.re_search s (py_str a)); [discriminate|].
    right. split; [congruence | now left].
  - destruct (truthy a); [| discriminate]. unfold negate, search in Hraise.
    destruct b; try (left; cbn in Hraise; congruence).
    destruct (Lib.re_search s (py_str a)); [discriminate|].
    cbn in Hraise. right. split; [congruence | now right].
  - destruct (truthy b); [| discriminate].
    left. now apply (py_in_raises_type_error _ _ _ Hraise).
  - destruct (truthy b); [| discriminate]. unfold negate in Hraise.
    destruct (py_in a b) eqn:Hin; [discriminate|]. cbn in Hraise.
    injection Hraise as <-. left. now apply (py_in_raises_type_error _ _ _ Hin).
  - destruct (truthy a); [| discriminate].
    destruct (py_len a) as [n | e'] eqn:Hlen; cbn [bind] in Hraise.
    + left. destruct (as_number b); congruence.
    + injection Hraise as <-. left. now apply (py_len_raises_type_error _ _ Hlen).
  - destruct (truthy a); [| discriminate].
    destruct (py_len a) as [n | e'] eqn:Hlen; cbn [bind] in Hraise.
    + left. destruct (as_number b); congruence.
    + injection Hraise as <-. left. now apply (py_len_raises_type_error _ _ Hlen).
  - destruct (truthy a); [| discriminate].
    destruct (py_len a) as [n | e'] eqn:Hlen; cbn [bind] in Hraise; [discriminate|].
    injection Hraise as <-. left. now apply (py_len_raises_type_error _ _ Hlen).
  - destruct (truthy a); [| discriminate]. unfold startswith_value in Hraise.
    left. destruct b; congruence.
  - destruct (truthy a); [| discriminate]. unfold endswith_value in Hraise.
    left. destruct b; congruence.
Qed.

(** The walk along a field path raises nothing but the [ValueError] of
    [int]. *)
Lemma walk_raises (keys : list string) :
  forall (current : Py.value) (e : exn), walk keys current = Raise e -> e = ValueError.
Proof.
  induction keys as [|key rest IH]; intros current e Hraise; [discriminate|].
  cbn [walk] in Hraise. destruct current; try discriminate.
  - destruct (PyStr.isdigit key); [| discriminate].
    destruct (int_max_str_digits <? String.length key)%nat;
      [now injection Hraise as <-|].
    destruct (nth_error _ _) as [v|]; [now apply (IH v) | discriminate].
  - exact (IH _ e Hraise).
Qed.

(** Every operator error is answered with false, a pattern that does not
    compile apart.  The exceptions that leave [evaluate_condition] are
    [re.error], out of [matches] or [not_matches], and the [ValueError]
    of a field path that indexes a list with too long a number. *)
Lemma evaluate_condition_escapes (c : RuleCondition)
    (page_data : list (string * Py.value)) (e : exn) :
  evaluate_condition c page_data = Raise e ->
  (e = ValueError /\ get_nested_value page_data (field c) = Raise ValueError)
  \/ (e = ReError /\ (operator c = "matches" \/ operator c = "not_matches")).
Proof.
  unfold evaluate_condition, left_operand. intros Hraise.
  destruct (get_nested_value page_data (field c)) as [raw | e0] eqn:Hpath;
    cbn [bind] in Hraise.
  - right.
    destruct (OPERATORS (operator c)) as [op|] eqn:Hop; [| discriminate].
    destruct (op (apply_transform raw (transform c)) (value c)) as [r | e'] eqn:Hres;
      [discriminate|].
    destruct (operator_raises _ _ _ _ _ Hop Hres) as [-> | [-> Hname]];
      [discriminate|].
    injection Hraise as <-. now split.
  - left. injection Hraise as <-.
    apply walk_raises in Hpath as ->. now split.
Qed.

End Escapes.

(** ** The robots gate after a failed robots.txt fetch *)

Section RobotsGate.
Context `{Lib.IpAddress} `{RobotParser.RobotsText}.
Import Py Crawler.

(** The robots.txt request raised, or answered with a status other than
    200. *)
Definition fetch_failed (got : http_result) : Prop :=
  match got with
  | HttpRaised => True
  | HttpResponse st _ => st <> 200
  end.

Lemma unparsed_parser_refuses (useragent url : string) :
  RobotParser.can_fetch RobotParser.new_parser useragent url = false.
Proof. reflexivity. Qed.

(** C2 (the code at the failing inputs): after a failed robots.txt fetch
    for a host, [can_fetch] answers false for every URL of that host and
    every user agent: the parser stored for the host was never fed, and an
    unfed [RobotFileParser] refuses everything. *)
Theorem C2_failed_fetch_blocks_host :
  forall (parsers : gmap string RobotParser.RobotFileParser)
         (domain : string) (got : http_result)
         (url user_agent : string) (parsed : UrlParse.ParseResult),
    fetch_failed got ->
    UrlParse.urlparse url "" = Ret parsed ->
    PyStr.lower (UrlParse.netloc parsed) = domain ->
    can_fetch (fetch_and_parse parsers domain got) url user_agent = Ret false.
Proof.
  intros parsers domain got url user_agent parsed Hfail Hparse Hhost.
  unfold can_fetch. rewrite Hparse. cbn [bind]. rewrite Hhost.
  unfold fetch_and_parse.
  destruct got as [| st text].
  - rewrite lookup_insert_eq. now rewrite unparsed_parser_refuses.
  - cbn in Hfail. destruct (Z.eqb_spec st 200) as [-> | _]; [contradiction|].
    rewrite lookup_insert_eq. now rewrite unparsed_parser_refuses.
Qed.

(** A host whose robots.txt was never requested is open. *)
Lemma unknown_host_is_allowed
    (parsers : gmap string RobotParser.RobotFileParser)
    (url user_agent : string) (parsed : UrlParse.ParseResult) :
  UrlParse.urlparse url "" = Ret parsed ->
  parsers !! PyStr.lower (UrlParse.netloc parsed) = None ->
  can_fetch parsers url user_agent = Ret true.
Proof.
  intros Hparse Hnone. unfold can_fetch. rewrite Hparse. cbn [bind].
  now rewrite Hnone.
Qed.

End RobotsGate.

Section RobotsGateExamples.
#[local] Existing Instance Demo.ip.
#[local] Existing Instance Demo.robots.

Lemma C2_failed_fetch_blocks_host_witness :
  Crawler.can_fetch
    (Crawler.fetch_and_parse ∅ "example.com" (Crawler.HttpResponse 404 "Not Found"))
    "https://example.com/about" Crawler.CRAWLER_USER_AGENT
  = Py.Ret false.
Proof.
  apply (C2_failed_fetch_blocks_host ∅ "example.com"
           (Crawler.HttpResponse 404 "Not Found")
           "https://example.com/about" Crawler.CRAWLER_USER_AGENT
           (UrlParse.mkParse "https" "example.com" "/about" "" "" "")).
  - cbn. lia.
  - reflexivity.
  - reflexivity.
Defined.

End RobotsGateExamples.

(** ** Sitemap discovery *)

Section SitemapDepth.
Context `{Lib.IpAddress} `{Lib.Html}.
Import Crawler.
Variable web : string -> http_result.

(** [sitemap_chain us locs]: the first URL of [us] serves a sitemap index
    naming the second, and so on; the last serves a URL set with the
    entries [locs]. *)
Inductive sitemap_chain : list string -> list string -> Prop :=
| chain_urlset (u content : string) (locs : list string) :
    web u = HttpResponse 200 content ->
    PyStr.contains content "<sitemapindex" = false ->
    PyStr.contains content "<urlset" = true ->
    Lib.find_all_loc content = locs ->
    sitemap_chain [u] locs
| chain_index (u v content : string) (rest locs : list string) :
    web u = HttpResponse 200 content ->
    PyStr.contains content "<sitemapindex" = true ->
    Lib.find_all_loc content = [v] ->
    sitemap_chain (v :: rest) locs ->
    sitemap_chain (u :: v :: rest) locs.

(** No document of the site lists more than [b] references. *)
Definition fanout_at_most (b : nat) : Prop :=
  forall (u : string) (st : Z) (content : string),
    web u = HttpResponse st content ->
    (length (Lib.find_all_loc content) <= b)%nat.

(** [1 + b + ... + b^(limit-1)]: the calls of a tree of that depth and
    width. *)
Fixpoint requests_bound (b limit : nat) : nat :=
  match limit with
  | O => O
  | S limit' => S (b * requests_bound b limit')
  end.

Lemma nested_requests_bound (b limit : nat) (locs : list string) :
  (forall url, (length (snd (_fetch_sitemap web limit url)) <= requests_bound b limit)%nat) ->
  forall acc : list string * list string,
    (length (snd (fold_left
                    (fun acc loc =>
                       match acc, _fetch_sitemap web limit loc with
                       | (urls, log), (nested, log') => (urls ++ nested, log ++ log')
                       end)
                    locs acc))
     <= length (snd acc) + length locs * requests_bound b limit)%nat.
Proof.
  intros Hnested. induction locs as [|loc locs IH]; intros [urls log];
    cbn [fold_left length snd]; [lia|].
  specialize (Hnested loc).
  destruct (_fetch_sitemap web limit loc) as [nested log'].
  eapply Nat.le_trans; [apply IH|]. cbn [snd] in *. rewrite length_app. lia.
Qed.

Lemma requests_within_bound (b : nat) :
  fanout_at_most b ->
  forall (limit : nat) (url : string),
    (length (snd (_fetch_sitemap web limit url)) <= requests_bound b limit)%nat.
Proof.
  intros Hfan. induction limit as [|limit IH]; intros url; [reflexivity|].
  cbn [_fetch_sitemap requests_bound].
  destruct (web url) as [|st content] eqn:Hweb; [cbn; lia|].
  destruct (negb (st =? 200)%Z); [cbn; lia|].
  destruct (PyStr.contains content "<sitemapindex").
  - eapply Nat.le_trans; [apply (nested_requests_bound b limit), IH|].
    cbn [snd length]. pose proof (Hfan url st content Hweb) as Hb.
    apply le_n_S. now apply Nat.mul_le_mono_r.
  - destruct (PyStr.contains content "<urlset"); cbn; lia.
Qed.

(** C3 (amended): nothing in the code stops at three levels; the
    nesting is bounded by the recursion limit of the interpreter alone.
    With room for [limit] nested calls, a chain of sitemap indexes of at
    most [limit] documents is requested to its end, in order, and the
    entries of its final URL set are returned; of a longer chain the
    first [limit] documents are requested and nothing is returned.  And a
    call always returns: it makes at most [1 + b + ... + b^(limit-1)]
    requests on a site whose documents list at most [b] references. *)
Theorem C3_chain_followed_to_recursion_limit :
  forall limit : nat,
    (forall us locs : list string,
        sitemap_chain us locs ->
        _fetch_sitemap web limit (hd "" us)
        = if (length us <=? limit)%nat then (locs, us) else ([], firstn limit us))
    /\ (forall (b : nat) (url : string),
          fanout_at_most b ->
          (length (snd (_fetch_sitemap web limit url)) <= requests_bound b limit)%nat).
Proof.
  intros limit. split.
  - intros us locs Hchain. revert limit.
    induction Hchain as [u content locs Hweb Hidx Hset Hlocs
                        | u v content rest locs Hweb Hidx Hlocs Hrest IH];
      intros [|limit]; try reflexivity.
    + cbn [_fetch_sitemap hd length Nat.leb]. rewrite Hweb. cbn [Z.eqb Pos.eqb negb].
      now rewrite Hidx, Hset, Hlocs.
    + cbn [_fetch_sitemap hd]. rewrite Hweb. cbn [Z.eqb Pos.eqb negb].
      rewrite Hidx, Hlocs. cbn [fold_left].
      specialize (IH limit). cbn [hd] in IH. rewrite IH.
      change (length (u :: v :: rest) <=? S limit)%nat
        with (length (v :: rest) <=? limit)%nat.
      destruct (length (v :: rest) <=? limit)%nat; reflexivity.
  - intros b url Hfan. now apply requests_within_bound.
Qed.

End SitemapDepth.

Section SitemapExamples.
#[local] Existing Instance Demo.ip.
#[local] Existing Instance Demo.html.

(** C3 as stated fails: with room for a hundred nested calls, far less
    than the default recursion limit leaves, the sitemap found only
    through four nested index documents, four levels below the probed
    [/sitemap.xml], is requested and its entry is returned. *)
Lemma C3_counterexample :
  Crawler._fetch_sitemap Demo.nested_site 100 "https://example.com/sitemap.xml"
  = (["https://example.com/deep-page"],
     ["https://example.com/sitemap.xml";
      "https://example.com/sitemap-1.xml";
      "https://example.com/sitemap-2.xml";
      "https://example.com/sitemap-3.xml";
      "https://example.com/sitemap-4.xml"]).
Proof. vm_compute. reflexivity. Qed.

Lemma nested_site_is_chain :
  sitemap_chain Demo.nested_site Demo.nested_sitemaps ["https://example.com/deep-page"].
Proof.
  unfold Demo.nested_sitemaps.
  repeat (eapply chain_index; [vm_compute; reflexivity | vm_compute; reflexivity
                              | vm_compute; reflexivity |]).
  apply (chain_urlset Demo.nested_site "https://example.com/sitemap-4.xml"
           "<urlset><url><loc>https://example.com/deep-page</loc></url></urlset>");
    vm_compute; reflexivity.
Defined.

Lemma nested_site_fanout : fanout_at_most Demo.nested_site 1.
Proof.
  intros u st content Hweb. unfold Demo.nested_site in Hweb.
  repeat match type of Hweb with
         | (if ?c then _ else _) = _ => destruct c
         end;
    injection Hweb as <- <-; vm_compute; lia.
Defined.

(** The chain of five documents: followed to its end with room for
    seven calls, cut after three with room for three; and never more
    than [limit] requests. *)
Lemma C3_chain_followed_to_recursion_limit_witness :
  Crawler._fetch_sitemap Demo.nested_site 7 "https://example.com/sitemap.xml"
  = (["https://example.com/deep-page"], Demo.nested_sitemaps)
  /\ Crawler._fetch_sitemap Demo.nested_site 3 "https://example.com/sitemap.xml"
     = ([], ["https://example.com/sitemap.xml";
             "https://example.com/sitemap-1.xml";
             "https://example.com/sitemap-2.xml"])
  /\ (length (snd (Crawler._fetch_sitemap Demo.nested_site 7
                     "https://example.com/sitemap.xml"))
      <= requests_bound 1 7)%nat.
Proof.
  split; [| split].
  - exact (proj1 (C3_chain_followed_to_recursion_limit Demo.nested_site 7)
                 Demo.nested_sitemaps ["https://example.com/deep-page"]
                 nested_site_is_chain).
  - exact (proj1 (C3_chain_followed_to_recursion_limit Demo.nested_site 3)
                 Demo.nested_sitemaps ["https://example.com/deep-page"]
                 nested_site_is_chain).
  - exact (proj2 (C3_chain_followed_to_recursion_limit Demo.nested_site 7)
                 1%nat "https://example.com/sitemap.xml" nested_site_fanout).
Defined.

(** On an index that names itself the calls nest until the limit and
    nothing is returned. *)
Lemma sitemap_cycle_stops_at_limit (limit : nat) :
  Crawler._fetch_sitemap Demo.cyclic_site limit "https://example.com/sitemap.xml"
  = ([], repeat "https://example.com/sitemap.xml" limit).
Proof.
  induction limit as [|limit IH]; [reflexivity|].
  cbn [Crawler._fetch_sitemap].
  change (Demo.cyclic_site "https://example.com/sitemap.xml")
    with (Crawler.HttpResponse 200
            (Demo.sitemap_index_for "https://example.com/sitemap.xml")).
  cbn [Z.eqb Pos.eqb negb].
  replace (PyStr.contains (Demo.sitemap_index_for "https://example.com/sitemap.xml")
                          "<sitemapindex") with true by (vm_compute; reflexivity).
  replace (Lib.find_all_loc (Demo.sitemap_index_for "https://example.com/sitemap.xml"))
    with ["https://example.com/sitemap.xml"] by (vm_compute; reflexivity).
  cbn [fold_left]. now rewrite IH.
Qed.

End SitemapExamples.

(** ** Ranking of recommendations *)

Section Ranking.
Import Base Prioritization.

(** [a] may stand before [b]: its priority score is not smaller. *)
Definition not_below {A} (a b : A * Q) : Prop := (snd b <= snd a)%Q.

Lemma Qle_bool_false (x y : Q) : Qle_bool x y = false -> (y < x)%Q.
Proof.
  intros Hf. apply Qnot_le_lt. intros Hle.
  apply Qle_bool_iff in Hle. congruence.
Qed.

Lemma insert_desc_perm {A} (x : A * Q) (l : list (A * Q)) :
  Permutation (insert_desc x l) (x :: l).
Proof.
  induction l as [|y l IH]; cbn [insert_desc]; [reflexivity|].
  destruct (Qle_bool (snd y) (snd x)); [reflexivity|].
  rewrite IH. apply perm_swap.
Qed.

Lemma sort_desc_perm {A} (l : list (A * Q)) : Permutation (sort_desc l) l.
Proof.
  induction l as [|x l IH]; cbn [sort_desc]; [reflexivity|].
  rewrite insert_desc_perm. now apply perm_skip.
Qed.

Lemma insert_desc_sorted {A} (x : A * Q) (l : list (A * Q)) :
  StronglySorted not_below l -> StronglySorted not_below (insert_desc x l).
Proof.
  induction l as [|y l IH]; intros Hs; cbn [insert_desc].
  - constructor; constructor.
  - destruct (Qle_bool (snd y) (snd x)) eqn:Hle.
    + apply Qle_bool_iff in Hle.
      constructor; [exact Hs|].
      constructor; [exact Hle|].
      apply StronglySorted_inv in Hs as [_ Hall].
      eapply List.Forall_impl; [| exact Hall].
      intros z Hz. unfold not_below in *. eapply Qle_trans; eauto.
    + apply Qle_bool_false in Hle.
      pose proof (StronglySorted_inv Hs) as [Hl Hall].
      constructor; [now apply IH|].
      rewrite (insert_desc_perm x l).
      constructor; [| exact Hall].
      unfold not_below. now apply Qlt_le_weak.
Qed.

Lemma sort_desc_sorted {A} (l : list (A * Q)) : StronglySorted not_below (sort_desc l).
Proof.
  induction l as [|x l IH]; cbn [sort_desc]; [constructor|].
  now apply insert_desc_sorted.
Qed.

(** The entries whose score equals [q], in list order. *)
Definition with_score {A} (q : Q) (l : list (A * Q)) : list (A * Q) :=
  List.filter (fun p => Qeq_bool (snd p) q) l.

Lemma insert_desc_stable {A} (q : Q) (x : A * Q) (l : list (A * Q)) :
  with_score q (insert_desc x l) = with_score q (x :: l).
Proof.
  induction l as [|y l IH]; cbn [insert_desc]; [reflexivity|].
  destruct (Qle_bool (snd y) (snd x)) eqn:Hle; [reflexivity|].
  unfold with_score in *. cbn [List.filter] in *. rewrite IH.
  destruct (Qeq_bool (snd x) q) eqn:Hx; [| reflexivity].
  destruct (Qeq_bool (snd y) q) eqn:Hy; [| reflexivity].
  apply Qeq_bool_iff in Hx, Hy.
  apply Qle_bool_false in Hle.
  rewrite Hx, Hy in Hle. now apply Qlt_irrefl in Hle.
Qed.

Lemma sort_desc_stable {A} (q : Q) (l : list (A * Q)) :
  with_score q (sort_desc l) = with_score q l.
Proof.
  induction l as [|x l IH]; cbn [sort_desc]; [reflexivity|].
  rewrite insert_desc_stable. unfold with_score in *. cbn [List.filter].
  now rewrite IH.
Qed.

Lemma enumerate_from_ranks {A} (start : Z) (l : list A) :
  map fst (enumerate_from start l)
  = map (fun i => (start + Z.of_nat i)%Z) (seq 0 (length l)).
Proof.
  revert start. induction l as [|x l IH]; intros start; [reflexivity|].
  cbn [enumerate_from map length seq fst]. f_equal; [lia|].
  rewrite IH, <- seq_shift, map_map.
  apply map_ext. intros i. lia.
Qed.

Lemma enumerate_from_items {A} (start : Z) (l : list A) :
  map snd (enumerate_from start l) = l.
Proof.
  revert start. induction l as [|x l IH]; intros start; [reflexivity|].
  cbn [enumerate_from map snd]. now rewrite IH.
Qed.

(** The issues with their priority scores, as collected. *)
Definition scored (all_issues : list Issue) : list (Issue * Q) :=
  map (fun i => (i, calculate_priority_score i)) all_issues.

(** C5 (amended): over a non-empty issue list the recommendations carry
    the ranks 1..N, N = min(50, number of issues), in the order of the
    sorted issue list cut at 50; that order is a rearrangement of the
    collected issues with non-increasing priority scores, in which issues
    of equal priority score keep the order they were collected in. *)
Theorem C5_ranks_dense_sorted_stable :
  forall (audit : string) (engine_results : list AuditResult)
         (monthly_traffic : Q) (n_site_pages : Z),
    let all_issues := flat_map issues engine_results in
    let recs :=
      recommendations (run audit engine_results monthly_traffic n_site_pages) in
    all_issues <> [] ->
    map priority_rank recs
    = map (fun i => (1 + Z.of_nat i)%Z) (seq 0 (Nat.min 50 (length all_issues)))
    /\ map issue_id recs
       = map (fun p => rule_id (fst p)) (firstn 50 (scored_issues all_issues))
    /\ Permutation (scored_issues all_issues) (scored all_issues)
    /\ StronglySorted not_below (scored_issues all_issues)
    /\ forall q : Q,
         with_score q (scored_issues all_issues) = with_score q (scored all_issues).
Proof.
  intros audit engine_results monthly_traffic n_site_pages all_issues recs Hne.
  assert (Hrecs : recs = build_recommendations monthly_traffic all_issues).
  { unfold recs, run. fold all_issues.
    destruct all_issues; [congruence | reflexivity]. }
  assert (Hlen : length (scored_issues all_issues) = length all_issues).
  { unfold scored_issues.
    rewrite (Permutation_length (sort_desc_perm _)). apply length_map. }
  rewrite Hrecs. unfold build_recommendations.
  repeat split.
  - rewrite map_map.
    rewrite (map_ext _ (fun x => fst x)) by (intros [rank [i s]]; reflexivity).
    rewrite enumerate_from_ranks, length_firstn, Hlen. reflexivity.
  - rewrite map_map.
    rewrite (map_ext _ (fun x => rule_id (fst (snd x))))
      by (intros [rank [i s]]; reflexivity).
    rewrite <- (map_map snd (fun p => rule_id (fst p))).
    now rewrite enumerate_from_items.
  - apply sort_desc_perm.
  - apply sort_desc_sorted.
  - intros q. apply sort_desc_stable.
Qed.

End Ranking.

Lemma C5_ranks_dense_sorted_stable_witness :
  flat_map Base.issues [Demo.tied_result] <> []
  /\ map Base.priority_rank
         (Base.recommendations (Prioritization.run "audit-1" [Demo.tied_result] 10000%Q 1))
     = [1; 2].
Proof.
  split; [discriminate |].
  apply (C5_ranks_dense_sorted_stable "audit-1" [Demo.tied_result] 10000%Q 1).
  discriminate.
Defined.

(** C5 as stated fails: the two issues have the same priority score, so
    the scores are not strictly descending, and they are ranked in the
    order they were collected, [onpage-thin-content] before
    [onpage-short-title], not in the alphabetical order of the rule ids. *)
Lemma C5_counterexample :
  map (fun r => (Base.priority_rank r, Base.issue_id r))
      (Base.recommendations (Prioritization.run "audit-1" [Demo.tied_result] 10000%Q 1))
  = [(1, "onpage-thin-content"); (2, "onpage-short-title")]
  /\ Prioritization.calculate_priority_score Demo.thin_content_issue
     = Prioritization.calculate_priority_score Demo.short_title_issue
  /\ PyStr.ltb "onpage-short-title" "onpage-thin-content" = true.
Proof. repeat split; vm_compute; reflexivity. Qed.

(** ** Impact scores of the on-page issues *)

Section OnPageImpact.
Context `{Lib.IpAddress} `{Lib.Html}.
Import Py Base OnPage.
#[local] Open Scope Q_scope.

(** The base score the engine passes for each scored rule. *)
Definition rule_base (rid : string) : Q :=
  if String.eqb rid "onpage-missing-title" then 95
  else if String.eqb rid "onpage-duplicate-title" then 75
  else if String.eqb rid "onpage-short-title" then 55
  else if String.eqb rid "onpage-long-title" then 45
  else if String.eqb rid "onpage-missing-meta-description" then 70
  else if String.eqb rid "onpage-duplicate-meta-description" then 50
  else if String.eqb rid "onpage-missing-h1" then 65
  else if String.eqb rid "onpage-multiple-h1" then 40
  else if String.eqb rid "onpage-missing-alt-text" then 45
  else if String.eqb rid "onpage-thin-content" then 55
  else if String.eqb rid "onpage-long-urls" then 25
  else 0.

Lemma scored_issue_impact (found : list PageData) (total : Z)
    (rid ttl descr : string) (sev : Severity) (base : Q) (recm doc : string)
    (i : Issue) :
  In i (scored_issue found total rid ttl descr sev base recm doc) ->
  rule_id i = rid /\ severity i = sev
  /\ impact_score i
     = RuleEngine.calculate_impact_score sev (affected_count i) total base.
Proof.
  unfold scored_issue. destruct found as [|p found]; [intros []|].
  intros [<- | []]. repeat split.
Qed.

(** The multipliers as the claim lists them: critical 1.0, high 0.75,
    medium 0.5, low 0.25, info 0.0. *)
Definition stated_multiplier (s : Severity) : Q :=
  match s with
  | CRITICAL => 1 | HIGH => 3 # 4 | MEDIUM => 1 # 2 | LOW => 1 # 4 | INFO => 0
  end.

(** C4 (amended): every issue of the on-page engine other than
    [onpage-uppercase-urls] has
    [impact_score = round(min(100, rule_base * severity_mult * (0.3 + 0.7 * coverage)), 2)]
    with [coverage = min(1, affected_count / max(1, total_pages))] and the
    multipliers critical 1, high 0.75, medium 0.5, low 0.25, info 0, every
    operation being the double-precision one, taken from left to
    right. *)
Theorem C4_scored_issue_impact :
  forall (audit : string) (site_pages : list PageData) (r : AuditResult) (i : Issue),
    run audit site_pages = Ret r ->
    In i (issues r) ->
    rule_id i <> "onpage-uppercase-urls" ->
    let total_pages := total_pages_of site_pages in
    let coverage :=
      Num.py_min 1 (Num.fdiv (inject_Z (affected_count i))
                             (inject_Z (Z.max 1 total_pages))) in
    impact_score i
    = Num.fround2
        (Num.py_min 100
           (Num.fmul
              (Num.fmul (rule_base (rule_id i)) (stated_multiplier (severity i)))
              (Num.fadd (Num.fl (3 # 10)) (Num.fmul (Num.fl (7 # 10)) coverage)))).
Proof.
  intros audit site_pages r i Hrun Hin Hid total_pages coverage.
  unfold run in Hrun.
  destruct (analyse_pages empty_buckets (html_pages site_pages)) as [b | e];
    cbn [bind] in Hrun; [| discriminate].
  injection Hrun as <-. cbn [issues] in Hin.
  unfold create_issues in Hin.
  repeat (apply in_app_or in Hin as [Hin | Hin];
          [ apply scored_issue_impact in Hin as (Hrid & Hsev & Himp);
            rewrite Himp, Hrid, Hsev; reflexivity | ]).
  destruct (uppercase_urls b) as [|p found]; [destruct Hin|].
  destruct Hin as [<- | []]. cbn [rule_id] in Hid. congruence.
Qed.

(** The formula of the claim, without the rounding. *)
Definition unrounded_impact (base : Q) (sev : Severity) (affected total : Z) : Q :=
  Num.py_max 0
    (Num.py_min 100
       (base * RuleEngine.severity_multipliers sev
        * ((3 # 10) + (7 # 10) * RuleEngine.coverage affected total))).

End OnPageImpact.

Section OnPageExamples.
#[local] Existing Instance Demo.ip.
#[local] Existing Instance Demo.html.
#[local] Open Scope Q_scope.

(** Two pages, one with a title of four characters: the short-title
    issue (base 55, medium) on one page of two scores 17.87, the double
    product being just below 17.875. *)
Lemma C4_scored_issue_impact_witness :
  OnPage.run "audit-1" Demo.site_one_short_title = Py.Ret Demo.short_title_run
  /\ Base.rule_id Demo.short_title_found = "onpage-short-title"
  /\ Base.severity Demo.short_title_found = Base.MEDIUM
  /\ Base.affected_count Demo.short_title_found = 1%Z
  /\ OnPage.total_pages_of Demo.site_one_short_title = 2%Z
  /\ Base.impact_score Demo.short_title_found == Num.fl (1787 # 100)
  /\ Base.impact_score Demo.short_title_found
     = Num.fround2
         (Num.py_min 100
            (Num.fmul
               (Num.fmul (rule_base (Base.rule_id Demo.short_title_found))
                         (stated_multiplier (Base.severity Demo.short_title_found)))
               (Num.fadd (Num.fl (3 # 10))
                  (Num.fmul (Num.fl (7 # 10))
                     (Num.py_min 1
                        (Num.fdiv
                           (inject_Z (Base.affected_count Demo.short_title_found))
                           (inject_Z (Z.max 1 (OnPage.total_pages_of
                                                 Demo.site_one_short_title))))))))).
Proof.
  do 6 (split; [vm_compute; reflexivity |]).
  apply (C4_scored_issue_impact "audit-1" Demo.site_one_short_title
           Demo.short_title_run Demo.short_title_found).
  - vm_compute. reflexivity.
  - vm_compute. left. reflexivity.
  - vm_compute. discriminate.
Defined.

(** C4 as stated fails twice.  With one page of three untitled, the
    missing-title issue scores 50.67 (the double nearest to it), the
    formula gives 152/3.  And the uppercase-URL issue scores 20 both at
    coverage 1 and at coverage 1/2, which no base score makes the formula
    do. *)
Lemma C4_counterexample :
  Demo.impacts_of "onpage-missing-title" (OnPage.run "audit-1" Demo.site_one_untitled)
  = [("onpage-missing-title", 1%Z, Qred (Num.fl (5067 # 100)))]
  /\ Qred (unrounded_impact 95 Base.CRITICAL 1 3) = 152 # 3
  /\ Demo.impacts_of "onpage-uppercase-urls" (OnPage.run "audit-1" Demo.site_upper_alone)
     = [("onpage-uppercase-urls", 1%Z, 20)]
  /\ Demo.impacts_of "onpage-uppercase-urls"
       (OnPage.run "audit-1" Demo.site_upper_and_lower)
     = [("onpage-uppercase-urls", 1%Z, 20)]
  /\ OnPage.total_pages_of Demo.site_upper_alone = 1%Z
  /\ OnPage.total_pages_of Demo.site_upper_and_lower = 2%Z
  /\ ~ (exists base : Q,
          unrounded_impact base Base.LOW 1 1 == 20
          /\ unrounded_impact base Base.LOW 1 2 == 20).
Proof.
  repeat split; try (vm_compute; reflexivity).
  intros [base [H1 H2]].
  unfold unrounded_impact in H1, H2.
  change (RuleEngine.coverage 1 1) with 1 in H1.
  change (RuleEngine.coverage 1 2) with (1 # 2) in H2.
  change (RuleEngine.severity_multipliers Base.LOW) with (1 # 4) in H1, H2.
  unfold Num.py_max, Num.py_min in H1, H2.
  assert (E1 : base * (1 # 4) * ((3 # 10) + (7 # 10) * 1) == base * (1 # 4)) by ring.
  assert (E2 : base * (1 # 4) * ((3 # 10) + (7 # 10) * (1 # 2))
               == base * (13 # 80)) by ring.
  destruct (Qle_bool 100 (base * (1 # 4) * ((3 # 10) + (7 # 10) * 1))) eqn:C1;
    [ cbn in H1; discriminate |].
  destruct (Qle_bool 100 (base * (1 # 4) * ((3 # 10) + (7 # 10) * (1 # 2)))) eqn:C2;
    [ cbn in H2; discriminate |].
  destruct (Qle_bool (base * (1 # 4) * ((3 # 10) + (7 # 10) * 1)) 0) eqn:D1;
    [ cbn in H1; discriminate |].
  destruct (Qle_bool (base * (1 # 4) * ((3 # 10) + (7 # 10) * (1 # 2))) 0) eqn:D2;
    [ cbn in H2; discriminate |].
  rewrite E1 in H1. rewrite E2 in H2. lra.
Qed.

End OnPageExamples.

(** ** Termination of the BFS loop and the page cap *)

Section CrawlTermination.
Context `{Lib.IpAddress} `{Lib.Html} `{RobotParser.RobotsText}.
Import Py Base Crawler.
Variable fetch : string -> bool -> PageData.
Variable parsers : gmap string RobotParser.RobotFileParser.
Variable cfg : Config.
Variable root_url : string.
Variable domain : string.

#[local] Abbreviation start_task := (Crawler.start_task parsers cfg root_url domain).
#[local] Abbreviation finish_task := (Crawler.finish_task fetch cfg domain).
#[local] Abbreviation start_next := (Crawler.start_next parsers cfg root_url domain).
#[local] Abbreviation finish_at := (Crawler.finish_at fetch cfg domain).
#[local] Abbreviation batch_step := (Crawler.batch_step fetch parsers cfg root_url domain).
#[local] Abbreviation batch_steps := (Crawler.batch_steps fetch parsers cfg root_url domain).
#[local] Abbreviation run_batch := (Crawler.run_batch fetch parsers cfg root_url domain).
#[local] Abbreviation loop_body := (Crawler.loop_body fetch parsers cfg root_url domain).
#[local] Abbreviation bfs_loop := (Crawler.bfs_loop fetch parsers cfg root_url domain).
#[local] Abbreviation enqueue_links := (Crawler.enqueue_links cfg domain).

(** Queue length plus visited-set size, the quantity the growth cap
    watches. *)
Definition load (st : CrawlState) : Z :=
  Z.of_nat (length (queue st)) + Z.of_nat (size (visited st)).

Lemma enqueue_links_effect (links : list string) (normalized : string) (depth : Z) :
  forall (st st' : CrawlState) (raised : bool),
    enqueue_links links normalized depth st = (st', raised) ->
    visited st' = visited st
    /\ crawled_pages st' = crawled_pages st
    /\ (length (queue st) <= length (queue st'))%nat
    /\ load st' <= Z.max (load st) (max_pages cfg * 2).
Proof.
  induction links as [|link rest IH]; intros st st' raised Heq; cbn in Heq.
  - injection Heq as <- _. repeat split; lia.
  - destruct (normalize link normalized) as [ln|]; [| now apply (IH _ _ raised)].
    destruct (UrlParse.nonempty ln && negb (bool_decide (ln ∈ visited st)));
      [| now apply (IH _ _ raised)].
    destruct (is_same_domain ln domain) as [same | e].
    + destruct (same && (Z.of_nat (length (queue st)) + Z.of_nat (size (visited st))
                         <? max_pages cfg * 2)) eqn:Hcap; [| now apply (IH _ _ raised)].
      apply andb_prop in Hcap as [_ Hcap]. apply Z.ltb_lt in Hcap.
      apply (IH _ _ raised) in Heq as (Hv & Hp & Hq & Hl).
      cbn [enqueue visited crawled_pages queue] in Hv, Hp, Hq.
      rewrite length_app in Hq. cbn [length] in Hq.
      repeat split; [exact Hv | exact Hp | lia |].
      unfold load in *. cbn [enqueue visited queue] in Hl.
      rewrite length_app in Hl. cbn [length] in Hl. lia.
    + injection Heq as <- _. repeat split; lia.
Qed.

(** A task up to its fetch leaves the collected pages and the queue
    alone; it either ends without touching the visited set, or adds one
    URL to it. *)
Lemma start_task_effect (item : CrawlURL) (st st' : CrawlState) (s : started) :
  start_task item st = (st', s) ->
  crawled_pages st' = crawled_pages st
  /\ queue st' = queue st
  /\ ((visited st' = visited st /\ exists r, s = Ended r)
      \/ size (visited st') = S (size (visited st))).
Proof.
  unfold Crawler.start_task. intros Heq.
  destruct (normalize (cu_url item) root_url) as [normalized|];
    [| injection Heq as <- <-; eauto 6].
  destruct (negb (UrlParse.nonempty normalized));
    [injection Heq as <- <-; eauto 6 |].
  destruct (is_same_domain normalized domain) as [[|] | e];
    [| injection Heq as <- <-; eauto 6 | injection Heq as <- <-; eauto 6].
  destruct (bool_decide (normalized ∈ visited st)) eqn:Hvis;
    [injection Heq as <- <-; eauto 6 |].
  apply bool_decide_eq_false in Hvis.
  assert (Hsize : size ({[normalized]} ∪ visited st) = S (size (visited st))).
  { rewrite size_union by set_solver. now rewrite size_singleton. }
  destruct (max_depth cfg <? cu_depth item);
    [injection Heq as <- <-; cbn; auto |].
  destruct (can_fetch parsers normalized CRAWLER_USER_AGENT) as [[|] | e];
    injection Heq as <- <-; cbn; auto.
Qed.

(** A task from its fetched page on leaves the collected pages and the
    visited set alone, and grows the queue within the cap. *)
Lemma finish_task_effect (item : CrawlURL) (normalized : string)
    (st st' : CrawlState) (r : task_result) :
  finish_task item normalized st = (st', r) ->
  crawled_pages st' = crawled_pages st
  /\ visited st' = visited st
  /\ (length (queue st) <= length (queue st'))%nat
  /\ load st' <= Z.max (load st) (max_pages cfg * 2).
Proof.
  unfold Crawler.finish_task. intros Heq.
  set (page := set_depth (fetch normalized (js_render cfg)) (cu_depth item)) in *.
  set (stc := count_crawled st) in *.
  destruct (if UrlParse.nonempty (html page)
            then (if bool_decide (Lib.md5_hex (html page) ∈ fingerprints stc)
                  then set_meta page "is_duplicate_content" "true" else page,
                  add_fingerprint stc (Lib.md5_hex (html page)))
            else (page, stc)) as [page' stf] eqn:Hfp.
  assert (Hstf : visited stf = visited st /\ queue stf = queue st
                 /\ crawled_pages stf = crawled_pages st).
  { destruct (UrlParse.nonempty (html page)); injection Hfp as _ <-;
      repeat split. }
  destruct Hstf as (Hv & Hq & Hp).
  assert (Hload : load stf = load st) by (unfold load; now rewrite Hv, Hq).
  destruct (cu_depth item <? max_depth cfg).
  - destruct (enqueue_links (links page') normalized (cu_depth item) stf)
      as [ste raised] eqn:Henq.
    apply enqueue_links_effect in Henq as (Hv' & Hp' & Hq' & Hl').
    assert (Hst' : st' = ste) by (destruct raised; now injection Heq as <- _).
    subst st'. repeat split; [congruence | congruence | now rewrite <- Hq | lia].
  - injection Heq as <- _. repeat split; [exact Hp | exact Hv | now rewrite Hq | lia].
Qed.

(** What holds of a batch of [k] tasks begun in state [st0], at every
    point of its run: the collected pages are those of [st0]; there is a
    result slot per task; the visited set has only grown; as long as it
    has not, the queue is untouched and no task awaits a page; the load
    exceeds the cap by no more than the number of tasks begun. *)
Definition batch_inv (k : nat) (st0 : CrawlState) (b : BatchRun) (st : CrawlState)
  : Prop :=
  crawled_pages st = crawled_pages st0
  /\ length (results b) = k
  /\ (length (waiting b) <= k)%nat
  /\ (size (visited st0) <= size (visited st))%nat
  /\ (size (visited st) = size (visited st0) ->
      queue st = queue st0 /\ running b = [])
  /\ load st + Z.of_nat (length (waiting b))
     <= Z.max (load st0) (max_pages cfg * 2) + Z.of_nat k.

#[local] Ltac split_batch_inv :=
  unfold batch_inv; split; [| split; [| split; [| split; [| split]]]].

Lemma start_next_inv (k : nat) (st0 : CrawlState) (b b' : BatchRun)
    (st st' : CrawlState) :
  batch_inv k st0 b st -> start_next b st = (b', st') -> batch_inv k st0 b' st'.
Proof.
  intros (Hp & Hr & Hw & Hmono & Hsame & Hl) Heq.
  unfold Crawler.start_next in Heq.
  destruct (waiting b) as [|[slot item] rest] eqn:Hwait.
  { injection Heq as <- <-. unfold batch_inv. rewrite Hwait. auto 10. }
  cbn [length] in Hw, Hl.
  destruct (start_task item st) as [st1 s] eqn:Hstart.
  apply start_task_effect in Hstart as (Hp1 & Hq1 & Hcase).
  destruct Hcase as [[Hv1 [r ->]] | Hgrow].
  - injection Heq as <- <-.
    assert (load st1 = load st) by (unfold load; now rewrite Hv1, Hq1).
    split_batch_inv; cbn [waiting running results];
      rewrite ?length_insert, ?Hv1, ?Hq1;
      [congruence | exact Hr | lia | exact Hmono | exact Hsame | lia].
  - assert (load st1 = load st + 1) by (unfold load; rewrite Hq1, Hgrow; lia).
    destruct s as [r | normalized]; injection Heq as <- <-;
      split_batch_inv; cbn [waiting running results];
      rewrite ?length_insert;
      [congruence | exact Hr | lia | lia | lia | lia
      |congruence | exact Hr | lia | lia | lia | lia].
Qed.

Lemma finish_at_inv (j k : nat) (st0 : CrawlState) (b b' : BatchRun)
    (st st' : CrawlState) :
  batch_inv k st0 b st -> finish_at j b st = (b', st') -> batch_inv k st0 b' st'.
Proof.
  intros (Hp & Hr & Hw & Hmono & Hsame & Hl) Heq.
  unfold Crawler.finish_at in Heq.
  destruct (running b !! j) as [[[slot item] normalized]|] eqn:Hj.
  2:{ injection Heq as <- <-. unfold batch_inv. auto 10. }
  destruct (finish_task item normalized st) as [st1 r] eqn:Hfinish.
  injection Heq as <- <-.
  apply finish_task_effect in Hfinish as (Hp1 & Hv1 & Hq1 & Hl1).
  assert (Hgrown : size (visited st) <> size (visited st0)).
  { intros Hs. destruct (Hsame Hs) as [_ Hnil]. rewrite Hnil in Hj. discriminate. }
  split_batch_inv; cbn [waiting running results];
    rewrite ?length_insert, ?Hv1;
    [congruence | exact Hr | exact Hw | exact Hmono | intros Hs; contradiction | lia].
Qed.

Lemma batch_step_inv (choice k : nat) (st0 : CrawlState) (b b' : BatchRun)
    (st st' : CrawlState) :
  batch_inv k st0 b st -> batch_step choice b st = (b', st') ->
  batch_inv k st0 b' st'.
Proof.
  intros Hinv Heq. unfold Crawler.batch_step in Heq.
  destruct choice, (waiting b), (running b);
    try destruct (_ <? _);
    eauto using start_next_inv, finish_at_inv.
Qed.

Lemma batch_steps_inv (schedule : nat -> nat) (k : nat) (st0 : CrawlState)
    (steps : nat) :
  forall (n : nat) (b b' : BatchRun) (st st' : CrawlState),
    batch_inv k st0 b st -> batch_steps schedule steps n b st = (b', st') ->
    batch_inv k st0 b' st'.
Proof.
  induction steps as [|steps IH]; intros n b b' st st' Hinv Heq;
    cbn [Crawler.batch_steps] in Heq.
  - now injection Heq as <- <-.
  - destruct (batch_step (schedule n) b st) as [b1 st1] eqn:Hstep.
    eapply IH; [| exact Heq]. eapply batch_step_inv; eauto.
Qed.

Lemma length_indexed {A} (l : list A) :
  forall from : nat, length (indexed from l) = length l.
Proof. induction l as [|x l IH]; intros from; cbn; [reflexivity | now rewrite IH]. Qed.

(** A batch of [k] tasks, however it is scheduled: as many results; the
    visited set only grows; when it did not grow the queue is untouched;
    the load stays within the cap plus [k]. *)
Lemma run_batch_effect (schedule : nat -> nat) (batch : list CrawlURL)
    (st st' : CrawlState) (rs : list task_result) :
  run_batch schedule batch st = (st', rs) ->
  crawled_pages st' = crawled_pages st
  /\ length rs = length batch
  /\ (size (visited st) <= size (visited st'))%nat
  /\ (size (visited st') = size (visited st) -> queue st' = queue st)
  /\ load st' <= Z.max (load st) (max_pages cfg * 2) + Z.of_nat (length batch).
Proof.
  unfold Crawler.run_batch. intros Heq.
  destruct (batch_steps schedule (2 * length batch) 0
              {| waiting := indexed 0 batch; running := [];
                 results := replicate (length batch) TaskNone |} st)
    as [b st1] eqn:Hsteps.
  injection Heq as <- <-.
  apply (batch_steps_inv schedule (length batch) st) in Hsteps
    as (Hp & Hr & Hw & Hmono & Hsame & Hl).
  - split; [exact Hp | split; [exact Hr | split; [exact Hmono | split; [| lia]]]].
    intros Hs. now apply Hsame.
  - split_batch_inv; cbn [waiting running results];
      rewrite ?length_replicate, ?length_indexed; auto; try lia.
Qed.

(** Tasks left to start count twice, tasks awaiting their page once. *)
Definition pending (b : BatchRun) : nat :=
  (2 * length (waiting b) + length (running b))%nat.

Lemma start_next_pending (b b' : BatchRun) (st st' : CrawlState) :
  waiting b <> [] -> start_next b st = (b', st') ->
  (pending b' < pending b)%nat.
Proof.
  intros Hne Heq. unfold Crawler.start_next in Heq. unfold pending.
  destruct (waiting b) as [|[slot item] rest]; [contradiction|].
  destruct (start_task item st) as [st1 [r | normalized]];
    injection Heq as <- <-; cbn [waiting running length];
    rewrite ?length_app; cbn [length]; lia.
Qed.

Lemma finish_at_pending (j : nat) (b b' : BatchRun) (st st' : CrawlState) :
  (j < length (running b))%nat -> finish_at j b st = (b', st') ->
  (pending b' < pending b)%nat.
Proof.
  intros Hj Heq. unfold Crawler.finish_at in Heq. unfold pending.
  destruct (lookup_lt_is_Some_2 _ _ Hj) as [[[slot item] normalized] Hlook].
  rewrite Hlook in Heq.
  destruct (finish_task item normalized st) as [st1 r].
  injection Heq as <- <-. cbn [waiting running].
  rewrite length_delete by eauto. lia.
Qed.

(** A scheduling step always advances a batch that has work left. *)
Lemma batch_step_pending (choice : nat) (b b' : BatchRun) (st st' : CrawlState) :
  batch_step choice b st = (b', st') ->
  (pending b' <= Nat.pred (pending b))%nat.
Proof.
  intros Heq.
  destruct (Nat.eq_dec (pending b) 0%nat) as [Hzero | Hpos].
  - unfold pending in Hzero.
    assert (Hw : waiting b = []) by (destruct (waiting b); [reflexivity | cbn in Hzero; lia]).
    assert (Hr : running b = []) by (destruct (running b); [reflexivity | cbn in Hzero; lia]).
    unfold Crawler.batch_step, Crawler.start_next in Heq. rewrite Hw, Hr in Heq.
    destruct choice; injection Heq as <- <-; unfold pending; rewrite Hw, Hr; cbn; lia.
  - enough (pending b' < pending b)%nat by lia.
    unfold Crawler.batch_step in Heq.
    destruct choice as [|c], (waiting b) as [|w ws] eqn:Hw,
             (running b) as [|r rs] eqn:Hr;
      try destruct (_ <? _);
      try (apply start_next_pending in Heq; [exact Heq | now rewrite Hw]);
      try (apply finish_at_pending in Heq; [exact Heq | rewrite Hr]);
      try (apply Nat.mod_upper_bound; discriminate);
      try (cbn [length]; lia).
    all: exfalso; apply Hpos; unfold pending; now rewrite Hw, Hr.
Qed.

Lemma batch_steps_pending (schedule : nat -> nat) (steps : nat) :
  forall (n : nat) (b b' : BatchRun) (st st' : CrawlState),
    batch_steps schedule steps n b st = (b', st') ->
    (pending b' <= pending b - steps)%nat.
Proof.
  induction steps as [|steps IH]; intros n b b' st st' Heq;
    cbn [Crawler.batch_steps] in Heq.
  - injection Heq as <- <-. lia.
  - destruct (batch_step (schedule n) b st) as [b1 st1] eqn:Hstep.
    apply batch_step_pending in Hstep. apply IH in Heq. lia.
Qed.

(** Whatever the schedule, the steps [run_batch] takes run every task of
    the batch to its end. *)
Lemma run_batch_completes (schedule : nat -> nat) (batch : list CrawlURL)
    (st st' : CrawlState) (b : BatchRun) :
  batch_steps schedule (2 * length batch) 0
    {| waiting := indexed 0 batch; running := [];
       results := replicate (length batch) TaskNone |} st = (b, st') ->
  waiting b = [] /\ running b = [].
Proof.
  intros Heq. apply batch_steps_pending in Heq.
  unfold pending in Heq. cbn [waiting running length] in Heq.
  rewrite length_indexed in Heq.
  split; [destruct (waiting b) | destruct (running b)];
    try reflexivity; cbn [length] in Heq; lia.
Qed.

Lemma collect_effect (rs : list task_result) :
  forall st : CrawlState,
    queue (fold_left collect rs st) = queue st
    /\ visited (fold_left collect rs st) = visited st
    /\ (length (crawled_pages (fold_left collect rs st))
        <= length (crawled_pages st) + length rs)%nat.
Proof.
  induction rs as [|r rs IH]; intros st; cbn [fold_left].
  - cbn. repeat split; lia.
  - destruct (IH (collect st r)) as (Hq & Hv & Hp).
    rewrite Hq, Hv. cbn [length].
    destruct r; cbn [collect queue visited crawled_pages] in *;
      rewrite ?length_app in Hp; cbn [length] in Hp; repeat split; lia.
Qed.

(** The number of collected pages respects the cap. *)
Definition within_cap (st : CrawlState) : Prop :=
  Z.of_nat (length (crawled_pages st)) <= max_pages cfg.

(** One iteration, with a positive concurrency and any schedule: the
    page cap is kept, the load stays under the larger of its old value and
    [2 * max_pages + 2 * concurrency], and either the visited set grew or
    the queue shrank. *)
Lemma loop_body_effect (schedule : nat -> nat) (st : CrawlState) :
  1 <= concurrency cfg ->
  loop_continues cfg st = true ->
  within_cap (loop_body schedule st)
  /\ load (loop_body schedule st)
     <= Z.max (load st) (max_pages cfg * 2 + concurrency cfg * 2)
  /\ ((size (visited st) < size (visited (loop_body schedule st)))%nat
      \/ (size (visited (loop_body schedule st)) = size (visited st)
          /\ (length (queue (loop_body schedule st)) < length (queue st))%nat)).
Proof.
  intros Hc Hcont. unfold loop_continues in Hcont.
  destruct (queue st) as [|item0 q0] eqn:Hqueue; [discriminate|].
  apply Z.ltb_lt in Hcont.
  unfold Crawler.loop_body.
  set (n := Z.to_nat (batch_size cfg st)).
  assert (Hn : (1 <= n)%nat /\ (n <= length (queue st))%nat
               /\ Z.of_nat n <= max_pages cfg - Z.of_nat (length (crawled_pages st))
               /\ Z.of_nat n <= concurrency cfg * 2).
  { unfold n, batch_size. rewrite Hqueue. cbn [length]. lia. }
  destruct Hn as (Hn1 & Hnq & Hnp & Hnc).
  set (st0 := {| queue := skipn n (queue st); visited := visited st;
                 fingerprints := fingerprints st; stats := stats st;
                 crawled_pages := crawled_pages st |}).
  destruct (run_batch schedule (firstn n (queue st)) st0) as [st1 rs] eqn:Hbatch.
  apply run_batch_effect in Hbatch as (Hp & Hlen & Hmono & Hsame & Hl).
  destruct (collect_effect rs st1) as (Hq' & Hv' & Hp').
  rewrite length_firstn in Hlen, Hl.
  assert (Hmin : Nat.min n (length (queue st)) = n) by lia.
  rewrite Hmin in Hlen, Hl.
  assert (Hq0 : length (queue st0) = (length (queue st) - n)%nat)
    by (cbn; apply length_skipn).
  assert (Hl0 : load st0 = load st - Z.of_nat n) by (unfold load; rewrite Hq0; cbn; lia).
  unfold st0 in Hp, Hmono, Hsame at 1.
  cbn [visited crawled_pages] in Hp, Hmono, Hsame.
  split; [| split].
  - unfold within_cap. rewrite Hp, Hlen in Hp'. lia.
  - unfold load in *. rewrite Hq', Hv'. lia.
  - rewrite Hv', Hq'.
    destruct (Nat.eq_dec (size (visited st1)) (size (visited st))) as [Heq | Hne].
    + right. split; [exact Heq|]. rewrite (Hsame Heq), Hq0, <- Hqueue. lia.
    + left. lia.
Qed.

(** C8 (amended): with a concurrency of at least 1 and a non-negative
    [max_pages], from any state that respects the page cap (the seeded
    state of [run] does) and however the tasks of each batch are
    scheduled, the BFS loop stops after finitely many iterations, and the
    pages it has then collected number at most [max_pages]. *)
Theorem C8_bfs_halts_within_cap :
  1 <= concurrency cfg ->
  0 <= max_pages cfg ->
  forall (schedules : nat -> nat -> nat) (st : CrawlState),
    within_cap st ->
    exists (fuel : nat) (final : CrawlState),
      bfs_loop schedules fuel 0 st = Some final
      /\ loop_continues cfg final = false
      /\ Z.of_nat (length (crawled_pages final)) <= max_pages cfg.
Proof.
  intros Hc Hm schedules st0 Hcap0.
  set (bound := Z.max (load st0) (max_pages cfg * 2 + concurrency cfg * 2)).
  assert (Hmain : forall (a b i : nat) (st : CrawlState),
             within_cap st -> load st <= bound ->
             bound - Z.of_nat (size (visited st)) <= Z.of_nat a ->
             (length (queue st) <= b)%nat ->
             exists (fuel : nat) (final : CrawlState),
               bfs_loop schedules fuel i st = Some final
               /\ loop_continues cfg final = false
               /\ Z.of_nat (length (crawled_pages final)) <= max_pages cfg).
  { induction a as [a IHa] using lt_wf_ind.
    induction b as [b IHb] using lt_wf_ind.
    intros i st Hcap Hload Ha Hb.
    destruct (loop_continues cfg st) eqn:Hcont.
    - set (next := loop_body (schedules i) st).
      destruct (loop_body_effect (schedules i) st Hc Hcont)
        as (Hcap' & Hload' & Hprog).
      fold next in Hcap', Hload', Hprog.
      assert (Hload'' : load next <= bound) by (unfold bound in *; lia).
      assert (Hnext : exists (fuel : nat) (final : CrawlState),
                 bfs_loop schedules fuel (S i) next = Some final
                 /\ loop_continues cfg final = false
                 /\ Z.of_nat (length (crawled_pages final)) <= max_pages cfg).
      { destruct Hprog as [Hgrow | [Hsame Hshrink]].
        - assert (Hpos : (1 <= a)%nat) by (unfold load in Hload''; lia).
          apply (IHa (a - 1)%nat ltac:(lia) (length (queue next)) (S i) next);
            [exact Hcap' | exact Hload'' | lia | lia].
        - apply (IHb (b - 1)%nat ltac:(lia) (S i) next);
            [exact Hcap' | exact Hload'' | lia | lia]. }
      destruct Hnext as (fuel & final & Hrun & Hstop & Hpages).
      exists (S fuel), final. split; [| split; assumption].
      cbn [Crawler.bfs_loop]. now rewrite Hcont.
    - exists 0%nat, st. split; [| split; [exact Hcont | exact Hcap]].
      cbn [Crawler.bfs_loop]. now rewrite Hcont. }
  apply (Hmain (Z.to_nat bound) (length (queue st0)) 0%nat st0);
    [exact Hcap0 | unfold bound; lia | lia | lia].
Qed.

(** The seeded state of [run] holds no page yet. *)
Lemma seed_within_cap (sitemap_urls : list string) :
  0 <= max_pages cfg -> within_cap (seed root_url sitemap_urls).
Proof. intros Hm. unfold within_cap. cbn. lia. Qed.

End CrawlTermination.

Section CrawlExamples.
#[local] Existing Instance Demo.ip.
#[local] Existing Instance Demo.html.
#[local] Existing Instance Demo.robots.

(** Pages arrive in the order the tasks asked for them. *)
Definition in_turn : nat -> nat -> nat := fun _ _ => 0%nat.

(** The page asked for last arrives first, once two tasks are waiting. *)
Definition last_first : nat -> nat -> nat :=
  fun _ k => match k with 0 | 1 => 0 | _ => 2 end%nat.

Lemma C8_bfs_halts_within_cap_witness :
  exists (fuel : nat) (final : Crawler.CrawlState),
    Crawler.bfs_loop Demo.three_pages ∅ Demo.small_crawl
                     "https://example.com/" "example.com" last_first fuel 0
                     (Crawler.seed "https://example.com/" [])
    = Some final
    /\ Crawler.loop_continues Demo.small_crawl final = false
    /\ Z.of_nat (length (Crawler.crawled_pages final)) <= 2.
Proof.
  apply (C8_bfs_halts_within_cap Demo.three_pages ∅ Demo.small_crawl
           "https://example.com/" "example.com").
  - vm_compute. discriminate.
  - vm_compute. discriminate.
  - unfold within_cap. vm_compute. discriminate.
Defined.

(** The same crawl, run: two iterations, two pages, the root and [/a]. *)
Lemma small_crawl_runs :
  option_map (fun st => map Base.url (Crawler.crawled_pages st))
    (Crawler.bfs_loop Demo.three_pages ∅ Demo.small_crawl
                      "https://example.com/" "example.com" in_turn 2 0
                      (Crawler.seed "https://example.com/" []))
  = Some ["https://example.com/"; "https://example.com/a"].
Proof. vm_compute. reflexivity. Qed.

(** Each task runs to its end before the next one starts. *)
Definition one_by_one : nat -> nat := fun k => Nat.b2n (Nat.odd k).

(** Scheduled one by one, a batch is [crawl_url] applied to its items in
    turn. *)
Lemma small_crawl_batch_one_by_one :
  let st := Crawler.seed "https://example.com/" ["https://example.com/b"] in
  Crawler.run_batch Demo.three_pages ∅ Demo.small_crawl
                    "https://example.com/" "example.com"
                    one_by_one (Crawler.queue st) st
  = let '(st1, r1) :=
      Crawler.crawl_url Demo.three_pages ∅ Demo.small_crawl
        "https://example.com/" "example.com"
        (Crawler.mkCrawlURL "https://example.com/" 0 None "manual") st in
    let '(st2, r2) :=
      Crawler.crawl_url Demo.three_pages ∅ Demo.small_crawl
        "https://example.com/" "example.com"
        (Crawler.mkCrawlURL "https://example.com/b" 1 None "sitemap") st1 in
    (st2, [r1; r2]).
Proof. vm_compute. reflexivity. Qed.

(** The schedule shows in the queue: when both tasks of the first batch
    have marked their URL visited before either page arrives, the links
    are checked against a larger visited set. *)
Lemma schedule_shapes_queue :
  let st := Crawler.seed "https://example.com/" ["https://example.com/b"] in
  let after schedule :=
    map Crawler.cu_url
        (Crawler.queue
           (Crawler.loop_body Demo.three_pages ∅ Demo.small_crawl
              "https://example.com/" "example.com" schedule st)) in
  after one_by_one = ["https://example.com/a"; "https://example.com/b"]
  /\ after (in_turn 0%nat) = ["https://example.com/a"; "https://example.com/a"].
Proof. vm_compute. split; reflexivity. Qed.

Lemma zero_concurrency_spins (schedules : nat -> nat -> nat) (fuel : nat) :
  forall i : nat,
    Crawler.bfs_loop Demo.three_pages ∅ Demo.zero_concurrency
                     "https://example.com/" "example.com" schedules fuel i
                     (Crawler.seed "https://example.com/" [])
    = None.
Proof.
  induction fuel as [|fuel IH]; intros i; [vm_compute; reflexivity|].
  cbn [Crawler.bfs_loop].
  replace (Crawler.loop_continues Demo.zero_concurrency
             (Crawler.seed "https://example.com/" []))
    with true by (vm_compute; reflexivity).
  replace (Crawler.loop_body Demo.three_pages ∅ Demo.zero_concurrency
             "https://example.com/" "example.com" (schedules i)
             (Crawler.seed "https://example.com/" []))
    with (Crawler.seed "https://example.com/" []) by (vm_compute; reflexivity).
  apply IH.
Qed.

(** C8 as stated fails: with [concurrency = 0] every batch is empty, the
    queue keeps the root URL, and under every schedule the loop is still
    running after any number of iterations. *)
Lemma C8_counterexample :
  ~ exists (schedules : nat -> nat -> nat) (fuel : nat)
           (final : Crawler.CrawlState),
      Crawler.bfs_loop Demo.three_pages ∅ Demo.zero_concurrency
                       "https://example.com/" "example.com" schedules fuel 0
                       (Crawler.seed "https://example.com/" [])
      = Some final.
Proof.
  intros (schedules & fuel & final & Hrun).
  rewrite zero_concurrency_spins in Hrun. discriminate.
Qed.

End CrawlExamples.

(** ** URL normalisation: fixed points and idempotence *)

Section StringFacts.
Import PyStr.

(** Every character of [s] satisfies [p]. *)
Fixpoint all_chars (p : ascii -> bool) (s : string) : bool :=
  match s with
  | EmptyString => true
  | String c r => p c && all_chars p r
  end.

Lemma all_chars_app (p : ascii -> bool) (a b : string) :
  all_chars p (a ++ b) = all_chars p a && all_chars p b.
Proof.
  induction a as [|c a IH]; cbn; [reflexivity|].
  now rewrite IH, andb_assoc.
Qed.

Lemma all_chars_impl (p q : ascii -> bool) (s : string) :
  (forall c, p c = true -> q c = true) ->
  all_chars p s = true -> all_chars q s = true.
Proof.
  intros Hpq. induction s as [|c s IH]; cbn; [reflexivity|].
  intros Hs. apply andb_prop in Hs as [Hc Hs].
  now rewrite (Hpq c Hc), IH.
Qed.

Lemma append_assoc (a b c : string) : ((a ++ b) ++ c = a ++ (b ++ c))%string.
Proof. induction a as [|x a IH]; cbn; [reflexivity | now rewrite IH]. Qed.

Lemma append_empty_r (a : string) : (a ++ "" = a)%string.
Proof. induction a as [|x a IH]; cbn; [reflexivity | now rewrite IH]. Qed.

Lemma has_char_none (c : ascii) (s : string) :
  all_chars (fun x => negb (Ascii.eqb x c)) s = true -> has_char c s = false.
Proof.
  induction s as [|x s IH]; cbn; [reflexivity|].
  intros Hs. apply andb_prop in Hs as [Hx Hs].
  apply negb_true_iff in Hx. now rewrite Hx, IH.
Qed.

Lemma remove_chars_none (p : ascii -> bool) (s : string) :
  all_chars (fun x => negb (p x)) s = true -> remove_chars p s = s.
Proof.
  induction s as [|x s IH]; cbn; [reflexivity|].
  intros Hs. apply andb_prop in Hs as [Hx Hs].
  apply negb_true_iff in Hx. now rewrite Hx, IH.
Qed.

Lemma rstrip_while_none (p : ascii -> bool) (s : string) :
  all_chars (fun x => negb (p x)) s = true -> rstrip_while p s = s.
Proof.
  induction s as [|x s IH]; cbn; [reflexivity|].
  intros Hs. apply andb_prop in Hs as [Hx Hs].
  apply negb_true_iff in Hx. rewrite (IH Hs), Hx.
  now destruct s.
Qed.

Lemma lstrip_while_none (p : ascii -> bool) (s : string) :
  all_chars (fun x => negb (p x)) s = true -> lstrip_while p s = s.
Proof.
  destruct s as [|x s]; cbn; [reflexivity|].
  intros Hs. apply andb_prop in Hs as [Hx Hs].
  apply negb_true_iff in Hx. now rewrite Hx.
Qed.

(** [break] stops exactly between [a] and [b] when no character of [a]
    satisfies [p] and [b] is empty or starts with one that does. *)
Definition starts_with_class (p : ascii -> bool) (b : string) : bool :=
  match b with
  | EmptyString => true
  | String c _ => p c
  end.

Lemma break_app (p : ascii -> bool) (a b : string) :
  all_chars (fun x => negb (p x)) a = true ->
  starts_with_class p b = true ->
  break p (a ++ b) = (a, b).
Proof.
  intros Ha Hb. induction a as [|x a IH]; cbn.
  - destruct b as [|c b]; cbn in *; [reflexivity | now rewrite Hb].
  - cbn in Ha. apply andb_prop in Ha as [Hx Ha].
    apply negb_true_iff in Hx. now rewrite Hx, (IH Ha).
Qed.

Lemma split_once_none (c : ascii) (s : string) :
  all_chars (fun x => negb (Ascii.eqb x c)) s = true -> split_once c s = None.
Proof.
  intros Hs. unfold split_once.
  rewrite <- (append_empty_r s).
  rewrite (break_app (Ascii.eqb c) s "").
  - reflexivity.
  - eapply all_chars_impl; [| exact Hs]. intros x Hx. cbn in *.
    now rewrite Ascii.eqb_sym.
  - reflexivity.
Qed.

Lemma split_once_app (c : ascii) (a b : string) :
  all_chars (fun x => negb (Ascii.eqb x c)) a = true ->
  split_once c (a ++ String c b) = Some (a, b).
Proof.
  intros Ha. unfold split_once.
  rewrite (break_app (Ascii.eqb c) a (String c b)).
  - reflexivity.
  - eapply all_chars_impl; [| exact Ha]. intros x Hx. cbn in *.
    now rewrite Ascii.eqb_sym.
  - cbn. apply Ascii.eqb_refl.
Qed.

Lemma rstrip_while_idem (p : ascii -> bool) (s : string) :
  rstrip_while p (rstrip_while p s) = rstrip_while p s.
Proof.
  induction s as [|c s IH]; cbn; [reflexivity|].
  destruct (rstrip_while p s) as [|d r] eqn:Hr.
  - destruct (p c) eqn:Hc; cbn; [reflexivity | now rewrite Hc].
  - cbn [rstrip_while] in *. rewrite IH. reflexivity.
Qed.

Lemma rstrip_while_all_chars (p q : ascii -> bool) (s : string) :
  all_chars q s = true -> all_chars q (rstrip_while p s) = true.
Proof.
  induction s as [|c s IH]; cbn; [reflexivity|].
  intros Hs. apply andb_prop in Hs as [Hc Hs]. specialize (IH Hs).
  destruct (rstrip_while p s) as [|d r].
  - destruct (p c); cbn; [reflexivity | now rewrite Hc].
  - cbn [all_chars] in *. now rewrite Hc, IH.
Qed.

End StringFacts.

Section NormalShape.
Context `{Lib.IpAddress}.
Import Py PyStr UrlParse Crawler.

(** Printable ASCII other than the space. *)
Definition url_char (c : ascii) : bool :=
  let n := nat_of_ascii c in (32 <? n)%nat && (n <? 127)%nat.

Definition netloc_char (c : ascii) : bool :=
  url_char c && negb (ascii_in c "/?#[]") && negb (is_upper c).

Definition path_char (c : ascii) : bool :=
  url_char c && negb (ascii_in c "?#;").

Definition query_char (c : ascii) : bool :=
  url_char c && negb (Ascii.eqb c "#").

(** A URL without parameters and fragment, written out: the scheme is
    http or https, the network location is not empty, lowercase and free
    of brackets, the path is empty or starts with a slash, and every
    character is printable, non-space ASCII. *)
Record normal_shape (sch host path q : string) : Prop := {
  shape_scheme : sch = "http" \/ sch = "https";
  shape_host : nonempty host = true;
  shape_host_chars : all_chars netloc_char host = true;
  shape_path_start : starts_with_class (Ascii.eqb "/") path = true;
  shape_path_chars : all_chars path_char path = true;
  shape_query_chars : all_chars query_char q = true;
}.

(** What follows the network location. *)
Definition tail (path q : string) : string :=
  if nonempty q then (path ++ "?" ++ q)%string else path.

Definition written (sch host path q : string) : string :=
  (sch ++ "://" ++ host ++ tail path q)%string.

Ltac by_char c :=
  destruct c as [[|] [|] [|] [|] [|] [|] [|] [|]]; vm_compute; congruence.

Lemma url_char_not_unsafe (c : ascii) :
  url_char c = true -> negb (unsafe_url_byte c) = true.
Proof. by_char c. Qed.

Lemma url_char_not_space (c : ascii) :
  url_char c = true -> negb (is_space c) = true.
Proof. by_char c. Qed.

Lemma netloc_char_url (c : ascii) : netloc_char c = true -> url_char c = true.
Proof. by_char c. Qed.

Lemma path_char_url (c : ascii) : path_char c = true -> url_char c = true.
Proof. by_char c. Qed.

Lemma query_char_url (c : ascii) : query_char c = true -> url_char c = true.
Proof. by_char c. Qed.

Lemma netloc_char_not_delim (c : ascii) :
  netloc_char c = true -> negb (ascii_in c "/?#") = true.
Proof. by_char c. Qed.

Lemma netloc_char_not (c d : ascii) :
  ascii_in d "/?#[]" = true -> netloc_char c = true -> negb (Ascii.eqb c d) = true.
Proof.
  intros Hd Hc. destruct (Ascii.eqb_spec c d) as [-> | _]; [| reflexivity].
  unfold netloc_char in Hc. rewrite Hd in Hc.
  rewrite andb_false_r in Hc. discriminate.
Qed.

Lemma path_char_not (c d : ascii) :
  ascii_in d "?#;" = true -> path_char c = true -> negb (Ascii.eqb c d) = true.
Proof.
  intros Hd Hc. destruct (Ascii.eqb_spec c d) as [-> | _]; [| reflexivity].
  unfold path_char in Hc. rewrite Hd in Hc.
  rewrite andb_false_r in Hc. discriminate.
Qed.

Lemma query_char_not_hash (c : ascii) :
  query_char c = true -> negb (Ascii.eqb c "#") = true.
Proof. unfold query_char. intros Hc. now apply andb_prop in Hc as [_ Hc]. Qed.

Lemma netloc_char_lower (c : ascii) : netloc_char c = true -> lower_char c = c.
Proof. by_char c. Qed.

Lemma lower_netloc (host : string) :
  all_chars netloc_char host = true -> lower host = host.
Proof.
  unfold lower. induction host as [|c host IH]; cbn; [reflexivity|].
  intros Hs. apply andb_prop in Hs as [Hc Hs].
  now rewrite (netloc_char_lower c Hc), IH.
Qed.

Lemma tail_chars (p : ascii -> bool) (path q : string) :
  p "?"%char = true ->
  all_chars p path = true -> all_chars p q = true ->
  all_chars p (tail path q) = true.
Proof.
  intros Hq Hpath Hquery. unfold tail.
  destruct (nonempty q); [| exact Hpath].
  rewrite all_chars_app, Hpath. cbn. now rewrite Hq, Hquery.
Qed.

Lemma written_chars (sch host path q : string) :
  normal_shape sch host path q ->
  all_chars url_char (written sch host path q) = true.
Proof.
  intros [Hsch _ Hhost _ Hpath Hq]. unfold written.
  rewrite !all_chars_app.
  rewrite (all_chars_impl _ _ host netloc_char_url Hhost).
  rewrite (tail_chars url_char path q eq_refl
             (all_chars_impl _ _ path path_char_url Hpath)
             (all_chars_impl _ _ q query_char_url Hq)).
  destruct Hsch as [-> | ->]; reflexivity.
Qed.

(** Assembling the components gives the written form. *)
Lemma urlunparse_written (sch host path q : string) :
  normal_shape sch host path q ->
  urlunparse (mkParse sch host path "" q "") = written sch host path q.
Proof.
  intros [Hsch Hhost _ Hstart _ _].
  unfold urlunparse, urlunsplit, written, tail.
  cbn [UrlParse.params UrlParse.path UrlParse.scheme UrlParse.netloc
       UrlParse.query UrlParse.fragment].
  change (nonempty "") with false. cbn match.
  rewrite Hhost. cbn [orb].
  assert (Hp : (if nonempty path && negb (startswith path "/")
                then ("/" ++ path)%string else path) = path).
  { destruct path as [|c path]; [reflexivity|].
    cbn [starts_with_class] in Hstart. apply Ascii.eqb_eq in Hstart.
        subst c. reflexivity. }
  rewrite Hp.
  assert (Hs : nonempty sch = true) by (destruct Hsch as [-> | ->]; reflexivity).
  rewrite Hs.
  destruct (nonempty q); rewrite ?append_assoc; reflexivity.
Qed.

(** Splitting the written form gives the components back. *)
Lemma urlsplit_written (sch host path q default : string) :
  normal_shape sch host path q ->
  urlsplit (written sch host path q) default = Ret (mkSplit sch host path q "").
Proof.
  intros Hshape.
  pose proof (written_chars _ _ _ _ Hshape) as Hchars.
  destruct Hshape as [Hsch Hhost Hhc Hstart Hpc Hqc].
  unfold urlsplit.
  rewrite (lstrip_while_none c0_control_or_space (written sch host path q)).
  2:{ eapply all_chars_impl; [| exact Hchars]. intros c. by_char c. }
  rewrite (remove_chars_none unsafe_url_byte (written sch host path q)).
  2:{ eapply all_chars_impl; [| exact Hchars]. apply url_char_not_unsafe. }
  set (d := remove_chars unsafe_url_byte _).
  assert (Hscheme : split_scheme d (written sch host path q)
                    = (sch, ("//" ++ host ++ tail path q)%string)).
  { unfold split_scheme, written.
    change (sch ++ "://" ++ host ++ tail path q)%string
      with (sch ++ String ":" ("//" ++ host ++ tail path q))%string.
    rewrite split_once_app by (destruct Hsch as [-> | ->]; reflexivity).
    destruct Hsch as [-> | ->]; reflexivity. }
  rewrite Hscheme.
  change ("//" ++ host ++ tail path q)%string
    with (String "/" (String "/" (host ++ tail path q))).
  cbv beta iota.
  rewrite (break_app (fun c => ascii_in c "/?#") host (tail path q)).
  2:{ eapply all_chars_impl; [| exact Hhc]. apply netloc_char_not_delim. }
  2:{ unfold tail. destruct (nonempty q).
      - destruct path as [|c path]; [reflexivity|].
        cbn [starts_with_class] in Hstart. apply Ascii.eqb_eq in Hstart.
        subst c. reflexivity.
      - destruct path as [|c path]; [reflexivity|].
        cbn [starts_with_class] in Hstart. apply Ascii.eqb_eq in Hstart.
        subst c. reflexivity. }
  assert (Hbr : netloc_brackets_ok host = true).
  { unfold netloc_brackets_ok.
    rewrite (has_char_none "[" host), (has_char_none "]" host); [reflexivity | |].
    - eapply all_chars_impl; [| exact Hhc].
      intros c. now apply (netloc_char_not c "]").
    - eapply all_chars_impl; [| exact Hhc].
      intros c. now apply (netloc_char_not c "["). }
  rewrite Hbr. cbn [negb].
  assert (Hnohash : split_once "#" (tail path q) = None).
  { apply split_once_none. apply tail_chars; [reflexivity | |].
    - eapply all_chars_impl; [| exact Hpc].
      intros c. now apply (path_char_not c "#").
    - eapply all_chars_impl; [| exact Hqc]. apply query_char_not_hash. }
  rewrite Hnohash.
  assert (Hpq : all_chars (fun x => negb (Ascii.eqb x "?")) path = true).
  { eapply all_chars_impl; [| exact Hpc].
    intros c. now apply (path_char_not c "?"). }
  unfold tail. destruct (nonempty q) eqn:Hq.
  - change (path ++ "?" ++ q)%string with (path ++ String "?" q)%string.
    now rewrite split_once_app.
  - rewrite split_once_none by exact Hpq.
    unfold nonempty in Hq. apply negb_false_iff, String.eqb_eq in Hq.
    now subst q.
Qed.

Lemma urlparse_written (sch host path q default : string) :
  normal_shape sch host path q ->
  urlparse (written sch host path q) default = Ret (mkParse sch host path "" q "").
Proof.
  intros Hshape. unfold urlparse.
  rewrite (urlsplit_written _ _ _ _ default Hshape). cbn [bind].
  cbn [s_scheme s_netloc s_path s_query s_fragment].
  destruct Hshape as [Hsch _ _ _ Hpc _].
  rewrite (has_char_none ";" path).
  - now rewrite andb_false_r.
  - eapply all_chars_impl; [| exact Hpc].
    intros c. now apply (path_char_not c ";").
Qed.

End NormalShape.

Section QueryRoundTrip.
Import Py PyStr UrlParse Crawler.

(** The characters [quote_plus] writes. *)
Definition encoded_char (c : ascii) : bool :=
  url_char c && negb (ascii_in c "#&= ").

(** What [quote_plus] writes for one character. *)
Definition quoted (c : ascii) : string :=
  if Ascii.eqb c " " then "+"
  else if always_safe c then String c ""
  else String "%" (String (hex_digit (nat_of_ascii c / 16))
                          (String (hex_digit (nat_of_ascii c mod 16)) "")).

Ltac each_char c :=
  destruct c as [[|] [|] [|] [|] [|] [|] [|] [|]]; vm_compute;
  repeat split; congruence.

Lemma quote_plus_cons (c : ascii) (s : string) :
  quote_plus (String c s) = (quoted c ++ quote_plus s)%string.
Proof.
  unfold quoted. cbn [quote_plus].
  destruct (Ascii.eqb c " "); [reflexivity|].
  destruct (always_safe c); reflexivity.
Qed.

Lemma quoted_chars (c : ascii) : all_chars encoded_char (quoted c) = true.
Proof. each_char c. Qed.

Lemma safe_char_plain (c : ascii) :
  always_safe c = true -> Ascii.eqb c "%" = false /\ plus_to_space c = c.
Proof. each_char c. Qed.

Lemma hex_digits_decode (c : ascii) :
  let hi := hex_digit (nat_of_ascii c / 16) in
  let lo := hex_digit (nat_of_ascii c mod 16) in
  plus_to_space hi = hi /\ plus_to_space lo = lo
  /\ match hex_value hi, hex_value lo with
     | Some a, Some b => ascii_of_nat (16 * a + b) = c
     | _, _ => False
     end.
Proof. each_char c. Qed.

Lemma unquote_plain (c : ascii) (r : string) :
  Ascii.eqb c "%" = false -> unquote (String c r) = String c (unquote r).
Proof. intros Hc. cbn [unquote]. now rewrite Hc. Qed.

Lemma unquote_escape (hi lo : ascii) (a b : nat) (r : string) :
  hex_value hi = Some a -> hex_value lo = Some b ->
  unquote (String "%" (String hi (String lo r)))
  = String (ascii_of_nat (16 * a + b)) (unquote r).
Proof.
  intros Ha Hb. cbn [unquote].
  change (Ascii.eqb "%" "%") with true. cbv iota.
  now rewrite Ha, Hb.
Qed.

Lemma unquote_quoted (c : ascii) (r : string) :
  unquote (map_chars plus_to_space (quoted c ++ r))
  = String c (unquote (map_chars plus_to_space r)).
Proof.
  unfold quoted.
  destruct (Ascii.eqb_spec c " ") as [-> | _]; [reflexivity|].
  destruct (always_safe c) eqn:Hsafe.
  - destruct (safe_char_plain c Hsafe) as [Hpc Hplus].
    cbn [String.append map_chars]. rewrite Hplus. now apply unquote_plain.
  - pose proof (hex_digits_decode c) as Hhex. cbv zeta in Hhex.
    destruct Hhex as (Hhi & Hlo & Hdec).
    cbn [String.append map_chars].
    change (plus_to_space "%") with "%"%char. rewrite Hhi, Hlo.
    destruct (hex_value (hex_digit (nat_of_ascii c / 16))) as [a|] eqn:Ha;
      [| destruct Hdec].
    destruct (hex_value (hex_digit (nat_of_ascii c mod 16))) as [b|] eqn:Hb;
      [| destruct Hdec].
    rewrite (unquote_escape _ _ a b _ Ha Hb). now rewrite Hdec.
Qed.

Lemma quote_plus_chars (s : string) : all_chars encoded_char (quote_plus s) = true.
Proof.
  induction s as [|c s IH]; [reflexivity|].
  now rewrite quote_plus_cons, all_chars_app, quoted_chars, IH.
Qed.

(** Decoding what [quote_plus] wrote gives the text back. *)
Lemma unquote_quote_plus (s : string) :
  unquote (map_chars plus_to_space (quote_plus s)) = s.
Proof.
  induction s as [|c s IH]; [reflexivity|].
  now rewrite quote_plus_cons, unquote_quoted, IH.
Qed.

End QueryRoundTrip.

Section QueryDictionary.
Import Py PyStr UrlParse Crawler.

(** The (key, value) pairs of a dictionary of value lists, in order. *)
Definition pairs_of (d : list (string * list string)) : list (string * string) :=
  flat_map (fun kv => map (fun v => (fst kv, v)) (snd kv)) d.

Definition encode_pair (kv : string * string) : string :=
  (quote_plus (fst kv) ++ "=" ++ quote_plus (snd kv))%string.

(** Keys are unique and no value list is empty: what [parse_qs] builds. *)
Definition well_formed (d : list (string * list string)) : Prop :=
  List.NoDup (map fst d) /\ List.Forall (fun kv => snd kv <> []) d.

Lemma encoded_char_query (c : ascii) : encoded_char c = true -> query_char c = true.
Proof.
  destruct c as [[|] [|] [|] [|] [|] [|] [|] [|]]; vm_compute; congruence.
Qed.

Lemma urlencode_pairs (d : list (string * list string)) :
  urlencode d = join "&" (map encode_pair (pairs_of d)).
Proof.
  unfold urlencode, pairs_of. f_equal.
  induction d as [|[k vs] d IH]; [reflexivity|].
  cbn [flat_map]. rewrite map_app, IH, map_map. reflexivity.
Qed.

Lemma split_none (c : ascii) (s : string) :
  all_chars (fun x => negb (Ascii.eqb x c)) s = true -> split c s = [s].
Proof.
  induction s as [|x s IH]; [reflexivity|].
  cbn [all_chars split]. intros Hs. apply andb_prop in Hs as [Hx Hs].
  apply negb_true_iff in Hx. now rewrite Hx, (IH Hs).
Qed.

Lemma split_app (c : ascii) (a b : string) :
  all_chars (fun x => negb (Ascii.eqb x c)) a = true ->
  split c (a ++ String c b) = a :: split c b.
Proof.
  induction a as [|x a IH]; cbn [String.append all_chars split].
  - intros _. now rewrite Ascii.eqb_refl.
  - intros Hs. apply andb_prop in Hs as [Hx Hs].
    apply negb_true_iff in Hx. now rewrite Hx, (IH Hs).
Qed.

Lemma split_join (c : ascii) (items : list string) :
  items <> [] ->
  Forall (fun s => all_chars (fun x => negb (Ascii.eqb x c)) s = true) items ->
  split c (join (String c "") items) = items.
Proof.
  intros Hne Hall. induction Hall as [|x items Hx Hall IH]; [congruence|].
  destruct items as [|y items].
  - cbn [join]. now apply split_none.
  - change (join (String c "") (x :: y :: items))
      with (x ++ String c (join (String c "") (y :: items)))%string.
    rewrite (split_app c x _ Hx). f_equal. apply IH. discriminate.
Qed.

Lemma encoded_not (c d : ascii) :
  ascii_in d "#&= " = true -> encoded_char c = true -> negb (Ascii.eqb c d) = true.
Proof.
  intros Hd Hc. destruct (Ascii.eqb_spec c d) as [-> | _]; [| reflexivity].
  unfold encoded_char in Hc. rewrite Hd in Hc.
  rewrite andb_false_r in Hc. discriminate.
Qed.

Lemma quote_plus_without (d : ascii) (s : string) :
  ascii_in d "#&= " = true ->
  all_chars (fun x => negb (Ascii.eqb x d)) (quote_plus s) = true.
Proof.
  intros Hd. eapply all_chars_impl; [| apply quote_plus_chars].
  intros c. now apply encoded_not.
Qed.

Lemma encode_pair_chars (kv : string * string) :
  all_chars (fun x => negb (Ascii.eqb x "&")) (encode_pair kv) = true
  /\ all_chars query_char (encode_pair kv) = true
  /\ nonempty (encode_pair kv) = true.
Proof.
  unfold encode_pair. repeat split.
  - rewrite !all_chars_app, !quote_plus_without; reflexivity.
  - rewrite !all_chars_app.
    rewrite !(all_chars_impl _ _ _ encoded_char_query (quote_plus_chars _)).
    reflexivity.
  - destruct (quote_plus (fst kv)); reflexivity.
Qed.

Lemma decode_pair (kv : string * string) :
  split_once "=" (encode_pair kv) = Some (quote_plus (fst kv), quote_plus (snd kv)).
Proof.
  unfold encode_pair.
  change (quote_plus (fst kv) ++ "=" ++ quote_plus (snd kv))%string
    with (quote_plus (fst kv) ++ String "=" (quote_plus (snd kv)))%string.
  apply split_once_app. now apply quote_plus_without.
Qed.

(** Parsing an encoded dictionary gives its pairs back. *)
Lemma parse_qsl_urlencode (d : list (string * list string)) :
  parse_qsl (urlencode d) = pairs_of d.
Proof.
  rewrite urlencode_pairs.
  destruct (pairs_of d) as [|p ps] eqn:Hps; [reflexivity|].
  unfold parse_qsl.
  assert (Hne : nonempty (join "&" (map encode_pair (p :: ps))) = true).
  { cbn [map]. destruct (map encode_pair ps).
    - apply encode_pair_chars.
    - cbn [join]. pose proof (encode_pair_chars p) as (_ & _ & Hp).
      destruct (encode_pair p); [discriminate | reflexivity]. }
  rewrite Hne. cbn [negb].
  rewrite split_join.
  - generalize (p :: ps). intros l.
    induction l as [|[k v] l IH]; [reflexivity|].
    cbn [map flat_map].
    pose proof (encode_pair_chars (k, v)) as (_ & _ & Hkv).
    rewrite Hkv, decode_pair. cbn [negb fst snd].
    rewrite !unquote_quote_plus, IH. reflexivity.
  - discriminate.
  - apply List.Forall_forall. intros s Hs. apply in_map_iff in Hs as (kv & <- & _).
    apply encode_pair_chars.
Qed.

(** *** Regrouping the pairs *)

Lemma dict_append_new (acc : list (string * list string)) (k v : string) :
  ~ In k (map fst acc) -> dict_append acc k v = acc ++ [(k, [v])].
Proof.
  induction acc as [|[k' vs] acc IH]; cbn [map fst In dict_append app];
    [reflexivity|].
  intros Hk. destruct (String.eqb_spec k' k) as [-> | _]; [tauto|].
  rewrite IH by tauto. reflexivity.
Qed.

Lemma dict_append_last (acc : list (string * list string)) (k v : string)
    (l : list string) :
  ~ In k (map fst acc) ->
  dict_append (acc ++ [(k, l)]) k v = acc ++ [(k, l ++ [v])].
Proof.
  induction acc as [|[k' vs] acc IH]; cbn [map fst In dict_append app].
  - intros _. now rewrite String.eqb_refl.
  - intros Hk. destruct (String.eqb_spec k' k) as [-> | _]; [tauto|].
    rewrite IH by tauto. reflexivity.
Qed.

Definition add_pair (d : list (string * list string)) (nv : string * string) :=
  dict_append d (fst nv) (snd nv).

Lemma add_values (acc : list (string * list string)) (k : string)
    (l vs : list string) :
  ~ In k (map fst acc) ->
  fold_left add_pair (map (fun v => (k, v)) vs) (acc ++ [(k, l)])
  = acc ++ [(k, l ++ vs)].
Proof.
  intros Hk. revert l. induction vs as [|v vs IH]; intros l; cbn [map fold_left].
  - now rewrite app_nil_r.
  - unfold add_pair at 2. cbn [fst snd].
    rewrite dict_append_last by exact Hk.
    rewrite IH, <- app_assoc. reflexivity.
Qed.

Lemma regroup (d acc : list (string * list string)) :
  well_formed d ->
  (forall k, In k (map fst d) -> ~ In k (map fst acc)) ->
  fold_left add_pair (pairs_of d) acc = acc ++ d.
Proof.
  revert acc. induction d as [|[k vs] d IH]; intros acc [Hnd Hne] Hdisj.
  - cbn. now rewrite app_nil_r.
  - cbn [map fst] in Hnd. apply List.NoDup_cons_iff in Hnd as [Hk Hnd].
    apply List.Forall_cons_iff in Hne as [Hvs Hne]. cbn [snd] in Hvs.
    destruct vs as [|v vs]; [congruence|].
    unfold pairs_of. cbn [flat_map fst snd map].
    rewrite <- app_comm_cons. cbn [fold_left].
    unfold add_pair at 2. cbn [fst snd].
    assert (Hacc : ~ In k (map fst acc)) by (apply Hdisj; now left).
    rewrite dict_append_new by exact Hacc.
    rewrite fold_left_app, add_values by exact Hacc.
    fold (pairs_of d). rewrite IH.
    + rewrite <- app_assoc. reflexivity.
    + split; assumption.
    + intros k' Hk'. rewrite map_app, in_app_iff. cbn [map fst In].
      intros [Hin | [<- | []]]; [| contradiction].
      apply (Hdisj k'); [now right | exact Hin].
Qed.

Lemma dict_append_keys (d : list (string * list string)) (k v : string) :
  map fst (dict_append d k v)
  = if existsb (String.eqb k) (map fst d) then map fst d else map fst d ++ [k].
Proof.
  induction d as [|[k' vs] d IH]; cbn [dict_append map fst existsb]; [reflexivity|].
  rewrite (String.eqb_sym k k').
  destruct (String.eqb k' k); cbn [map fst orb]; [reflexivity|].
  rewrite IH. now destruct (existsb (String.eqb k) (map fst d)).
Qed.

Lemma dict_append_well_formed (d : list (string * list string)) (k v : string) :
  well_formed d -> well_formed (dict_append d k v).
Proof.
  intros [Hnd Hne]. split.
  - rewrite dict_append_keys.
    destruct (existsb (String.eqb k) (map fst d)) eqn:Hk; [exact Hnd|].
    apply List.NoDup_app; [exact Hnd | repeat constructor; intros [] |].
    intros x Hx [Hkx | []]. subst x.
    assert (existsb (String.eqb k) (map fst d) = true); [| congruence].
    apply existsb_exists. exists k. split; [exact Hx | apply String.eqb_refl].
  - clear Hnd. induction d as [|[k' vs] d IH]; cbn [dict_append].
    + repeat constructor. discriminate.
    + apply List.Forall_cons_iff in Hne as [Hvs Hne].
      destruct (String.eqb k' k).
      * constructor; [| exact Hne]. cbn [snd]. now destruct vs.
      * constructor; [exact Hvs | now apply IH].
Qed.

Lemma parse_qs_well_formed (q : string) : well_formed (parse_qs q).
Proof.
  unfold parse_qs.
  assert (Hgen : forall l acc, well_formed acc ->
             well_formed (fold_left (fun d nv => dict_append d (fst nv) (snd nv)) l acc)).
  { induction l as [|nv l IH]; intros acc Hacc; [exact Hacc|].
    cbn [fold_left]. apply IH. now apply dict_append_well_formed. }
  apply Hgen. split; constructor.
Qed.

Lemma filter_well_formed (f : string * list string -> bool)
    (d : list (string * list string)) :
  well_formed d -> well_formed (List.filter f d).
Proof.
  intros [Hnd Hne]. split.
  - clear Hne. induction d as [|kv d IH]; [constructor|].
    cbn [map] in Hnd. apply List.NoDup_cons_iff in Hnd as [Hk Hnd].
    cbn [List.filter]. destruct (f kv); [| now apply IH].
    cbn [map]. constructor; [| now apply IH].
    intros Hin. apply Hk. apply in_map_iff in Hin as (x & Hx & Hin).
    apply in_map_iff. exists x. split; [exact Hx|].
    now apply filter_In in Hin as [Hin _].
  - apply List.Forall_forall. intros kv Hin. apply filter_In in Hin as [Hin _].
    rewrite List.Forall_forall in Hne. now apply Hne.
Qed.

Lemma filter_twice {A} (f : A -> bool) (l : list A) :
  List.filter f (List.filter f l) = List.filter f l.
Proof.
  induction l as [|x l IH]; [reflexivity|].
  cbn [List.filter]. destruct (f x) eqn:Hx; [| exact IH].
  cbn [List.filter]. now rewrite Hx, IH.
Qed.

(** Parsing an encoded well-formed dictionary gives it back. *)
Lemma parse_qs_urlencode (d : list (string * list string)) :
  well_formed d -> parse_qs (urlencode d) = d.
Proof.
  intros Hd. unfold parse_qs. rewrite parse_qsl_urlencode.
  change (fold_left add_pair (pairs_of d) [] = d).
  rewrite regroup; [reflexivity | exact Hd | intros k _ []].
Qed.

(** The cleaned query is a fixed point of the cleaning. *)
Lemma clean_query_idem (q : string) : clean_query (clean_query q) = clean_query q.
Proof.
  unfold clean_query at 2 3. destruct (nonempty q); [| reflexivity].
  set (keep := fun kv : string * list string => negb (mem (fst kv) IGNORED_PARAMS)).
  set (d := List.filter keep (parse_qs q)).
  unfold clean_query. destruct (nonempty (urlencode d)) eqn:Hne.
  - rewrite parse_qs_urlencode
      by (apply filter_well_formed, parse_qs_well_formed).
    fold keep. unfold d. now rewrite filter_twice.
  - unfold nonempty in Hne. apply negb_false_iff, String.eqb_eq in Hne.
    now rewrite Hne.
Qed.

Lemma join_chars (p : ascii -> bool) (sep : string) (items : list string) :
  all_chars p sep = true ->
  Forall (fun s => all_chars p s = true) items ->
  all_chars p (join sep items) = true.
Proof.
  intros Hsep Hall. induction Hall as [|x items Hx Hall IH]; [reflexivity|].
  destruct items as [|y items]; [exact Hx|].
  change (join sep (x :: y :: items)) with (x ++ sep ++ join sep (y :: items))%string.
  now rewrite !all_chars_app, Hx, Hsep, IH.
Qed.

Lemma clean_query_chars (q : string) : all_chars query_char (clean_query q) = true.
Proof.
  unfold clean_query. destruct (nonempty q); [| reflexivity].
  rewrite urlencode_pairs. apply join_chars; [reflexivity|].
  apply List.Forall_forall. intros s Hs. apply in_map_iff in Hs as (kv & <- & _).
  apply encode_pair_chars.
Qed.

End QueryDictionary.

Section NormalizeIdempotence.
Context `{Lib.IpAddress}.
Import Py PyStr UrlParse Crawler.

(** The base URL is empty or parses. *)
Definition base_parses (b : string) : Prop :=
  nonempty b = true -> exists bp, urlparse b "" = Ret bp.

Lemma written_nonempty (sch host path q : string) :
  normal_shape sch host path q -> nonempty (written sch host path q) = true.
Proof. intros [[-> | ->] _ _ _ _ _]; reflexivity. Qed.

Lemma urljoin_written (b sch host path q : string) :
  normal_shape sch host path q ->
  base_parses b ->
  urljoin b (written sch host path q) = Ret (written sch host path q).
Proof.
  intros Hshape Hb. unfold urljoin. unfold base_parses in Hb.
  destruct (nonempty b) eqn:Hne; [| reflexivity]. cbn [negb].
  rewrite (written_nonempty _ _ _ _ Hshape). cbn [negb].
  destruct (Hb eq_refl) as [bp Hbp]. rewrite Hbp. cbn [bind].
  rewrite (urlparse_written _ _ _ _ (scheme bp) Hshape). cbn [bind].
  cbn [scheme netloc].
  destruct (String.eqb sch (scheme bp)); [| reflexivity].
  assert (Hrel : mem sch uses_relative = true /\ mem sch uses_netloc = true)
    by (destruct (shape_scheme _ _ _ _ Hshape) as [-> | ->]; split; reflexivity).
  destruct Hrel as [Hrel Hnet]. rewrite Hrel, Hnet.
  rewrite (shape_host _ _ _ _ Hshape). cbn [negb orb andb].
  now rewrite (urlunparse_written _ _ _ _ Hshape).
Qed.

Lemma strip_written (sch host path q : string) :
  normal_shape sch host path q ->
  strip (written sch host path q) = written sch host path q.
Proof.
  intros Hshape. unfold strip.
  pose proof (written_chars _ _ _ _ Hshape) as Hchars.
  assert (Hns : all_chars (fun x => negb (is_space x)) (written sch host path q) = true)
    by (eapply all_chars_impl; [apply url_char_not_space | exact Hchars]).
  now rewrite lstrip_while_none, rstrip_while_none.
Qed.

(** A URL of normal shape whose path is trimmed and carries no denied
    extension, and whose query is already clean, is a fixed point. *)
Lemma normalize_written (b sch host path q : string) :
  normal_shape sch host path q ->
  base_parses b ->
  trim_path path = path ->
  has_ignored_extension path = false ->
  clean_query q = q ->
  normalize (written sch host path q) b = Some (written sch host path q).
Proof.
  intros Hshape Hb Htrim Hext Hq. unfold normalize.
  rewrite (strip_written _ _ _ _ Hshape).
  rewrite (urljoin_written b _ _ _ _ Hshape Hb).
  rewrite (urlparse_written _ _ _ _ "" Hshape).
  cbn [scheme netloc UrlParse.path params query].
  assert (Hs : mem sch ["http"; "https"] = true /\ lower sch = sch)
    by (destruct (shape_scheme _ _ _ _ Hshape) as [-> | ->]; split; reflexivity).
  destruct Hs as [Hmem Hlow]. rewrite Hmem, Hext. cbn [negb].
  rewrite Hlow, (lower_netloc host (shape_host_chars _ _ _ _ Hshape)), Htrim, Hq.
  now rewrite (urlunparse_written _ _ _ _ Hshape).
Qed.

Lemma trim_path_idem (p : string) : trim_path (trim_path p) = trim_path p.
Proof.
  unfold trim_path at 2 3.
  destruct (negb (String.eqb p "/") && endswith p "/") eqn:Htrim.
  - unfold trim_path. rewrite rstrip_while_idem.
    clear Htrim. destruct (negb _ && _); reflexivity.
  - unfold trim_path. now rewrite Htrim.
Qed.

Lemma trim_path_shape (p : string) :
  starts_with_class (Ascii.eqb "/") p = true ->
  all_chars path_char p = true ->
  starts_with_class (Ascii.eqb "/") (trim_path p) = true
  /\ all_chars path_char (trim_path p) = true.
Proof.
  intros Hstart Hchars. unfold trim_path.
  destruct (negb (String.eqb p "/") && endswith p "/"); [| now split].
  split; [| now apply rstrip_while_all_chars].
  destruct p as [|c p]; [reflexivity|].
  cbn [rstrip_while]. destruct (rstrip_while (Ascii.eqb "/") p).
  - now destruct (Ascii.eqb "/" c).
  - exact Hstart.
Qed.

(** Network-location characters before lowercasing. *)
Definition raw_netloc_char (c : ascii) : bool :=
  url_char c && negb (ascii_in c "/?#[]").

Lemma lower_raw_netloc (c : ascii) :
  raw_netloc_char c = true -> netloc_char (lower_char c) = true.
Proof.
  destruct c as [[|] [|] [|] [|] [|] [|] [|] [|]]; vm_compute; congruence.
Qed.

Lemma lower_netloc_chars (nl : string) :
  all_chars raw_netloc_char nl = true -> all_chars netloc_char (lower nl) = true.
Proof.
  unfold lower. induction nl as [|c nl IH]; cbn [all_chars map_chars];
    [reflexivity|].
  intros Hs. apply andb_prop in Hs as [Hc Hs].
  now rewrite (lower_raw_netloc c Hc), IH.
Qed.

Lemma urljoin_base_parses (b url joined : string) (p : ParseResult) :
  urljoin b url = Ret joined -> urlparse joined "" = Ret p -> base_parses b.
Proof.
  unfold urljoin, base_parses. intros Hjoin Hparse Hne. rewrite Hne in Hjoin.
  cbn [negb] in Hjoin.
  destruct (nonempty url); cbn [negb] in Hjoin.
  - destruct (urlparse b "") as [bp | e]; [now exists bp | discriminate].
  - injection Hjoin as <-. now exists p.
Qed.

(** C6 (amended): normalisation is idempotent on every URL whose resolved
    form has a non-empty network location without brackets and no path
    parameters, is written in printable non-space ASCII there and in its
    path, and whose trimmed path carries no denied extension: if
    [normalize(u, b)] returns [s] then [normalize(s, b) = s].  The query
    and the fragment of [u] are arbitrary. *)
Theorem C6_normalize_idempotent :
  forall (u b joined s : string) (p : ParseResult),
    urljoin b (strip u) = Ret joined ->
    urlparse joined "" = Ret p ->
    nonempty (netloc p) = true ->
    all_chars raw_netloc_char (netloc p) = true ->
    starts_with_class (Ascii.eqb "/") (path p) = true ->
    all_chars path_char (path p) = true ->
    params p = "" ->
    has_ignored_extension (trim_path (path p)) = false ->
    normalize u b = Some s ->
    normalize s b = Some s.
Proof.
  intros u b joined s p Hjoin Hparse Hnl Hnlc Hstart Hpc Hparams Hext Hnorm.
  pose proof (urljoin_base_parses _ _ _ _ Hjoin Hparse) as Hb.
  unfold normalize in Hnorm. rewrite Hjoin, Hparse in Hnorm.
  destruct (mem (scheme p) ["http"; "https"]) eqn:Hsch; [| discriminate].
  cbn [negb] in Hnorm.
  destruct (has_ignored_extension (path p)); [discriminate|].
  injection Hnorm as <-. rewrite Hparams.
  destruct (trim_path_shape (path p) Hstart Hpc) as [Hstart' Hpc'].
  assert (Hshape : normal_shape (lower (scheme p)) (lower (netloc p))
                                (trim_path (path p)) (clean_query (query p))).
  { constructor.
    - unfold mem in Hsch. cbn [existsb] in Hsch.
      destruct (String.eqb_spec (scheme p) "http") as [-> | _]; [now left|].
      destruct (String.eqb_spec (scheme p) "https") as [-> | _]; [now right|].
      discriminate.
    - destruct (netloc p); [discriminate | reflexivity].
    - now apply lower_netloc_chars.
    - exact Hstart'.
    - exact Hpc'.
    - apply clean_query_chars. }
  rewrite (urlunparse_written _ _ _ _ Hshape).
  apply normalize_written;
    [exact Hshape | exact Hb | apply trim_path_idem | exact Hext
    | apply clean_query_idem].
Qed.

End NormalizeIdempotence.

Section NormalizeExamples.
#[local] Existing Instance Demo.ip.

Lemma C6_normalize_idempotent_witness :
  Crawler.normalize Demo.team_link Demo.found_on
  = Some "https://example.com/About/Team?id=7&tag=a+b"
  /\ Crawler.normalize "https://example.com/About/Team?id=7&tag=a+b" Demo.found_on
     = Some "https://example.com/About/Team?id=7&tag=a+b".
Proof.
  split; [vm_compute; reflexivity |].
  apply (C6_normalize_idempotent Demo.team_link Demo.found_on
           "https://Example.COM/About/Team/?utm_source=news&id=7&tag=a b#staff"
           "https://example.com/About/Team?id=7&tag=a+b"
           (UrlParse.mkParse "https" "Example.COM" "/About/Team/" ""
                             "utm_source=news&id=7&tag=a b" "staff"));
    vm_compute; reflexivity.
Defined.

(** C6 as stated fails: the trailing slash is trimmed after the extension
    check, so [.../a.pdf/] normalises to [.../a.pdf], which normalises to
    the reject signal; and [.../a /] normalises to a URL ending in a
    space, which normalises to the URL without it. *)
Lemma C6_counterexample :
  Crawler.normalize "https://example.com/a.pdf/" "https://example.com/"
  = Some "https://example.com/a.pdf"
  /\ Crawler.normalize "https://example.com/a.pdf" "https://example.com/" = None
  /\ Crawler.normalize "https://example.com/a /" "https://example.com/"
     = Some "https://example.com/a "
  /\ Crawler.normalize "https://example.com/a " "https://example.com/"
     = Some "https://example.com/a".
Proof. repeat split; vm_compute; reflexivity. Qed.

End NormalizeExamples.

(** ** Rounding *)

Section Rounding.
Import Num.
#[local] Open Scope Q_scope.

Lemma round_half_even_comp (x y : Q) :
  x == y -> round_half_even x = round_half_even y.
Proof.
  intros E. unfold round_half_even.
  rewrite (Qfloor_comp x y E).
  assert (Ec : (x - inject_Z (Qfloor y) ?= 1 # 2) = (y - inject_Z (Qfloor y) ?= 1 # 2))
    by now rewrite E.
  now rewrite Ec.
Qed.

(** The rounded value is one of the two integers around [x]. *)
Lemma round_half_even_near (x : Q) :
  round_half_even x = Qfloor x \/ round_half_even x = (Qfloor x + 1)%Z.
Proof.
  unfold round_half_even.
  destruct (x - inject_Z (Qfloor x) ?= 1 # 2); [| auto | auto].
  destruct (Z.even (Qfloor x)); auto.
Qed.

Lemma round_half_even_Z (z : Z) : round_half_even (inject_Z z) = z.
Proof.
  unfold round_half_even. rewrite Qfloor_Z.
  assert (E : inject_Z z - inject_Z z == 0) by ring.
  assert (Ec : (inject_Z z - inject_Z z ?= 1 # 2) = (0 ?= 1 # 2)) by now rewrite E.
  rewrite Ec. reflexivity.
Qed.

Lemma round_half_even_mono (x y : Q) :
  x <= y -> (round_half_even x <= round_half_even y)%Z.
Proof.
  intros Hxy.
  pose proof (Qfloor_resp_le x y Hxy) as Hfloor.
  destruct (Z.eq_dec (Qfloor x) (Qfloor y)) as [Heq | Hne].
  - unfold round_half_even. rewrite <- Heq.
    set (f := Qfloor x).
    destruct (Qcompare_spec (x - inject_Z f) (1 # 2)) as [Ex | Lx | Gx];
      destruct (Qcompare_spec (y - inject_Z f) (1 # 2)) as [Ey | Ly | Gy];
      try destruct (Z.even f); try lia; exfalso; lra.
  - destruct (round_half_even_near x) as [-> | ->];
      destruct (round_half_even_near y) as [-> | ->]; lia.
Qed.

Lemma round2_mono (x y : Q) : x <= y -> round2 x <= round2 y.
Proof.
  intros Hxy. unfold round2.
  assert (H100 : x * 100 <= y * 100) by lra.
  apply round_half_even_mono in H100.
  apply Qmult_le_compat_r; [| discriminate].
  now rewrite <- Zle_Qle.
Qed.

(** A number with at most two decimals is its own rounding. *)
Lemma round2_hundredths (z : Z) : round2 (inject_Z z / 100) == inject_Z z / 100.
Proof.
  unfold round2.
  rewrite (round_half_even_comp (inject_Z z / 100 * 100) (inject_Z z))
    by (field; discriminate).
  now rewrite round_half_even_Z.
Qed.

Lemma round2_Z (z : Z) : round2 (inject_Z z) == inject_Z z.
Proof.
  unfold round2.
  rewrite (round_half_even_comp (inject_Z z * 100) (inject_Z (z * 100)))
    by (rewrite inject_Z_mult; reflexivity).
  rewrite round_half_even_Z, inject_Z_mult. field.
Qed.

Lemma round2_between (lo hi : Z) (x : Q) :
  inject_Z lo <= x -> x <= inject_Z hi ->
  inject_Z lo <= round2 x /\ round2 x <= inject_Z hi.
Proof.
  intros Hlo Hhi. split.
  - rewrite <- (round2_Z lo). now apply round2_mono.
  - rewrite <- (round2_Z hi). now apply round2_mono.
Qed.

Lemma py_min_le_l (a b : Q) : py_min a b <= a.
Proof.
  unfold py_min. destruct (Qle_bool a b) eqn:E; [lra|].
  destruct (Qlt_le_dec b a) as [Hlt | Hle]; [lra|].
  apply Qle_bool_iff in Hle. congruence.
Qed.

Lemma py_min_le_r (a b : Q) : py_min a b <= b.
Proof.
  unfold py_min. destruct (Qle_bool a b) eqn:E; [| lra].
  now apply Qle_bool_iff.
Qed.

Lemma py_min_glb (a b c : Q) : c <= a -> c <= b -> c <= py_min a b.
Proof. intros Ha Hb. unfold py_min. now destruct (Qle_bool a b). Qed.

Lemma py_max_ge_l (a b : Q) : a <= py_max a b.
Proof.
  unfold py_max. destruct (Qle_bool b a) eqn:E; [lra|].
  destruct (Qlt_le_dec a b) as [Hlt | Hle]; [lra|].
  apply Qle_bool_iff in Hle. congruence.
Qed.

Lemma py_max_ge_r (a b : Q) : b <= py_max a b.
Proof.
  unfold py_max. destruct (Qle_bool b a) eqn:E; [| lra].
  now apply Qle_bool_iff.
Qed.

Lemma py_max_lub (a b c : Q) : a <= c -> b <= c -> py_max a b <= c.
Proof. intros Ha Hb. unfold py_max. now destruct (Qle_bool b a). Qed.

Lemma py_min_mono (a b b' : Q) : b <= b' -> py_min a b <= py_min a b'.
Proof.
  intros Hb. apply py_min_glb; [apply py_min_le_l|].
  pose proof (py_min_le_r a b). lra.
Qed.

Lemma py_max_mono (a b b' : Q) : b <= b' -> py_max a b <= py_max a b'.
Proof.
  intros Hb. apply py_max_lub; [apply py_max_ge_l|].
  pose proof (py_max_ge_r a b'). lra.
Qed.

End Rounding.

(** ** Rounding to the nearest double keeps the order *)

Section Binary64.
Import Num.
#[local] Open Scope Q_scope.

Lemma pow2_pos (k : Z) : 0 < 2 ^ k.
Proof. now apply Qpower_0_lt. Qed.

Lemma pow2_mono (a b : Z) : (a <= b)%Z -> 2 ^ a <= 2 ^ b.
Proof. intros Hab. apply Qpower_le_compat_l; [exact Hab | discriminate]. Qed.

Lemma pow2_Z (k : Z) : (0 <= k)%Z -> 2 ^ k == inject_Z (2 ^ k).
Proof. intros Hk. symmetry. exact (Zpower_Qpower 2 k Hk). Qed.

(** A power of two, counted in units of a smaller one, is an integer. *)
Lemma pow2_ratio (e u : Z) : (u <= e)%Z -> 2 ^ e / 2 ^ u == inject_Z (2 ^ (e - u)).
Proof.
  intros Hue. rewrite <- pow2_Z by lia. symmetry. apply Qpower_minus. discriminate.
Qed.

Lemma binade_spec (q : Q) :
  0 < q -> 2 ^ binade q <= q /\ q < 2 ^ (binade q + 1).
Proof.
  intros Hq. destruct q as [n d]. unfold binade. cbn [Qnum Qden].
  assert (Hn : (0 < n)%Z) by (unfold Qlt in Hq; cbn in Hq; lia).
  pose proof (Z.log2_spec n Hn) as [Hn0 Hn1].
  pose proof (Z.log2_spec (Z.pos d) (Pos2Z.is_pos d)) as [Hd0 Hd1].
  pose proof (Z.log2_nonneg n) as Ha. pose proof (Z.log2_nonneg (Z.pos d)) as Hb.
  set (a := Z.log2 n) in *. set (b := Z.log2 (Z.pos d)) in *.
  assert (Hdpos : 0 < inject_Z (Z.pos d)) by reflexivity.
  assert (Hq' : n # d == inject_Z n / inject_Z (Z.pos d)) by apply Qmake_Qdiv.
  (* n / d lies strictly between 2^(a-b-1) and 2^(a-b+1) *)
  assert (Hup : n # d < 2 ^ (a - b + 1)).
  { rewrite Hq'. apply Qlt_shift_div_r; [exact Hdpos|].
    replace (a - b + 1)%Z with ((a + 1) - b)%Z by lia.
    rewrite Qpower_minus by discriminate.
    rewrite (pow2_Z (a + 1)) by lia. rewrite (pow2_Z b) by lia.
    set (A := inject_Z (2 ^ (a + 1))). set (B := inject_Z (2 ^ b)).
    assert (HB : 0 < B) by (unfold B; change 0 with (inject_Z 0); rewrite <- Zlt_Qlt; lia).
    assert (HnA : inject_Z n < A).
    { unfold A. rewrite <- Zlt_Qlt. replace (a + 1)%Z with (Z.succ a) by lia. exact Hn1. }
    assert (HBD : B <= inject_Z (Z.pos d)) by (unfold B; now rewrite <- Zle_Qle).
    assert (HA : 0 <= A) by (unfold A; change 0 with (inject_Z 0); rewrite <- Zle_Qle; lia).
    assert (Hk : 0 <= A / B) by (apply Qle_shift_div_l; [exact HB | lra]).
    assert (Hs : A / B * B <= A / B * inject_Z (Z.pos d)).
    { rewrite (Qmult_comm (A / B) B), (Qmult_comm (A / B)).
      now apply Qmult_le_compat_r. }
    assert (E : A / B * B == A) by (field; lra).
    lra. }
  assert (Hlow : 2 ^ (a - b - 1) <= n # d).
  { rewrite Hq'. apply Qle_shift_div_l; [exact Hdpos|].
    replace (a - b - 1)%Z with (a - (b + 1))%Z by lia.
    rewrite Qpower_minus by discriminate.
    rewrite (pow2_Z a) by lia. rewrite (pow2_Z (b + 1)) by lia.
    set (A := inject_Z (2 ^ a)). set (B := inject_Z (2 ^ (b + 1))).
    assert (HB : 0 < B) by (unfold B; change 0 with (inject_Z 0); rewrite <- Zlt_Qlt; lia).
    assert (HAn : A <= inject_Z n) by (unfold A; now rewrite <- Zle_Qle).
    assert (HDB : inject_Z (Z.pos d) <= B).
    { unfold B. rewrite <- Zle_Qle. replace (b + 1)%Z with (Z.succ b) by lia. lia. }
    assert (HA : 0 <= A) by (unfold A; change 0 with (inject_Z 0); rewrite <- Zle_Qle; lia).
    assert (Hk : 0 <= A / B) by (apply Qle_shift_div_l; [exact HB | lra]).
    assert (Hs : A / B * inject_Z (Z.pos d) <= A / B * B).
    { rewrite (Qmult_comm (A / B) B), (Qmult_comm (A / B)).
      now apply Qmult_le_compat_r. }
    assert (E : A / B * B == A) by (field; lra).
    lra. }
  destruct (Qle_bool (2 ^ (a - b)) (n # d)) eqn:Htest.
  - apply Qle_bool_iff in Htest. split; [exact Htest | exact Hup].
  - split; [exact Hlow|].
    replace (a - b - 1 + 1)%Z with (a - b)%Z by lia.
    destruct (Qlt_le_dec (n # d) (2 ^ (a - b))) as [Hlt | Hle]; [exact Hlt|].
    apply Qle_bool_iff in Hle. congruence.
Qed.

Lemma binade_mono (a b : Q) : 0 < a -> a <= b -> (binade a <= binade b)%Z.
Proof.
  intros Ha Hab.
  destruct (binade_spec a Ha) as [Ha0 _].
  destruct (binade_spec b ltac:(lra)) as [_ Hb1].
  destruct (Z_le_gt_dec (binade a) (binade b)) as [Hle | Hgt]; [exact Hle|].
  exfalso. pose proof (pow2_mono (binade b + 1) (binade a) ltac:(lia)). lra.
Qed.

(** Rounding to the multiples of [2^u]. *)
Definition to_grid (u : Z) (q : Q) : Q :=
  inject_Z (round_half_even (q / 2 ^ u)) * 2 ^ u.

Lemma to_grid_mono (u : Z) (a b : Q) : a <= b -> to_grid u a <= to_grid u b.
Proof.
  intros Hab. unfold to_grid. pose proof (pow2_pos u) as Hu.
  apply Qmult_le_compat_r; [| lra].
  rewrite <- Zle_Qle. apply round_half_even_mono.
  apply Qmult_le_compat_r; [exact Hab|].
  apply Qinv_le_0_compat. lra.
Qed.

Lemma to_grid_pow2 (u e : Z) : (u <= e)%Z -> to_grid u (2 ^ e) == 2 ^ e.
Proof.
  intros Hue. unfold to_grid.
  rewrite (round_half_even_comp _ _ (pow2_ratio e u Hue)), round_half_even_Z.
  rewrite <- (pow2_ratio e u Hue). field.
  apply Qpower_not_0. discriminate.
Qed.

Lemma to_grid_nonneg (u : Z) (q : Q) : 0 <= q -> 0 <= to_grid u q.
Proof.
  intros Hq. unfold to_grid. pose proof (pow2_pos u) as Hu.
  apply Qmult_le_0_compat; [| lra].
  change 0 with (inject_Z 0). rewrite <- Zle_Qle.
  rewrite <- (round_half_even_Z 0).
  apply round_half_even_mono. change (inject_Z 0) with 0.
  apply Qle_shift_div_l; [exact Hu | lra].
Qed.

Lemma fl_pos_grid (q : Q) : fl_pos q = to_grid (Z.max (binade q) (-1022) - 52) q.
Proof. reflexivity. Qed.

Lemma fl_pos_mono (a b : Q) : 0 < a -> a <= b -> fl_pos a <= fl_pos b.
Proof.
  intros Ha Hab. rewrite !fl_pos_grid.
  pose proof (binade_mono a b Ha Hab) as He.
  set (ea := binade a) in *. set (eb := binade b) in *.
  destruct (Z.eq_dec (Z.max ea (-1022)) (Z.max eb (-1022))) as [Eu | Nu].
  - rewrite Eu. now apply to_grid_mono.
  - (* the binade of [b] starts at a power of two that is on both grids *)
    assert (Heb : (-1022 < eb)%Z) by lia.
    assert (Hlt : (ea < eb)%Z) by lia.
    destruct (binade_spec a Ha) as [_ Ha1]. fold ea in Ha1.
    destruct (binade_spec b ltac:(lra)) as [Hb0 _]. fold eb in Hb0.
    pose proof (pow2_mono (ea + 1) eb ltac:(lia)) as Hstep.
    apply Qle_trans with (2 ^ eb).
    + rewrite <- (to_grid_pow2 (Z.max ea (-1022) - 52) eb) by lia.
      apply to_grid_mono. lra.
    + rewrite <- (to_grid_pow2 (Z.max eb (-1022) - 52) eb) at 1 by lia.
      now apply to_grid_mono.
Qed.

Lemma fl_pos_nonneg (q : Q) : 0 <= q -> 0 <= fl_pos q.
Proof. intros Hq. rewrite fl_pos_grid. now apply to_grid_nonneg. Qed.

(** Rounding to the nearest double keeps the order. *)
Lemma fl_mono (a b : Q) : a <= b -> fl a <= fl b.
Proof.
  intros Hab. unfold fl.
  destruct (Qcompare_spec a 0) as [Ea | La | Ga];
    destruct (Qcompare_spec b 0) as [Eb | Lb | Gb]; try lra.
  - apply fl_pos_nonneg. lra.
  - assert (0 <= fl_pos (- a)) by (apply fl_pos_nonneg; lra). lra.
  - assert (fl_pos (- b) <= fl_pos (- a)) by (apply fl_pos_mono; lra). lra.
  - assert (0 <= fl_pos (- a)) by (apply fl_pos_nonneg; lra).
    assert (0 <= fl_pos b) by (apply fl_pos_nonneg; lra). lra.
  - now apply fl_pos_mono.
Qed.

Lemma fl_nonneg (q : Q) : 0 <= q -> 0 <= fl q.
Proof. intros Hq. change 0 with (fl 0) at 1. now apply fl_mono. Qed.

Lemma fl_le_100 (q : Q) : q <= 100 -> fl q <= 100.
Proof.
  intros Hq. assert (E : fl 100 == 100) by (vm_compute; reflexivity).
  rewrite <- E. now apply fl_mono.
Qed.

Lemma fround2_mono (x y : Q) : x <= y -> fround2 x <= fround2 y.
Proof. intros Hxy. apply fl_mono. now apply round2_mono. Qed.

Lemma fround2_between (x : Q) :
  0 <= x -> x <= 100 -> 0 <= fround2 x /\ fround2 x <= 100.
Proof.
  intros H0 H1.
  destruct (round2_between 0 100 x H0 H1) as [Hlo Hhi].
  split; [now apply fl_nonneg | now apply fl_le_100].
Qed.

End Binary64.

(* ===================================================================== *)
(** * Further properties of the modelled code                             *)
(* ===================================================================== *)

(** ** Scores of the rule engine stay in range *)

Section Products.
#[local] Open Scope Q_scope.

Lemma Qmult_le_nonneg_l (k x y : Q) : 0 <= k -> x <= y -> k * x <= k * y.
Proof.
  intros Hk Hxy. rewrite (Qmult_comm k x), (Qmult_comm k y).
  now apply Qmult_le_compat_r.
Qed.

End Products.

Section ScoreBounds.
Import Base RuleEngine Num.
#[local] Open Scope Q_scope.

Lemma pages_positive (t : Z) : 0 < inject_Z (Z.max 1 t).
Proof. change 0 with (inject_Z 0). rewrite <- Zlt_Qlt. lia. Qed.

Lemma ratio_mono (a1 a2 t : Z) :
  (a1 <= a2)%Z ->
  inject_Z a1 / inject_Z (Z.max 1 t) <= inject_Z a2 / inject_Z (Z.max 1 t).
Proof.
  intros Ha. apply Qmult_le_compat_r; [now rewrite <- Zle_Qle|].
  apply Qinv_le_0_compat, Qlt_le_weak, pages_positive.
Qed.

Lemma coverage_le_1 (a t : Z) : coverage a t <= 1.
Proof. apply py_min_le_l. Qed.

Lemma coverage_mono (a1 a2 t : Z) :
  (a1 <= a2)%Z -> coverage a1 t <= coverage a2 t.
Proof. intros Ha. apply py_min_mono. now apply ratio_mono. Qed.

Lemma coverage_nonneg (a t : Z) : (0 <= a)%Z -> 0 <= coverage a t.
Proof.
  intros Ha. apply py_min_glb; [lra|].
  assert (E : 0 == inject_Z 0 / inject_Z (Z.max 1 t)).
  { unfold Qdiv. change (inject_Z 0) with 0. ring. }
  rewrite E. now apply ratio_mono.
Qed.

Lemma severity_multipliers_range (s : Severity) :
  0 <= severity_multipliers s /\ severity_multipliers s <= 1.
Proof. destruct s; cbn; split; lra. Qed.

Lemma SEVERITY_WEIGHTS_nonneg (s : Severity) : 0 <= SEVERITY_WEIGHTS s.
Proof. destruct s; cbn; lra. Qed.

(** The coverage and the factor [0.3 + 0.7 * coverage] as
    [calculate_impact_score] computes them in double precision. *)
Lemma float_coverage_nonneg (a t : Z) :
  (0 <= a)%Z -> 0 <= py_min 1 (fdiv (inject_Z a) (inject_Z (Z.max 1 t))).
Proof.
  intros Ha. apply py_min_glb; [lra|]. apply fl_nonneg.
  assert (E : 0 == inject_Z 0 / inject_Z (Z.max 1 t)).
  { unfold Qdiv. change (inject_Z 0) with 0. ring. }
  rewrite E. now apply ratio_mono.
Qed.

Lemma factor_nonneg (c : Q) :
  0 <= c -> 0 <= fadd (fl (3 # 10)) (fmul (fl (7 # 10)) c).
Proof.
  intros Hc. apply fl_nonneg.
  assert (0 <= fl (3 # 10)) by (apply fl_nonneg; discriminate).
  assert (0 <= fmul (fl (7 # 10)) c).
  { apply fl_nonneg, Qmult_le_0_compat; [| exact Hc]. apply fl_nonneg. discriminate. }
  lra.
Qed.

(** X1: for a base score that is not negative and an affected count that
    is not negative, [calculate_impact_score] returns a score between 0
    and 100, whatever the severity and the number of pages. *)
Theorem impact_score_within_bounds :
  forall (sev : Severity) (affected_count total_pages : Z) (rule_impact_score : Q),
    0 <= rule_impact_score -> (0 <= affected_count)%Z ->
    0 <= calculate_impact_score sev affected_count total_pages rule_impact_score
    /\ calculate_impact_score sev affected_count total_pages rule_impact_score <= 100.
Proof.
  intros sev a t base Hbase Ha. unfold calculate_impact_score.
  apply fround2_between; [| apply py_min_le_l].
  apply py_min_glb; [lra|].
  pose proof (severity_multipliers_range sev) as [Hm _].
  pose proof (float_coverage_nonneg a t Ha) as Hc.
  apply fl_nonneg, Qmult_le_0_compat.
  - now apply fl_nonneg, Qmult_le_0_compat.
  - apply factor_nonneg. exact Hc.
Qed.

(** X2: with the severity, the number of pages and a base score that is
    not negative fixed, the score of [calculate_impact_score] never falls
    when the affected count grows; the rounding keeps the order. *)
Theorem impact_score_grows_with_coverage :
  forall (sev : Severity) (fewer more total_pages : Z) (rule_impact_score : Q),
    0 <= rule_impact_score -> (fewer <= more)%Z ->
    calculate_impact_score sev fewer total_pages rule_impact_score
    <= calculate_impact_score sev more total_pages rule_impact_score.
Proof.
  intros sev a1 a2 t base Hbase Ha. unfold calculate_impact_score.
  apply fround2_mono, py_min_mono, fl_mono.
  pose proof (severity_multipliers_range sev) as [Hm _].
  apply Qmult_le_nonneg_l; [now apply fl_nonneg, Qmult_le_0_compat|].
  apply fl_mono.
  assert (Hcov : py_min 1 (fdiv (inject_Z a1) (inject_Z (Z.max 1 t)))
                 <= py_min 1 (fdiv (inject_Z a2) (inject_Z (Z.max 1 t))))
    by (apply py_min_mono, fl_mono; now apply ratio_mono).
  assert (Hmul : fmul (fl (7 # 10))
                      (py_min 1 (fdiv (inject_Z a1) (inject_Z (Z.max 1 t))))
                 <= fmul (fl (7 # 10))
                         (py_min 1 (fdiv (inject_Z a2) (inject_Z (Z.max 1 t))))).
  { apply fl_mono, Qmult_le_nonneg_l; [| exact Hcov]. apply fl_nonneg. discriminate. }
  lra.
Qed.

(** The penalty loop of [calculate_category_score]. *)
Definition penalty_from (acc : Q) (issues : list Issue) (pages_analyzed : Z) : Q :=
  fold_left (fun acc i =>
               acc + SEVERITY_WEIGHTS (severity i)
                     * ((1 # 2) + (1 # 2) * coverage (affected_count i) pages_analyzed))
            issues acc.

Lemma penalty_from_nonneg (issues : list Issue) (pages : Z) :
  (forall i, In i issues -> (0 <= affected_count i)%Z) ->
  forall acc, 0 <= acc -> 0 <= penalty_from acc issues pages.
Proof.
  unfold penalty_from.
  induction issues as [|i issues IH]; intros Hall acc Hacc; cbn [fold_left]; [exact Hacc|].
  apply IH; [intros j Hj; apply Hall; now right|].
  pose proof (SEVERITY_WEIGHTS_nonneg (severity i)) as Hw.
  pose proof (coverage_nonneg (affected_count i) pages (Hall i (or_introl eq_refl))) as Hc.
  assert (0 <= SEVERITY_WEIGHTS (severity i)
               * ((1 # 2) + (1 # 2) * coverage (affected_count i) pages))
    by (apply Qmult_le_0_compat; [exact Hw | lra]).
  lra.
Qed.

Lemma max_penalty_positive (m : Q) : 0 < py_max m 1.
Proof. pose proof (py_max_ge_r m 1). lra. Qed.

(** X3: when no issue has a negative affected count,
    [calculate_category_score] returns a score between 0 and 100, for
    every number of checks and of pages. *)
Theorem category_score_within_bounds :
  forall (issues : list Issue) (total_checks pages_analyzed : Z),
    (forall i, In i issues -> (0 <= affected_count i)%Z) ->
    0 <= calculate_category_score issues total_checks pages_analyzed
    /\ calculate_category_score issues total_checks pages_analyzed <= 100.
Proof.
  intros issues checks pages Hall. unfold calculate_category_score.
  destruct (checks =? 0)%Z; [split; lra|].
  fold (penalty_from 0 issues pages).
  set (m := py_max _ 1).
  apply (round2_between 0 100); [apply py_max_ge_l|].
  apply py_max_lub; [discriminate|].
  pose proof (penalty_from_nonneg issues pages Hall 0 ltac:(lra)) as Hp.
  pose proof (max_penalty_positive
                (sumQ (map SEVERITY_WEIGHTS [CRITICAL; HIGH; MEDIUM; LOW; INFO])
                 * inject_Z (Z.min checks 10))) as Hm.
  fold m in Hm.
  assert (Hq : 0 <= penalty_from 0 issues pages / m).
  { apply Qle_shift_div_l; [exact Hm | lra]. }
  change (inject_Z 100) with 100. lra.
Qed.
End ScoreBounds.

Section ScoreBoundsExamples.
Import Base RuleEngine.
#[local] Open Scope Q_scope.

(** A high-severity rule of base score 70 on 3 pages of 10. *)
Lemma impact_score_within_bounds_witness :
  0 <= calculate_impact_score HIGH 3 10 70
  /\ calculate_impact_score HIGH 3 10 70 <= 100.
Proof. apply impact_score_within_bounds; [discriminate | lia]. Defined.

(** The same rule on 3 and on 7 pages of 10. *)
Lemma impact_score_grows_with_coverage_witness :
  calculate_impact_score HIGH 3 10 70 <= calculate_impact_score HIGH 7 10 70.
Proof. apply impact_score_grows_with_coverage; [discriminate | lia]. Defined.

(** The two tied issues of the demo result, as ten checks on one page. *)
Lemma category_score_within_bounds_witness :
  0 <= calculate_category_score
         [Demo.thin_content_issue; Demo.short_title_issue] 10 1
  /\ calculate_category_score
       [Demo.thin_content_issue; Demo.short_title_issue] 10 1 <= 100.
Proof.
  apply category_score_within_bounds.
  intros i [<- | [<- | []]]; cbn; lia.
Defined.

End ScoreBoundsExamples.

(** ** Negated operators *)

Section NegatedOperators.
Context `{Lib.PyBuiltins}.
Import Py RuleEngine.

(** The operators that come with their negation. *)
Definition negated_pairs : list (string * string) :=
  [("eq", "ne"); ("contains", "not_contains"); ("matches", "not_matches");
   ("exists", "not_exists"); ("in", "not_in")].

Definition with_operator (c : RuleCondition) (name : string) : RuleCondition :=
  {| field := field c; operator := name; value := value c;
     transform := transform c |}.

(** The table entry of a negated operator is the negation of the entry
    of the operator, exceptions included. *)
Lemma negated_entry (pos neg : string) :
  In (pos, neg) negated_pairs ->
  exists f g, OPERATORS pos = Some f /\ OPERATORS neg = Some g
              /\ forall a b, g a b = negate (f a b).
Proof.
  intros Hin. cbn [negated_pairs In] in Hin.
  repeat (destruct Hin as [Hin | Hin];
          [injection Hin as <- <-; eexists _, _;
           split; [reflexivity | split; [reflexivity|]] |]);
    [.. | destruct Hin]; intros a b; cbn [negate bind].
  - reflexivity.
  - destruct (truthy a); reflexivity.
  - destruct (truthy a); reflexivity.
  - now rewrite !negb_andb, !negb_involutive.
  - destruct (truthy b); reflexivity.
Qed.

Definition caught (e : exn) : bool :=
  match e with TypeError | AttributeError => true | _ => false end.

(** X5: on the same condition and page, an operator and its negated twin
    ([eq]/[ne], [contains]/[not_contains], [matches]/[not_matches],
    [exists]/[not_exists], [in]/[not_in]) give opposite answers, with two
    exceptions: when the operator raises a [TypeError] or an
    [AttributeError] both conditions are false, and any other exception
    escapes from both. *)
Theorem negated_operator_outcomes :
  forall (pos neg : string) (c : RuleCondition) (page_data : list (string * Py.value)),
    In (pos, neg) negated_pairs ->
    let p := evaluate_condition (with_operator c pos) page_data in
    let n := evaluate_condition (with_operator c neg) page_data in
    (exists b : bool, p = Ret b /\ n = Ret (negb b))
    \/ (p = Ret false /\ n = Ret false
        /\ exists f e v, OPERATORS pos = Some f /\ caught e = true
                         /\ left_operand c page_data = Ret v
                         /\ f v (value c) = Raise e)
    \/ (exists e, caught e = false /\ p = Raise e /\ n = Raise e).
Proof.
  intros pos neg c page_data Hin p n.
  destruct (negated_entry pos neg Hin) as (f & g & Hf & Hg & Hneg).
  unfold p, n, evaluate_condition.
  change (left_operand (with_operator c pos) page_data) with (left_operand c page_data).
  change (left_operand (with_operator c neg) page_data) with (left_operand c page_data).
  destruct (left_operand c page_data) as [v | e0] eqn:Hleft; cbn [bind].
  2:{ right. right. exists e0. repeat split.
      unfold left_operand in Hleft.
      destruct (get_nested_value page_data (field c)) as [raw | e1] eqn:Hpath;
        cbn [bind] in Hleft; [discriminate|].
      injection Hleft as <-. now apply walk_raises in Hpath as ->. }
  cbn [with_operator operator value]. rewrite Hf, Hg, Hneg.
  destruct (f v (value c)) as [b | e] eqn:Hcall;
    cbn [negate bind].
  - left. now exists b.
  - destruct e; cbn [caught].
    + right. left. repeat split. exists f, TypeError, v. now repeat split.
    + right. left. repeat split. exists f, AttributeError, v. now repeat split.
    + right. right. now exists ValueError.
    + right. right. now exists IndexError.
    + right. right. now exists ReError.
Qed.

End NegatedOperators.

Section EvaluatorExamples.
#[local] Existing Instance Demo.builtins.
Import Py RuleEngine.

(** On the page without a title, the conditions that its title is [in]
    the number 3 and that it is [not_in] it are both false: membership in
    a number raises a [TypeError]. *)
Lemma negated_operator_outcomes_witness :
  let c := Demo.title_condition "in" (VInt 3) in
  let p := evaluate_condition (with_operator c "in") Demo.page_without_title in
  let n := evaluate_condition (with_operator c "not_in") Demo.page_without_title in
  p = Ret false /\ n = Ret false
  /\ ((exists b : bool, p = Ret b /\ n = Ret (negb b))
      \/ (p = Ret false /\ n = Ret false
          /\ exists f e v, OPERATORS "in" = Some f /\ caught e = true
                           /\ left_operand c Demo.page_without_title = Ret v
                           /\ f v (value c) = Raise e)
      \/ (exists e, caught e = false /\ p = Raise e /\ n = Raise e)).
Proof.
  intros c p n.
  split; [reflexivity|]. split; [reflexivity|].
  apply (negated_operator_outcomes "in" "not_in" c Demo.page_without_title).
  do 4 right. left. reflexivity.
Defined.

End EvaluatorExamples.

(** ** Splitting a string at a character class *)

Section StringParts.
Import PyStr.
Lemma break_fst_chars (p : ascii -> bool) (s : string) :
  all_chars (fun x => negb (p x)) (fst (break p s)) = true.
Proof.
  induction s as [|c s IH]; [reflexivity|].
  cbn [break]. destruct (p c) eqn:Hc; [reflexivity|].
  destruct (break p s) as [a b]. cbn [fst all_chars] in *. now rewrite Hc, IH.
Qed.

Lemma break_parts (p : ascii -> bool) (s : string) :
  (fst (break p s) ++ snd (break p s))%string = s.
Proof.
  induction s as [|c s IH]; [reflexivity|].
  cbn [break]. destruct (p c); [reflexivity|].
  destruct (break p s) as [a b]. cbn [fst snd String.append] in *. now rewrite IH.
Qed.

End StringParts.

(** ** The rule registry *)

Section RegistryFacts.
Import Py Base RuleEngine Registry.

Lemma dict_get_in {A} (d : list (string * A)) (k : string) (v : A) :
  List.NoDup (map fst d) -> In (k, v) d -> dict_get d k = Some v.
Proof.
  induction d as [|[k' v'] d IH]; intros Hnd Hin; [destruct Hin|].
  cbn [map fst] in Hnd. apply List.NoDup_cons_iff in Hnd as [Hk Hnd].
  cbn [dict_get]. destruct Hin as [Heq | Hin].
  - injection Heq as -> ->. now rewrite String.eqb_refl.
  - destruct (String.eqb_spec k' k) as [-> | _]; [| now apply IH].
    exfalso. apply Hk. apply in_map_iff. now exists (k, v).
Qed.

Lemma dict_set_keys {A} (d : list (string * A)) (k : string) (v : A) :
  map fst (dict_set d k v)
  = if existsb (String.eqb k) (map fst d) then map fst d else map fst d ++ [k].
Proof.
  induction d as [|[k' v'] d IH]; cbn [dict_set map fst existsb]; [reflexivity|].
  rewrite (String.eqb_sym k k').
  destruct (String.eqb k' k); cbn [map fst orb]; [reflexivity|].
  rewrite IH. now destruct (existsb (String.eqb k) (map fst d)).
Qed.

Lemma dict_set_in {A} (d : list (string * A)) (k : string) (v : A)
    (k' : string) (v' : A) :
  In (k', v') (dict_set d k v) -> (k' = k /\ v' = v) \/ In (k', v') d.
Proof.
  induction d as [|[k0 v0] d IH]; cbn [dict_set].
  - intros [Heq | []]. injection Heq as <- <-. now left.
  - destruct (String.eqb_spec k0 k) as [-> | _].
    + intros [Heq | Hin]; [injection Heq as <- <-; now left | right; now right].
    + intros [Heq | Hin]; [right; now left|].
      destruct (IH Hin) as [Hnew | Hold]; [now left | right; now right].
Qed.

(** What [load] keeps true of the registry's dictionary: the keys are
    distinct, and every rule sits under its own id, is enabled and has
    passed validation. *)
Definition well_keyed (rules : list (string * Rule)) : Prop :=
  List.NoDup (map fst rules)
  /\ forall k r, In (k, r) rules ->
       k = id r /\ enabled r = true /\ model_validate r = Some r.

Lemma dict_set_well_keyed (rules : list (string * Rule)) (rule : Rule) :
  well_keyed rules -> enabled rule = true -> model_validate rule = Some rule ->
  well_keyed (dict_set rules (id rule) rule).
Proof.
  intros [Hnd Hall] Hen Hval. split.
  - rewrite dict_set_keys.
    destruct (existsb (String.eqb (id rule)) (map fst rules)) eqn:Hk; [exact Hnd|].
    apply List.NoDup_app; [exact Hnd | repeat constructor; intros [] |].
    intros x Hx [Hkx | []]. subst x.
    assert (existsb (String.eqb (id rule)) (map fst rules) = true); [| congruence].
    apply existsb_exists. exists (id rule). split; [exact Hx | apply String.eqb_refl].
  - intros k r Hin. apply dict_set_in in Hin as [[-> ->] | Hin]; [auto | now apply Hall].
Qed.

Lemma model_validate_same (raw rule : Rule) :
  model_validate raw = Some rule -> rule = raw /\ model_validate rule = Some rule.
Proof.
  unfold model_validate. intros Hv.
  destruct (validate_id (id raw) && _ && _ && _ && _) eqn:Hc; [| discriminate].
  injection Hv as <-. split; [reflexivity|]. now rewrite Hc.
Qed.

Lemma load_definitions_well_keyed (rules_data : list (option Rule)) :
  forall (rules : list (string * Rule)) (count : nat),
    well_keyed rules -> well_keyed (fst (load_definitions rules count rules_data)).
Proof.
  induction rules_data as [|[raw|] rest IH]; intros rules count Hwk;
    cbn [load_definitions]; [exact Hwk | | exact Hwk].
  destruct (model_validate raw) as [rule|] eqn:Hval; [| exact Hwk].
  apply model_validate_same in Hval as [-> Hval].
  destruct (enabled raw) eqn:Hen; [| now apply IH].
  apply IH. now apply dict_set_well_keyed.
Qed.

Lemma load_well_keyed (files : list rule_file) :
  forall acc : list (string * Rule) * nat,
    well_keyed (fst acc) -> well_keyed (fst (fold_left load_file files acc)).
Proof.
  induction files as [|f files IH]; intros acc Hwk; [exact Hwk|].
  cbn [fold_left]. apply IH. destruct f as [|rules_data]; [exact Hwk|].
  now apply load_definitions_well_keyed.
Qed.

(** X6: whatever the rule files hold, every rule of a registry loaded
    from them is enabled, has an id that passed the id pattern, and is the
    rule [get_by_id] returns for its id: no two rules of the registry
    share an id. *)
Theorem loaded_rules_are_valid_and_keyed :
  forall (files : list rule_file) (r : Rule),
    let reg := fst (load new_registry files) in
    In r (get_all reg) ->
    enabled r = true
    /\ validate_id (id r) = true
    /\ get_by_id reg (id r) = Some r.
Proof.
  intros files r reg Hin.
  assert (Hwk : well_keyed (_rules reg)).
  { unfold reg, load.
    pose proof (load_well_keyed files (_rules new_registry, 0%nat)) as Hwk.
    destruct (fold_left load_file files (_rules new_registry, 0%nat)) as [rules count].
    cbn [fst _rules] in *. apply Hwk. split; [constructor | intros k r' []]. }
  destruct Hwk as [Hnd Hall].
  unfold get_all in Hin. apply in_map_iff in Hin as ([k r'] & Hr & Hin).
  cbn [snd] in Hr. subst r'.
  destruct (Hall k r Hin) as (-> & Hen & Hval).
  repeat split; [exact Hen | | now apply dict_get_in].
  unfold model_validate in Hval.
  destruct (validate_id (id r)); [reflexivity | discriminate].
Qed.

(** A definition [load] cannot register: not of the shape of a rule, or
    refused by validation. *)
Definition invalid (entry : option Rule) : Prop :=
  match entry with
  | None => True
  | Some raw => model_validate raw = None
  end.

Lemma load_definitions_cut (before : list (option Rule)) (bad : option Rule)
    (after : list (option Rule)) :
  invalid bad ->
  forall (rules : list (string * Rule)) (count : nat),
    load_definitions rules count (before ++ bad :: after)
    = load_definitions rules count before.
Proof.
  intros Hbad. induction before as [|[raw|] before IH]; intros rules count;
    cbn [app load_definitions].
  - destruct bad as [raw|]; [| reflexivity]. cbn [invalid] in Hbad. now rewrite Hbad.
  - destruct (model_validate raw) as [rule|]; [| reflexivity].
    destruct (enabled rule); apply IH.
  - reflexivity.
Qed.

(** X7: a definition that does not validate ends the loading of its
    file without undoing it: the definitions after it in the file are
    never registered, those before it and the other files are loaded as
    if the file had ended there. *)
Theorem invalid_definition_ends_its_file :
  forall (reg : RuleRegistry) (earlier later : list rule_file)
         (before after : list (option Rule)) (bad : option Rule),
    invalid bad ->
    load reg (earlier ++ Definitions (before ++ bad :: after) :: later)
    = load reg (earlier ++ Definitions before :: later).
Proof.
  intros reg earlier later before after bad Hbad. unfold load.
  rewrite !fold_left_app. cbn [fold_left load_file].
  now rewrite (load_definitions_cut before bad after Hbad).
Qed.

(** *** Rule ids *)

Lemma validate_id_line_feed_body (r : string) :
  snd (PyStr.break (fun c => negb (id_char c)) r) = "" ->
  PyStr.break (fun c => negb (id_char c)) (r ++ line_feed) = (r, line_feed).
Proof.
  intros Hrest.
  pose proof (break_fst_chars (fun c => negb (id_char c)) r) as Hbody.
  pose proof (break_parts (fun c => negb (id_char c)) r) as Hparts.
  rewrite Hrest, append_empty_r in Hparts. rewrite Hparts in Hbody.
  now apply break_app.
Qed.

(** X8: the id pattern ends in [$], which also matches before a final
    line feed: an id that is accepted and does not end in a line feed is
    still accepted with one line feed added. *)
Theorem rule_id_may_end_in_line_feed :
  forall v : string,
    validate_id v = true ->
    PyStr.endswith v line_feed = false ->
    validate_id (v ++ line_feed) = true.
Proof.
  intros [|c0 r] Hv Hend; [discriminate|].
  cbn [validate_id String.append] in *.
  destruct (PyStr.break (fun c => negb (id_char c)) r) as [body rest] eqn:Hbreak.
  apply andb_prop in Hv as [Hv Hrest]. 
  assert (Hr : rest = "").
  { apply orb_prop in Hrest as [Hr | Hr]; apply String.eqb_eq in Hr; [exact Hr|].
    exfalso. subst rest.
    pose proof (break_parts (fun c => negb (id_char c)) r) as Hparts.
    rewrite Hbreak in Hparts. cbn [fst snd] in Hparts.
    assert (Hends : PyStr.endswith (String c0 r) line_feed = true).
    { rewrite <- Hparts. clear. cbn [PyStr.endswith].
      replace (String.eqb (String c0 (body ++ line_feed)) line_feed) with false.
      2:{ symmetry. apply String.eqb_neq. unfold line_feed.
          destruct body; cbn; intros E; discriminate E. }
      cbn [orb]. induction body as [|x body IH]; [reflexivity|].
      cbn [String.append PyStr.endswith]. now rewrite IH, orb_true_r. }
    congruence. }
  subst rest.
  assert (Hb : body = r).
  { pose proof (break_parts (fun c => negb (id_char c)) r) as Hparts.
    rewrite Hbreak in Hparts. cbn [fst snd] in Hparts.
    now rewrite append_empty_r in Hparts. }
  subst body.
  rewrite validate_id_line_feed_body by now rewrite Hbreak.
  rewrite Hv. reflexivity.
Qed.

End RegistryFacts.

Section RegistryExamples.
Import Py Base RuleEngine Registry.

Definition missing_title_rule : Rule :=
  {| id := "missing-title"; name := "Missing title";
     rule_category := ON_PAGE; rule_severity := HIGH;
     conditions := [Demo.title_condition "not_exists" VNone];
     condition_logic := "AND";
     rule_impact_score := 80%Q; rule_effort_score := 2%Q;
     enabled := true |}.

(** A file of one definition. *)
Lemma loaded_rules_are_valid_and_keyed_witness :
  let reg := fst (load new_registry [Definitions [Some Demo.bad_pattern_rule]]) in
  In Demo.bad_pattern_rule (get_all reg)
  /\ enabled Demo.bad_pattern_rule = true
  /\ validate_id (id Demo.bad_pattern_rule) = true
  /\ get_by_id reg (id Demo.bad_pattern_rule) = Some Demo.bad_pattern_rule.
Proof.
  intros reg.
  assert (Hin : In Demo.bad_pattern_rule (get_all reg)) by (left; reflexivity).
  split; [exact Hin|].
  exact (loaded_rules_are_valid_and_keyed
           [Definitions [Some Demo.bad_pattern_rule]] Demo.bad_pattern_rule Hin).
Defined.

(** A file whose second entry is no rule: the third is not loaded. *)
Lemma invalid_definition_ends_its_file_witness :
  invalid None
  /\ load new_registry
       [Definitions [Some Demo.bad_pattern_rule; None; Some missing_title_rule]]
     = load new_registry [Definitions [Some Demo.bad_pattern_rule]].
Proof.
  split; [exact I|].
  exact (invalid_definition_ends_its_file new_registry [] []
           [Some Demo.bad_pattern_rule] [Some missing_title_rule] None I).
Defined.

Lemma rule_id_may_end_in_line_feed_witness :
  validate_id "missing-title" = true
  /\ validate_id ("missing-title" ++ line_feed) = true.
Proof.
  split; [reflexivity|].
  exact (rule_id_may_end_in_line_feed "missing-title" eq_refl eq_refl).
Defined.

End RegistryExamples.

(** ** The token bucket *)

Section TokenBucket.
Import Limiter Num.
#[local] Open Scope Q_scope.

Lemma Qlt_bool_false (a b : Q) : b <= a -> Qlt_bool a b = false.
Proof. intros Hab. unfold Qlt_bool. apply negb_false_iff. now apply Qle_bool_iff. Qed.

Lemma Qlt_bool_true (a b : Q) : a < b -> Qlt_bool a b = true.
Proof.
  intros Hab. unfold Qlt_bool. apply negb_true_iff.
  destruct (Qle_bool b a) eqn:E; [| reflexivity].
  apply Qle_bool_iff in E. lra.
Qed.

(** The clock readings of successive calls, none before the last refill. *)
Fixpoint in_order (t : Q) (times : list Q) : Prop :=
  match times with
  | [] => True
  | now :: later => t <= now /\ in_order now later
  end.

Lemma refill_keeps (l : RateLimiter) (now : Q) :
  0 <= rate l -> tokens l <= max_tokens l -> last_refill l <= now ->
  tokens l <= py_min (max_tokens l) (tokens l + (now - last_refill l) * rate l).
Proof.
  intros Hrate Hcap Hnow. apply py_min_glb; [exact Hcap|].
  assert (0 <= (now - last_refill l) * rate l)
    by (apply Qmult_le_0_compat; lra).
  lra.
Qed.

(** X9: a limiter whose rate is not negative and whose bucket holds at
    least n tokens lets n calls of [acquire] through without any sleep,
    however close together they come, provided the clock never runs
    backwards. *)
Theorem burst_is_not_delayed :
  forall (l : RateLimiter) (times : list Q),
    0 <= rate l -> tokens l <= max_tokens l ->
    inject_Z (Z.of_nat (length times)) <= tokens l ->
    in_order (last_refill l) times ->
    snd (acquire_all l times) = map (fun _ => Slept 0) times.
Proof.
  intros l times. revert l.
  induction times as [|now later IH]; intros l Hrate Hcap Hn Horder; [reflexivity|].
  destruct Horder as [Hnow Horder].
  cbn [acquire_all map]. unfold acquire.
  pose proof (refill_keeps l now Hrate Hcap Hnow) as Hrefill.
  set (refilled := py_min (max_tokens l) (tokens l + (now - last_refill l) * rate l)) in *.
  assert (Hlen : inject_Z (Z.of_nat (length (now :: later)))
                 == inject_Z (Z.of_nat (length later)) + 1).
  { cbn [length]. rewrite Nat2Z.inj_succ, <- Z.add_1_r, inject_Z_plus. reflexivity. }
  rewrite Hlen in Hn.
  assert (Hpos : 0 <= inject_Z (Z.of_nat (length later))).
  { change 0 with (inject_Z 0). rewrite <- Zle_Qle. lia. }
  rewrite (Qlt_bool_false refilled 1) by lra.
  set (l' := {| rate := rate l; max_tokens := max_tokens l;
                tokens := refilled - 1; last_refill := now |}).
  specialize (IH l').
  destruct (acquire_all l' later) as [l'' outcomes].
  cbn [snd] in *. f_equal. apply IH; unfold l'; cbn [rate max_tokens tokens last_refill].
  - exact Hrate.
  - pose proof (py_min_le_l (max_tokens l)
                  (tokens l + (now - last_refill l) * rate l)) as Hle.
    fold refilled in Hle. lra.
  - lra.
  - exact Horder.
Qed.

(** X10: with a positive rate, [acquire] never raises and never sleeps
    longer than one token takes to arrive, [1 / rate]; it leaves between 0
    and [max_tokens] tokens in the bucket, none at all after a sleep. *)
Theorem acquire_wait_is_bounded :
  forall (l : RateLimiter) (now : Q),
    0 < rate l -> 0 <= max_tokens l -> 0 <= tokens l -> last_refill l <= now ->
    exists (l' : RateLimiter) (wait_time : Q),
      acquire l now = (l', Slept wait_time)
      /\ 0 <= wait_time /\ wait_time <= 1 / rate l
      /\ 0 <= tokens l' /\ tokens l' <= max_tokens l
      /\ (0 < wait_time -> tokens l' == 0).
Proof.
  intros l now Hrate Hmax Htok Hnow. unfold acquire.
  assert (He : 0 <= (now - last_refill l) * rate l)
    by (apply Qmult_le_0_compat; lra).
  assert (Hlow : 0 <= py_min (max_tokens l) (tokens l + (now - last_refill l) * rate l))
    by (apply py_min_glb; lra).
  pose proof (py_min_le_l (max_tokens l) (tokens l + (now - last_refill l) * rate l))
    as Hhigh.
  set (refilled := py_min (max_tokens l) (tokens l + (now - last_refill l) * rate l)) in *.
  destruct (Qlt_le_dec refilled 1) as [Hlt | Hge].
  - rewrite (Qlt_bool_true refilled 1 Hlt).
    assert (Hr : Qeq_bool (rate l) 0 = false).
    { destruct (Qeq_bool (rate l) 0) eqn:E; [| reflexivity].
      apply Qeq_bool_iff in E. lra. }
    rewrite Hr. eexists _, _. split; [reflexivity|].
    cbn [tokens].
    assert (Hinv : 0 < / rate l) by now apply Qinv_lt_0_compat.
    unfold Qdiv. repeat split; try lra.
    + apply Qmult_le_0_compat; lra.
    + apply Qmult_le_compat_r; lra.
  - rewrite (Qlt_bool_false refilled 1 Hge).
    eexists _, _. split; [reflexivity|].
    cbn [tokens].
    assert (Hinv : 0 < / rate l) by now apply Qinv_lt_0_compat.
    unfold Qdiv. repeat split; try lra.
Qed.

(** X11: with a rate of zero, [acquire] raises the division error as
    soon as the bucket holds less than one token, or can never hold one:
    the bucket does not refill, and the wait is computed by dividing by
    the rate. *)
Theorem zero_rate_raises :
  forall (l : RateLimiter) (now : Q),
    rate l == 0 -> tokens l < 1 \/ max_tokens l < 1 ->
    snd (acquire l now) = ZeroDivision.
Proof.
  intros l now Hrate Hshort. unfold acquire.
  assert (Hz : (now - last_refill l) * rate l == 0) by (rewrite Hrate; ring).
  assert (Hlt : py_min (max_tokens l) (tokens l + (now - last_refill l) * rate l) < 1).
  { pose proof (py_min_le_l (max_tokens l) (tokens l + (now - last_refill l) * rate l))
      as Hl.
    pose proof (py_min_le_r (max_tokens l) (tokens l + (now - last_refill l) * rate l))
      as Hr.
    set (gain := (now - last_refill l) * rate l) in *.
    destruct Hshort; lra. }
  rewrite (Qlt_bool_true _ 1 Hlt).
  apply Qeq_bool_iff in Hrate. now rewrite Hrate.
Qed.

End TokenBucket.

Section TokenBucketExamples.
Import Limiter.
#[local] Open Scope Q_scope.

(** The limiter of a crawl at the default 5 requests a second holds 10
    tokens: ten requests at the same instant are not delayed. *)
Lemma burst_is_not_delayed_witness :
  let l := crawl_limiter 5 None 0 in
  tokens l == 10
  /\ snd (acquire_all l (repeat 0 10)) = repeat (Slept 0) 10.
Proof.
  intros l. split; [reflexivity|].
  apply (burst_is_not_delayed l (repeat 0 10)).
  - discriminate.
  - cbn. discriminate.
  - cbn. discriminate.
  - cbn. repeat split; discriminate.
Defined.

(** The eleventh request of that burst waits a fifth of a second. *)
Lemma acquire_wait_is_bounded_witness :
  let l := fst (acquire_all (crawl_limiter 5 None 0) (repeat 0 10)) in
  snd (acquire l 0) = Slept (1 / 5)
  /\ exists (l' : RateLimiter) (wait_time : Q),
       acquire l 0 = (l', Slept wait_time)
       /\ 0 <= wait_time /\ wait_time <= 1 / rate l
       /\ 0 <= tokens l' /\ tokens l' <= max_tokens l
       /\ (0 < wait_time -> tokens l' == 0).
Proof.
  intros l. split; [vm_compute; reflexivity|].
  apply (acquire_wait_is_bounded l 0); vm_compute; congruence.
Defined.

(** A crawl configured with a rate limit of 0 and no crawl delay: the
    first request raises. *)
Lemma zero_rate_raises_witness :
  snd (acquire (crawl_limiter 0 None 0) 5) = ZeroDivision.
Proof.
  apply (zero_rate_raises (crawl_limiter 0 None 0) 5).
  - reflexivity.
  - left. reflexivity.
Defined.

End TokenBucketExamples.

(** ** What a normalised URL looks like *)

Section NormalizedForm.
Context `{Lib.IpAddress}.
Import Py PyStr UrlParse Crawler.

Lemma startswith_app (s t p : string) :
  startswith s p = true -> startswith (s ++ t) p = true.
Proof.
  revert s. induction p as [|a p IH]; intros s Hs; [reflexivity|].
  destruct s as [|b s]; [discriminate|].
  cbn [startswith String.append] in *.
  apply andb_prop in Hs as [Hab Hs]. now rewrite Hab, IH.
Qed.

Lemma http_or_https (sch : string) :
  mem sch ["http"; "https"] = true -> sch = "http" \/ sch = "https".
Proof.
  unfold mem. cbn [existsb]. rewrite orb_false_r.
  intros Hs. apply orb_prop in Hs as [Hs | Hs]; apply String.eqb_eq in Hs; auto.
Qed.

Lemma urlunsplit_prefix (sch nl url q : string) :
  sch = "http" \/ sch = "https" ->
  startswith (urlunsplit sch nl url q "") (sch ++ "://") = true.
Proof.
  intros Hsch. unfold urlunsplit.
  assert (Hs : nonempty sch = true) by (destruct Hsch as [-> | ->]; reflexivity).
  assert (Hm : mem sch uses_netloc = true) by (destruct Hsch as [-> | ->]; reflexivity).
  rewrite Hs, Hm. cbn [andb]. change (nonempty "") with false. cbv iota.
  set (body := if nonempty nl || negb (startswith url "//") then _ else url).
  assert (Hbody : startswith body "//" = true).
  { unfold body. destruct (nonempty nl); cbn [orb]; [reflexivity|].
    destruct (startswith url "//") eqn:Hu; [exact Hu | reflexivity]. }
  assert (Hfull : startswith (sch ++ ":" ++ body) (sch ++ "://") = true).
  { destruct Hsch as [-> | ->]; cbn; destruct body as [|a [|b body]];
      cbn in Hbody |- *; try discriminate; exact Hbody. }
  destruct (nonempty q); [| exact Hfull].
  now apply startswith_app.
Qed.

(** X12: every URL [normalize] accepts comes out starting with [http://]
    or [https://]: a link of any other scheme is refused, and a scheme
    in uppercase comes out in lowercase. *)
Theorem normalized_url_is_http :
  forall (u b s : string),
    normalize u b = Some s ->
    startswith s "http://" = true \/ startswith s "https://" = true.
Proof.
  intros u b s Hn. unfold normalize in Hn.
  destruct (urljoin b (strip u)) as [joined | e]; [| discriminate].
  destruct (urlparse joined "") as [parsed | e]; [| discriminate].
  destruct (mem (scheme parsed) ["http"; "https"]) eqn:Hsch; [| discriminate].
  cbn [negb] in Hn.
  destruct (has_ignored_extension (path parsed)); [discriminate|].
  injection Hn as <-. unfold urlunparse.
  cbn [UrlParse.scheme UrlParse.netloc UrlParse.path UrlParse.params
       UrlParse.query UrlParse.fragment].
  apply http_or_https in Hsch as [-> | ->]; [left | right].
  - change (lower "http") with "http". apply (urlunsplit_prefix "http"). now left.
  - change (lower "https") with "https". apply (urlunsplit_prefix "https"). now right.
Qed.


(** *** No fragment *)

Definition not_hash (c : ascii) : bool := negb (Ascii.eqb c "#").

Lemma split_once_parts (c : ascii) (s a b : string) :
  split_once c s = Some (a, b) ->
  all_chars (fun x => negb (Ascii.eqb c x)) a = true
  /\ exists d : ascii, s = (a ++ String d b)%string.
Proof.
  unfold split_once. intros Hs.
  pose proof (break_fst_chars (Ascii.eqb c) s) as Hfst.
  pose proof (break_parts (Ascii.eqb c) s) as Hparts.
  destruct (break (Ascii.eqb c) s) as [x [|d y]]; [discriminate|].
  injection Hs as <- <-. cbn [fst snd] in *. split; [exact Hfst | now exists d].
Qed.

Lemma all_chars_prefix (P : ascii -> bool) (s a b : string) :
  s = (a ++ b)%string -> all_chars P s = true -> all_chars P a = true.
Proof.
  intros -> Hs. rewrite all_chars_app in Hs. now apply andb_prop in Hs as [Ha _].
Qed.

Lemma all_chars_split (P : ascii -> bool) (c : ascii) (s : string) :
  all_chars P s = true ->
  Forall (fun piece => all_chars P piece = true) (split c s).
Proof.
  induction s as [|x s IH]; intros Hs; [repeat constructor|].
  cbn [all_chars] in Hs. apply andb_prop in Hs as [Hx Hs]. specialize (IH Hs).
  cbn [split]. destruct (Ascii.eqb x c); [now constructor|].
  destruct (split c s) as [|piece pieces]; [repeat constructor; cbn; now rewrite Hx|].
  apply List.Forall_cons_iff in IH as [Hpiece Hpieces].
  constructor; [| exact Hpieces]. cbn [all_chars]. now rewrite Hx, Hpiece.
Qed.

Lemma not_hash_lower (s : string) :
  all_chars not_hash s = true -> all_chars not_hash (lower s) = true.
Proof.
  unfold lower. induction s as [|c s IH]; [reflexivity|].
  cbn [all_chars map_chars]. intros Hs. apply andb_prop in Hs as [Hc Hs].
  rewrite (IH Hs), andb_true_r. revert Hc.
  destruct c as [[|] [|] [|] [|] [|] [|] [|] [|]]; vm_compute; congruence.
Qed.

Lemma hash_is_delimiter (c : ascii) :
  negb (ascii_in c "/?#") = true -> not_hash c = true.
Proof.
  unfold not_hash, ascii_in. cbn [list_ascii_of_string existsb].
  destruct (Ascii.eqb c "#"); [| reflexivity].
  now rewrite !orb_true_r.
Qed.

(** What [urlsplit] hands back as network location and path holds no
    [#]: the location ends before the first of [/?#], the path before
    the first [#]. *)
Lemma urlsplit_not_hash (url default : string) (r : SplitResult) :
  urlsplit url default = Ret r ->
  all_chars not_hash (s_netloc r) = true /\ all_chars not_hash (s_path r) = true.
Proof.
  unfold urlsplit.
  destruct (split_scheme _ _) as [sch rest].
  set (located := match rest with
                  | String "/" (String "/" after) =>
                      break (fun c => ascii_in c "/?#") after
                  | _ => ("", rest)
                  end).
  assert (Hnl : all_chars not_hash (fst located) = true).
  { unfold located. destruct rest as [|c0 rest']; [reflexivity|].
    destruct (Ascii.eqb_spec c0 "/") as [-> | Hc0].
    - destruct rest' as [|c1 after]; [reflexivity|].
      destruct (Ascii.eqb_spec c1 "/") as [-> | Hc1].
      + eapply all_chars_impl; [| apply break_fst_chars]. apply hash_is_delimiter.
      + destruct c1 as [[|] [|] [|] [|] [|] [|] [|] [|]]; try reflexivity.
        now destruct Hc1.
    - destruct c0 as [[|] [|] [|] [|] [|] [|] [|] [|]]; try reflexivity.
      now destruct Hc0. }
  destruct located as [nl url1]. cbn [fst] in Hnl.
  destruct (negb (netloc_brackets_ok nl)); [discriminate|].
  set (cut := match split_once "#" url1 with
              | Some (a, b) => (a, b)
              | None => (url1, "")
              end).
  assert (Hcut : all_chars not_hash (fst cut) = true).
  { unfold cut. destruct (split_once "#" url1) as [[a b]|] eqn:Hsplit.
    - apply split_once_parts in Hsplit as [Ha _]. cbn [fst].
      eapply all_chars_impl; [| exact Ha].
      intros c Hc. unfold not_hash. now rewrite Ascii.eqb_sym.
    - cbn [fst]. unfold split_once in Hsplit.
      pose proof (break_fst_chars (Ascii.eqb "#") url1) as Hfst.
      pose proof (break_parts (Ascii.eqb "#") url1) as Hparts.
      destruct (break (Ascii.eqb "#") url1) as [x [|d y]]; [| discriminate].
      cbn [fst snd] in *. rewrite append_empty_r in Hparts. subst x.
      eapply all_chars_impl; [| exact Hfst].
      intros c Hc. unfold not_hash. now rewrite Ascii.eqb_sym. }
  destruct cut as [url2 frag]. cbn [fst] in Hcut.
  destruct (split_once "?" url2) as [[a b]|] eqn:Hq; intros Hr; injection Hr as <-;
    cbn [s_netloc s_path]; (split; [exact Hnl|]); [| exact Hcut].
  apply split_once_parts in Hq as [_ [d Hparts]].
  now apply (all_chars_prefix not_hash url2 a (String d b)).
Qed.

Lemma join_not_hash (items : list string) :
  Forall (fun piece => all_chars not_hash piece = true) items ->
  all_chars not_hash (join "/" items) = true.
Proof. intros Hitems. now apply join_chars. Qed.

Lemma Forall_removelast {A} (P : A -> Prop) (l : list A) :
  Forall P l -> Forall P (removelast l).
Proof.
  induction 1 as [|x l Hx Hl IH]; [constructor|].
  cbn [removelast]. destruct l; [constructor | now constructor].
Qed.

Lemma Forall_last {A} (P : A -> Prop) (l : list A) (d : A) :
  P d -> Forall P l -> P (List.last l d).
Proof.
  intros Hd. induction 1 as [|x l Hx Hl IH]; [exact Hd|].
  cbn [List.last]. now destruct l.
Qed.

Lemma urlparse_not_hash (url default : string) (p : ParseResult) :
  urlparse url default = Ret p ->
  all_chars not_hash (netloc p) = true
  /\ all_chars not_hash (path p) = true
  /\ all_chars not_hash (params p) = true.
Proof.
  unfold urlparse. destruct (urlsplit url default) as [r | e] eqn:Hsplit;
    [| discriminate].
  apply urlsplit_not_hash in Hsplit as [Hnl Hpath]. cbn [bind].
  destruct (mem (s_scheme r) uses_params && has_char ";" (s_path r)).
  - unfold splitparams.
    pose proof (all_chars_split not_hash "/" (s_path r) Hpath) as Hpieces.
    set (pieces := split "/" (s_path r)) in *.
    assert (Hlast : all_chars not_hash (List.last pieces "") = true)
      by now apply (Forall_last (fun piece => all_chars not_hash piece = true)).
    destruct (split_once ";" (List.last pieces "")) as [[a b]|] eqn:Hsemi.
    + apply split_once_parts in Hsemi as [_ [d Hparts]].
      rewrite Hparts, all_chars_app in Hlast.
      apply andb_prop in Hlast as [Ha Hb]. cbn [all_chars] in Hb.
      apply andb_prop in Hb as [_ Hb].
      intros Hp. injection Hp as <-. cbn [netloc path params].
      repeat split; [exact Hnl | | exact Hb].
      apply join_not_hash, Forall_app. split.
      * now apply Forall_removelast.
      * now repeat constructor.
    + intros Hp. injection Hp as <-. now repeat split.
  - intros Hp. injection Hp as <-. now repeat split.
Qed.

Lemma urlunsplit_not_hash (sch nl url q : string) :
  all_chars not_hash sch = true -> all_chars not_hash nl = true ->
  all_chars not_hash url = true -> all_chars not_hash q = true ->
  all_chars not_hash (urlunsplit sch nl url q "") = true.
Proof.
  intros Hsch Hnl Hurl Hq. unfold urlunsplit.
  change (nonempty "") with false. cbv iota.
  repeat match goal with
         | |- context [if ?c then _ else _] => destruct c
         end;
    rewrite ?all_chars_app, ?Hsch, ?Hnl, ?Hurl, ?Hq; reflexivity.
Qed.

(** X13: no URL that [normalize] returns contains a [#]: the fragment
    of the link is dropped and nothing else of the URL can hold one. *)
Theorem normalized_url_has_no_fragment :
  forall (u b s : string),
    normalize u b = Some s -> has_char "#" s = false.
Proof.
  intros u b s Hn. apply has_char_none. fold not_hash.
  unfold normalize in Hn.
  destruct (urljoin b (strip u)) as [joined | e]; [| discriminate].
  destruct (urlparse joined "") as [parsed | e] eqn:Hparse; [| discriminate].
  apply urlparse_not_hash in Hparse as (Hnl & Hpath & Hparams).
  destruct (mem (scheme parsed) ["http"; "https"]) eqn:Hsch; [| discriminate].
  cbn [negb] in Hn.
  destruct (has_ignored_extension (path parsed)); [discriminate|].
  injection Hn as <-. unfold urlunparse.
  cbn [UrlParse.scheme UrlParse.netloc UrlParse.path UrlParse.params
       UrlParse.query UrlParse.fragment].
  assert (Htrim : all_chars not_hash (trim_path (path parsed)) = true).
  { unfold trim_path. destruct (_ && _); [| exact Hpath].
    now apply rstrip_while_all_chars. }
  apply urlunsplit_not_hash.
  - apply http_or_https in Hsch as [-> | ->]; reflexivity.
  - now apply not_hash_lower.
  - destruct (nonempty (params parsed)); [| exact Htrim].
    rewrite !all_chars_app, Htrim, Hparams. reflexivity.
  - eapply all_chars_impl; [| apply clean_query_chars].
    apply query_char_not_hash.
Qed.

(** *** The query without the tracking parameters *)

(** X14: read back with [parse_qs], the query [normalize] writes holds
    the parameters of the original query in their order, names and
    values unchanged, except those on the list of tracking parameters,
    which are gone. *)
Theorem cleaned_query_keeps_other_parameters :
  forall q : string,
    parse_qs (clean_query q)
    = List.filter (fun kv => negb (mem (fst kv) IGNORED_PARAMS)) (parse_qs q).
Proof.
  intros q. unfold clean_query.
  destruct (nonempty q) eqn:Hq.
  - apply parse_qs_urlencode, filter_well_formed, parse_qs_well_formed.
  - unfold nonempty in Hq. apply negb_false_iff, String.eqb_eq in Hq.
    now subst q.
Qed.

End NormalizedForm.

Section NormalizedFormExamples.
#[local] Existing Instance Demo.ip.
Import PyStr Crawler.

(** A link with an uppercase scheme and host. *)
Lemma normalized_url_is_http_witness :
  normalize "HTTPS://Example.COM/Shop#top" Demo.found_on
  = Some "https://example.com/Shop"
  /\ (startswith "https://example.com/Shop" "http://" = true
      \/ startswith "https://example.com/Shop" "https://" = true).
Proof.
  split; [vm_compute; reflexivity|].
  apply (normalized_url_is_http "HTTPS://Example.COM/Shop#top" Demo.found_on).
  vm_compute. reflexivity.
Defined.

(** The link of the team page, whose fragment is [staff]. *)
Lemma normalized_url_has_no_fragment_witness :
  normalize Demo.team_link Demo.found_on
  = Some "https://example.com/About/Team?id=7&tag=a+b"
  /\ has_char "#" "https://example.com/About/Team?id=7&tag=a+b" = false.
Proof.
  split; [vm_compute; reflexivity|].
  apply (normalized_url_has_no_fragment Demo.team_link Demo.found_on).
  vm_compute. reflexivity.
Defined.

End NormalizedFormExamples.

(** ** The crawl: what is fetched, how deep, and the counters *)

Section CrawlScope.
Context `{Lib.IpAddress} `{Lib.Html} `{RobotParser.RobotsText}.
Import Py Base Crawler.
Variable parsers : gmap string RobotParser.RobotFileParser.
Variable cfg : Config.
Variable root_url : string.
Variable domain : string.

(** A URL the crawl may ask the fetcher for: on the root domain and not
    refused by robots.txt. *)
Definition permitted (u : string) : Prop :=
  is_same_domain u domain = Ret true
  /\ can_fetch parsers u CRAWLER_USER_AGENT = Ret true.

Definition awaits_permitted (task : nat * CrawlURL * string) : Prop :=
  permitted (snd task).

Lemma start_task_permitted (item : CrawlURL) (st st' : CrawlState) (n : string) :
  start_task parsers cfg root_url domain item st = (st', AwaitingFetch n) ->
  permitted n.
Proof.
  unfold start_task. intros Heq.
  destruct (normalize (cu_url item) root_url) as [normalized|]; [| discriminate].
  destruct (negb (UrlParse.nonempty normalized)); [discriminate|].
  destruct (is_same_domain normalized domain) as [[|] | e] eqn:Hdom;
    [| discriminate | discriminate].
  destruct (bool_decide (normalized ∈ visited st)); [discriminate|].
  destruct (max_depth cfg <? cu_depth item); [discriminate|].
  destruct (can_fetch parsers normalized CRAWLER_USER_AGENT) as [[|] | e] eqn:Hrob;
    [| discriminate | discriminate].
  injection Heq as _ <-. now split.
Qed.

(** The move a scheduling choice comes to: the next task starts, or the
    page of the running task at an index arrives. *)
Definition move (choice : nat) (b : BatchRun) : option nat :=
  match choice, waiting b, running b with
  | O, _ :: _, ru =>
      if (Z.of_nat (length (running b)) <? concurrency cfg)%Z then None
      else match ru with
           | [] => None
           | _ => Some 0%nat
           end
  | _, _, _ :: _ => Some (Nat.pred choice mod length (running b))%nat
  | _, _, [] => None
  end.

Lemma batch_step_move (fetch : string -> bool -> PageData) (choice : nat)
    (b : BatchRun) (st : CrawlState) :
  batch_step fetch parsers cfg root_url domain choice b st
  = match move choice b with
    | None => start_next parsers cfg root_url domain b st
    | Some j => finish_at fetch cfg domain j b st
    end.
Proof.
  unfold batch_step, move.
  destruct choice, (waiting b), (running b);
    try destruct (_ <? _)%Z; reflexivity.
Qed.

Section TwoFetchers.
Variables fetch1 fetch2 : string -> bool -> PageData.
Hypothesis same_on_permitted :
  forall u : string, permitted u -> fetch1 u (js_render cfg) = fetch2 u (js_render cfg).

Lemma finish_task_same (item : CrawlURL) (n : string) (st : CrawlState) :
  permitted n ->
  finish_task fetch1 cfg domain item n st = finish_task fetch2 cfg domain item n st.
Proof. intros Hn. unfold finish_task. now rewrite (same_on_permitted n Hn). Qed.

Lemma start_next_awaits (b b' : BatchRun) (st st' : CrawlState) :
  Forall awaits_permitted (running b) ->
  start_next parsers cfg root_url domain b st = (b', st') ->
  Forall awaits_permitted (running b').
Proof.
  intros Hrun Heq. unfold start_next in Heq.
  destruct (waiting b) as [|[slot item] rest]; [now injection Heq as <- _|].
  destruct (start_task parsers cfg root_url domain item st) as [st1 [r | n]] eqn:Hstart;
    injection Heq as <- _; cbn [running]; [exact Hrun|].
  apply Forall_app. split; [exact Hrun|].
  constructor; [| constructor].
  unfold awaits_permitted. cbn [snd]. eapply start_task_permitted, Hstart.
Qed.

Lemma finish_at_same (j : nat) (b : BatchRun) (st : CrawlState) :
  Forall awaits_permitted (running b) ->
  finish_at fetch1 cfg domain j b st = finish_at fetch2 cfg domain j b st
  /\ Forall awaits_permitted (running (fst (finish_at fetch1 cfg domain j b st))).
Proof.
  intros Hrun. unfold finish_at.
  destruct (running b !! j) as [[[slot item] n]|] eqn:Hj; [| now split].
  assert (Hn : permitted n).
  { rewrite Forall_lookup in Hrun. apply (Hrun j _ Hj). }
  rewrite (finish_task_same item n st Hn).
  destruct (finish_task fetch2 cfg domain item n st) as [st1 r].
  split; [reflexivity|]. cbn [fst running].
  now apply Forall_delete.
Qed.

Lemma batch_step_same (choice : nat) (b : BatchRun) (st : CrawlState) :
  Forall awaits_permitted (running b) ->
  batch_step fetch1 parsers cfg root_url domain choice b st
  = batch_step fetch2 parsers cfg root_url domain choice b st
  /\ Forall awaits_permitted
       (running (fst (batch_step fetch1 parsers cfg root_url domain choice b st))).
Proof.
  intros Hrun.
  rewrite !(batch_step_move _ choice b st).
  destruct (move choice b) as [j|]; [now apply finish_at_same|].
  split; [reflexivity|].
  destruct (start_next parsers cfg root_url domain b st) as [bs sts] eqn:Hs.
  cbn [fst]. eapply start_next_awaits; eauto.
Qed.

Lemma batch_steps_same (schedule : nat -> nat) (steps : nat) :
  forall (k : nat) (b : BatchRun) (st : CrawlState),
    Forall awaits_permitted (running b) ->
    batch_steps fetch1 parsers cfg root_url domain schedule steps k b st
    = batch_steps fetch2 parsers cfg root_url domain schedule steps k b st.
Proof.
  induction steps as [|steps IH]; intros k b st Hrun; [reflexivity|].
  cbn [batch_steps].
  destruct (batch_step_same (schedule k) b st Hrun) as [Heq Hnext].
  rewrite <- Heq.
  destruct (batch_step fetch1 parsers cfg root_url domain (schedule k) b st)
    as [b1 st1].
  now apply IH.
Qed.

Lemma loop_body_same (schedule : nat -> nat) (st : CrawlState) :
  loop_body fetch1 parsers cfg root_url domain schedule st
  = loop_body fetch2 parsers cfg root_url domain schedule st.
Proof.
  unfold loop_body, run_batch.
  rewrite batch_steps_same by constructor. reflexivity.
Qed.

Lemma bfs_loop_same (schedules : nat -> nat -> nat) (fuel : nat) :
  forall (i : nat) (st : CrawlState),
    bfs_loop fetch1 parsers cfg root_url domain schedules fuel i st
    = bfs_loop fetch2 parsers cfg root_url domain schedules fuel i st.
Proof.
  induction fuel as [|fuel IH]; intros i st; cbn [bfs_loop]; [reflexivity|].
  destruct (loop_continues cfg st); [| reflexivity].
  rewrite loop_body_same. apply IH.
Qed.

End TwoFetchers.

(** X15: the crawl asks the fetcher only for URLs on the root domain
    that robots.txt allows.  Two fetchers that return the same page for
    every such URL give the same crawl, step for step, under every
    schedule: what a fetcher would return for any other URL never
    matters. *)
Theorem crawl_fetches_only_permitted :
  forall fetch1 fetch2 : string -> bool -> PageData,
    (forall u : string,
        permitted u -> fetch1 u (js_render cfg) = fetch2 u (js_render cfg)) ->
    forall (schedules : nat -> nat -> nat) (fuel : nat) (st : CrawlState),
      bfs_loop fetch1 parsers cfg root_url domain schedules fuel 0 st
      = bfs_loop fetch2 parsers cfg root_url domain schedules fuel 0 st.
Proof. intros fetch1 fetch2 Hsame schedules fuel st. now apply bfs_loop_same. Qed.


(** *** Invariants of a crawl *)

Variable fetch : string -> bool -> PageData.

#[local] Abbreviation start_task := (Crawler.start_task parsers cfg root_url domain).
#[local] Abbreviation finish_task := (Crawler.finish_task fetch cfg domain).
#[local] Abbreviation start_next := (Crawler.start_next parsers cfg root_url domain).
#[local] Abbreviation finish_at := (Crawler.finish_at fetch cfg domain).
#[local] Abbreviation batch_steps := (Crawler.batch_steps fetch parsers cfg root_url domain).
#[local] Abbreviation run_batch := (Crawler.run_batch fetch parsers cfg root_url domain).
#[local] Abbreviation loop_body := (Crawler.loop_body fetch parsers cfg root_url domain).
#[local] Abbreviation bfs_loop := (Crawler.bfs_loop fetch parsers cfg root_url domain).

(** What both moves of a batch keep, every scheduled run of it keeps. *)
Lemma batch_steps_keep (P : BatchRun -> CrawlState -> Prop) :
  (forall b st b' st', P b st -> start_next b st = (b', st') -> P b' st') ->
  (forall j b st b' st', P b st -> finish_at j b st = (b', st') -> P b' st') ->
  forall (schedule : nat -> nat) (steps k : nat) (b b' : BatchRun) (st st' : CrawlState),
    P b st -> batch_steps schedule steps k b st = (b', st') -> P b' st'.
Proof.
  intros Hstart Hfinish schedule steps.
  induction steps as [|steps IH]; intros k b b' st st' HP Heq;
    cbn [Crawler.batch_steps] in Heq.
  - now injection Heq as <- <-.
  - destruct (Crawler.batch_step fetch parsers cfg root_url domain (schedule k) b st)
      as [b1 st1] eqn:Hstep.
    apply (IH (S k) b1 b' st1 st'); [| exact Heq].
    rewrite batch_step_move in Hstep.
    destruct (move (schedule k) b) as [j|]; eauto.
Qed.

(** What every iteration keeps, the loop keeps. *)
Lemma bfs_loop_keeps (I : CrawlState -> Prop) :
  (forall (schedule : nat -> nat) (st : CrawlState), I st -> I (loop_body schedule st)) ->
  forall (schedules : nat -> nat -> nat) (fuel i : nat) (st final : CrawlState),
    I st -> bfs_loop schedules fuel i st = Some final -> I final.
Proof.
  intros Hbody schedules fuel.
  induction fuel as [|fuel IH]; intros i st final HI Heq; cbn [Crawler.bfs_loop] in Heq.
  - destruct (loop_continues cfg st); [discriminate | now injection Heq as <-].
  - destruct (loop_continues cfg st); [| now injection Heq as <-].
    eapply IH; [| exact Heq]. now apply Hbody.
Qed.

Lemma enqueue_links_keeps (links : list string) (normalized : string) (depth : Z) :
  forall (st st' : CrawlState) (raised : bool),
    Crawler.enqueue_links cfg domain links normalized depth st = (st', raised) ->
    visited st' = visited st /\ crawled_pages st' = crawled_pages st
    /\ total_crawled (stats st') = total_crawled (stats st)
    /\ total_skipped (stats st') = total_skipped (stats st).
Proof.
  induction links as [|link rest IH]; intros st st' raised Heq; cbn in Heq.
  - now injection Heq as <- _.
  - destruct (normalize link normalized) as [ln|]; [| now apply (IH _ _ raised)].
    destruct (UrlParse.nonempty ln && negb (bool_decide (ln ∈ visited st)));
      [| now apply (IH _ _ raised)].
    destruct (is_same_domain ln domain) as [same | e]; [| now injection Heq as <- _].
    destruct (same && _); [| now apply (IH _ _ raised)].
    now apply (IH _ _ raised) in Heq.
Qed.

(** A task that ran to its end from its fetched page: one more page
    counted, the page at the depth of its queue entry. *)
Lemma finish_task_keeps (item : CrawlURL) (n : string) (st st' : CrawlState)
    (r : task_result) :
  finish_task item n st = (st', r) ->
  visited st' = visited st /\ crawled_pages st' = crawled_pages st
  /\ total_crawled (stats st') = (total_crawled (stats st) + 1)%Z
  /\ total_skipped (stats st') = total_skipped (stats st)
  /\ forall p, r = TaskPage p -> depth p = cu_depth item.
Proof.
  unfold Crawler.finish_task. intros Heq.
  set (page := set_depth (fetch n (js_render cfg)) (cu_depth item)) in *.
  set (stc := count_crawled st) in *.
  destruct (if UrlParse.nonempty (html page)
            then (if bool_decide (Lib.md5_hex (html page) ∈ fingerprints stc)
                  then set_meta page "is_duplicate_content" "true" else page,
                  add_fingerprint stc (Lib.md5_hex (html page)))
            else (page, stc)) as [page' stf] eqn:Hfp.
  assert (Hstf : visited stf = visited st /\ crawled_pages stf = crawled_pages st
                 /\ total_crawled (stats stf) = (total_crawled (stats st) + 1)%Z
                 /\ total_skipped (stats stf) = total_skipped (stats st)
                 /\ depth page' = cu_depth item).
  { destruct (UrlParse.nonempty (html page)); injection Hfp as <- <-;
      [destruct (bool_decide _) |]; repeat split. }
  destruct Hstf as (Hv & Hp & Hc & Hs & Hd).
  destruct (cu_depth item <? max_depth cfg).
  - destruct (Crawler.enqueue_links cfg domain (links page') n (cu_depth item) stf)
      as [ste raised] eqn:Henq.
    apply enqueue_links_keeps in Henq as (Hv' & Hp' & Hc' & Hs').
    destruct raised; injection Heq as <- <-;
      (repeat split; [congruence | congruence | congruence | congruence |]);
      intros p Hpage; [discriminate | now injection Hpage as <-].
  - injection Heq as <- <-. repeat split; try assumption.
    intros p Hpage. now injection Hpage as <-.
Qed.

(** A task up to its fetch: it never hands a page over; when it goes on
    to wait for its page, its entry is no deeper than [max_depth]; the
    URLs it marks visited cover what it counts as skipped. *)
Lemma start_task_keeps (item : CrawlURL) (st st' : CrawlState) (s : started) :
  start_task item st = (st', s) ->
  crawled_pages st' = crawled_pages st
  /\ total_crawled (stats st') = total_crawled (stats st)
  /\ (forall p, s <> Ended (TaskPage p))
  /\ match s with
     | Ended _ =>
         (total_skipped (stats st') - total_skipped (stats st)
          <= Z.of_nat (size (visited st')) - Z.of_nat (size (visited st)))%Z
         /\ (total_skipped (stats st) <= total_skipped (stats st'))%Z
     | AwaitingFetch _ =>
         total_skipped (stats st') = total_skipped (stats st)
         /\ size (visited st') = S (size (visited st))
         /\ (cu_depth item <= max_depth cfg)%Z
     end.
Proof.
  unfold Crawler.start_task. intros Heq.
  destruct (normalize (cu_url item) root_url) as [normalized|];
    [| injection Heq as <- <-; repeat split; (discriminate || lia)].
  destruct (negb (UrlParse.nonempty normalized));
    [injection Heq as <- <-; repeat split; (discriminate || lia) |].
  destruct (is_same_domain normalized domain) as [[|] | e];
    [| injection Heq as <- <-; repeat split; (discriminate || lia)
     | injection Heq as <- <-; repeat split; (discriminate || lia)].
  destruct (bool_decide (normalized ∈ visited st)) eqn:Hvis;
    [injection Heq as <- <-; repeat split; (discriminate || lia) |].
  apply bool_decide_eq_false in Hvis.
  assert (Hsize : size ({[normalized]} ∪ visited st) = S (size (visited st))).
  { rewrite size_union by set_solver. now rewrite size_singleton. }
  destruct (max_depth cfg <? cu_depth item) eqn:Hdepth.
  { injection Heq as <- <-. cbn. rewrite Hsize. repeat split; (discriminate || lia). }
  apply Z.ltb_ge in Hdepth.
  destruct (can_fetch parsers normalized CRAWLER_USER_AGENT) as [[|] | e];
    injection Heq as <- <-; cbn; rewrite ?Hsize; repeat split; (discriminate || lia).
Qed.


Definition is_page (r : task_result) : bool :=
  match r with TaskPage _ => true | _ => false end.

(** The pages among the results of a batch. *)
Definition page_results (rs : list task_result) : nat :=
  length (List.filter is_page rs).

Lemma page_results_insert (rs : list task_result) :
  forall (slot : nat) (r : task_result),
    (page_results (<[slot := r]> rs)
     <= page_results rs + (if is_page r then 1 else 0))%nat.
Proof.
  unfold page_results.
  induction rs as [|x rs IH]; intros slot r; [simpl; lia|].
  destruct slot as [|slot]; simpl.
  - destruct (is_page r), (is_page x); simpl; lia.
  - specialize (IH slot r). destruct (is_page x); simpl; lia.
Qed.

Lemma page_results_none (k : nat) : page_results (replicate k TaskNone) = 0%nat.
Proof.
  unfold page_results. induction k as [|k IH]; [reflexivity|].
  cbn [replicate List.filter is_page]. exact IH.
Qed.

Lemma collect_pages (rs : list task_result) :
  forall st : CrawlState,
    visited (fold_left collect rs st) = visited st
    /\ total_crawled (stats (fold_left collect rs st)) = total_crawled (stats st)
    /\ total_skipped (stats (fold_left collect rs st)) = total_skipped (stats st)
    /\ length (crawled_pages (fold_left collect rs st))
       = (length (crawled_pages st) + page_results rs)%nat
    /\ forall P : PageData -> Prop,
         Forall P (crawled_pages st) ->
         Forall (fun r => forall p, r = TaskPage p -> P p) rs ->
         Forall P (crawled_pages (fold_left collect rs st)).
Proof.
  unfold page_results.
  induction rs as [|r rs IH]; intros st; cbn [fold_left List.filter].
  - repeat split; cbn [length]; auto with zarith.
  - destruct (IH (collect st r)) as (Hv & Hc & Hs & Hl & HP).
    rewrite Hv, Hc, Hs, Hl.
    repeat split; try (destruct r; reflexivity).
    + destruct r; cbn [collect crawled_pages is_page length];
        rewrite ?length_app; cbn [length]; lia.
    + intros P Hst Hrs. apply List.Forall_cons_iff in Hrs as [Hr Hrs].
      apply HP; [| exact Hrs].
      destruct r; cbn [collect crawled_pages]; try exact Hst.
      apply Forall_app. split; [exact Hst|]. constructor; [| constructor].
      now apply Hr.
Qed.

(** *** No page below the depth limit *)

Definition within_depth (p : PageData) : Prop := (depth p <= max_depth cfg)%Z.

Definition depth_kept (b : BatchRun) (st : CrawlState) : Prop :=
  Forall within_depth (crawled_pages st)
  /\ Forall (fun t : nat * CrawlURL * string =>
               (cu_depth (snd (fst t)) <= max_depth cfg)%Z) (running b)
  /\ Forall (fun r => forall p, r = TaskPage p -> within_depth p) (results b).

Lemma start_next_depth (b : BatchRun) (st : CrawlState) (b' : BatchRun)
    (st' : CrawlState) :
  depth_kept b st -> start_next b st = (b', st') -> depth_kept b' st'.
Proof.
  intros (Hp & Hr & Hres) Heq. unfold Crawler.start_next in Heq.
  destruct (waiting b) as [|[slot item] rest]; [injection Heq as <- <-; now split|].
  destruct (start_task item st) as [st1 s] eqn:Hstart.
  apply start_task_keeps in Hstart as (Hpages & _ & Hnopage & Hcase).
  destruct s as [r | n]; injection Heq as <- <-;
    (split; [now rewrite Hpages | split]); cbn [running results].
  - exact Hr.
  - apply Forall_insert; [exact Hres|].
    intros p ->. now destruct (Hnopage p).
  - apply Forall_app. split; [exact Hr|].
    constructor; [| constructor]. cbn [fst snd]. apply Hcase.
  - exact Hres.
Qed.

Lemma finish_at_depth (j : nat) (b : BatchRun) (st : CrawlState) (b' : BatchRun)
    (st' : CrawlState) :
  depth_kept b st -> finish_at j b st = (b', st') -> depth_kept b' st'.
Proof.
  intros (Hp & Hr & Hres) Heq. unfold Crawler.finish_at in Heq.
  destruct (running b !! j) as [[[slot item] n]|] eqn:Hj;
    [| injection Heq as <- <-; now split].
  destruct (finish_task item n st) as [st1 r] eqn:Hfinish.
  injection Heq as <- <-.
  apply finish_task_keeps in Hfinish as (_ & Hpages & _ & _ & Hdepth).
  split; [now rewrite Hpages | split]; cbn [running results].
  - now apply Forall_delete.
  - apply Forall_insert; [exact Hres|].
    intros p Hpage. unfold within_depth. rewrite (Hdepth p Hpage).
    rewrite Forall_lookup in Hr. apply (Hr j _ Hj).
Qed.

Lemma loop_body_depth (schedule : nat -> nat) (st : CrawlState) :
  Forall within_depth (crawled_pages st) ->
  Forall within_depth (crawled_pages (loop_body schedule st)).
Proof.
  intros Hst. unfold Crawler.loop_body, Crawler.run_batch.
  set (batch := firstn _ (queue st)).
  set (st0 := {| queue := _; visited := visited st |}).
  destruct (batch_steps schedule (2 * length batch) 0
              {| waiting := indexed 0 batch; running := [];
                 results := replicate (length batch) TaskNone |} st0)
    as [b st1] eqn:Hsteps.
  apply (batch_steps_keep depth_kept start_next_depth finish_at_depth) in Hsteps
    as (Hp & _ & Hres).
  - now apply collect_pages.
  - split; [exact Hst | split; [constructor|]]. cbn [results].
    apply Forall_replicate. discriminate.
Qed.

(** X16: no page deeper than [max_depth] is ever collected.  From a state
    whose pages are all within the limit (the seeded state has none),
    every iteration of the loop, under every schedule of its batch,
    leaves only pages within the limit, and so does every crawl that
    ends. *)
Theorem crawled_pages_within_max_depth :
  forall st : CrawlState,
    Forall within_depth (crawled_pages st) ->
    (forall schedule : nat -> nat,
        Forall within_depth (crawled_pages (loop_body schedule st)))
    /\ (forall (schedules : nat -> nat -> nat) (fuel : nat) (final : CrawlState),
          bfs_loop schedules fuel 0 st = Some final ->
          Forall within_depth (crawled_pages final)).
Proof.
  intros st Hst. split.
  - intros schedule. now apply loop_body_depth.
  - intros schedules fuel final Hrun.
    apply (bfs_loop_keeps (fun s => Forall within_depth (crawled_pages s))
             loop_body_depth schedules fuel 0%nat st final Hst Hrun).
Qed.

(** *** The counters of the crawl *)

Definition accounted (st : CrawlState) : Prop :=
  (Z.of_nat (length (crawled_pages st)) <= total_crawled (stats st)
   /\ total_crawled (stats st) + total_skipped (stats st)
      <= Z.of_nat (size (visited st)))%Z.

Definition counters_kept (b : BatchRun) (st : CrawlState) : Prop :=
  (Z.of_nat (length (crawled_pages st)) + Z.of_nat (page_results (results b))
   <= total_crawled (stats st)
   /\ total_crawled (stats st) + total_skipped (stats st)
      + Z.of_nat (length (running b))
      <= Z.of_nat (size (visited st)))%Z.

Lemma start_next_counters (b : BatchRun) (st : CrawlState) (b' : BatchRun)
    (st' : CrawlState) :
  counters_kept b st -> start_next b st = (b', st') -> counters_kept b' st'.
Proof.
  intros (Hpages & Hvisited) Heq. unfold Crawler.start_next in Heq.
  destruct (waiting b) as [|[slot item] rest]; [injection Heq as <- <-; now split|].
  destruct (start_task item st) as [st1 s] eqn:Hstart.
  apply start_task_keeps in Hstart as (Hp & Hc & Hnopage & Hcase).
  destruct s as [r | n]; injection Heq as <- <-;
    unfold counters_kept; cbn [running results]; rewrite Hp, Hc.
  - pose proof (page_results_insert (results b) slot r) as Hins.
    assert (Hr : is_page r = false)
      by (destruct r as [p| |]; [now destruct (Hnopage p) | |]; reflexivity).
    rewrite Hr in Hins. lia.
  - rewrite length_app. cbn [length]. lia.
Qed.

Lemma finish_at_counters (j : nat) (b : BatchRun) (st : CrawlState) (b' : BatchRun)
    (st' : CrawlState) :
  counters_kept b st -> finish_at j b st = (b', st') -> counters_kept b' st'.
Proof.
  intros (Hpages & Hvisited) Heq. unfold Crawler.finish_at in Heq.
  destruct (running b !! j) as [[[slot item] n]|] eqn:Hj;
    [| injection Heq as <- <-; now split].
  destruct (finish_task item n st) as [st1 r] eqn:Hfinish.
  injection Heq as <- <-.
  apply finish_task_keeps in Hfinish as (Hv & Hp & Hc & Hs & _).
  unfold counters_kept. cbn [running results]. rewrite Hv, Hp, Hc, Hs.
  pose proof (page_results_insert (results b) slot r) as Hins.
  assert (Hlen : (j < length (running b))%nat) by (eapply lookup_lt_Some; eauto).
  rewrite length_delete by eauto.
  destruct (is_page r); lia.
Qed.

Lemma loop_body_accounted (schedule : nat -> nat) (st : CrawlState) :
  accounted st -> accounted (loop_body schedule st).
Proof.
  intros (Hpages & Hvisited). unfold Crawler.loop_body, Crawler.run_batch.
  set (batch := firstn _ (queue st)).
  set (st0 := {| queue := _; visited := visited st |}).
  destruct (batch_steps schedule (2 * length batch) 0
              {| waiting := indexed 0 batch; running := [];
                 results := replicate (length batch) TaskNone |} st0)
    as [b st1] eqn:Hsteps.
  apply (batch_steps_keep counters_kept start_next_counters finish_at_counters)
    in Hsteps as (Hp1 & Hv1).
  - destruct (collect_pages (results b) st1) as (Hv & Hc & Hs & Hl & _).
    unfold accounted. rewrite Hv, Hc, Hs, Hl. lia.
  - unfold counters_kept. cbn [results running length].
    rewrite page_results_none. unfold st0. cbn [crawled_pages stats visited]. lia.
Qed.

(** X17: the counters of the crawl stay consistent.  From a state in
    which the pages collected number at most [total_crawled], and
    [total_crawled] plus [total_skipped] at most the URLs marked visited
    (the seeded state is one), every iteration of the loop keeps both
    bounds under every schedule, and so they hold when a crawl ends. *)
Theorem crawl_counters_accounted :
  forall st : CrawlState,
    accounted st ->
    (forall schedule : nat -> nat, accounted (loop_body schedule st))
    /\ (forall (schedules : nat -> nat -> nat) (fuel : nat) (final : CrawlState),
          bfs_loop schedules fuel 0 st = Some final -> accounted final).
Proof.
  intros st Hst. split.
  - intros schedule. now apply loop_body_accounted.
  - intros schedules fuel final Hrun.
    apply (bfs_loop_keeps accounted loop_body_accounted schedules fuel 0%nat st final
             Hst Hrun).
Qed.

End CrawlScope.
Section CrawlScopeExamples.
#[local] Existing Instance Demo.ip.
#[local] Existing Instance Demo.html.
#[local] Existing Instance Demo.robots.
Import Base Crawler.

(** A fetcher that answers like the demo site on its own domain and with
    a server error everywhere else. *)
Definition site_only (u : string) (render : bool) : PageData :=
  match is_same_domain u "example.com" with
  | Py.Ret true => Demo.three_pages u render
  | _ => default_page u 500
  end.

(** The crawl of the demo site does not tell the two fetchers apart. *)
Lemma crawl_fetches_only_permitted_witness :
  bfs_loop Demo.three_pages ∅ Demo.small_crawl
           "https://example.com/" "example.com" in_turn 5 0
           (seed "https://example.com/" [])
  = bfs_loop site_only ∅ Demo.small_crawl
             "https://example.com/" "example.com" in_turn 5 0
             (seed "https://example.com/" []).
Proof.
  apply crawl_fetches_only_permitted.
  intros u [Hdom _]. unfold site_only. now rewrite Hdom.
Defined.

(** The crawl of the demo site, limited to depth 2, ends with the root
    and a page one link away. *)
Lemma crawled_pages_within_max_depth_witness :
  option_map (fun st => map depth (crawled_pages st))
    (bfs_loop Demo.three_pages ∅ Demo.small_crawl
       "https://example.com/" "example.com" in_turn 5 0
       (seed "https://example.com/" []))
  = Some [0; 1]
  /\ exists final : CrawlState,
       bfs_loop Demo.three_pages ∅ Demo.small_crawl
                "https://example.com/" "example.com" in_turn 5 0
                (seed "https://example.com/" [])
       = Some final
       /\ Forall (within_depth Demo.small_crawl) (crawled_pages final).
Proof.
  split; [vm_compute; reflexivity|].
  pose proof (proj2 (crawled_pages_within_max_depth ∅ Demo.small_crawl
                       "https://example.com/" "example.com" Demo.three_pages
                       (seed "https://example.com/" []) (List.Forall_nil _))
                    in_turn 5%nat) as Hfinal.
  destruct (bfs_loop Demo.three_pages ∅ Demo.small_crawl
              "https://example.com/" "example.com" in_turn 5 0
              (seed "https://example.com/" [])) as [final|] eqn:Hrun.
  - exists final. split; [reflexivity | now apply Hfinal].
  - exfalso. vm_compute in Hrun. discriminate Hrun.
Defined.

(** The same crawl: two pages collected, two counted, none skipped, two
    URLs visited. *)
Lemma crawl_counters_accounted_witness :
  option_map (fun st => (length (crawled_pages st), total_crawled (stats st),
                         total_skipped (stats st), size (visited st)))
    (bfs_loop Demo.three_pages ∅ Demo.small_crawl
       "https://example.com/" "example.com" in_turn 5 0
       (seed "https://example.com/" []))
  = Some (2%nat, 2, 0, 2%nat)
  /\ exists final : CrawlState,
       bfs_loop Demo.three_pages ∅ Demo.small_crawl
                "https://example.com/" "example.com" in_turn 5 0
                (seed "https://example.com/" [])
       = Some final
       /\ accounted final.
Proof.
  split; [vm_compute; reflexivity|].
  assert (Hseed : accounted (seed "https://example.com/" []))
    by (split; vm_compute; discriminate).
  pose proof (proj2 (crawl_counters_accounted ∅ Demo.small_crawl
                       "https://example.com/" "example.com" Demo.three_pages
                       (seed "https://example.com/" []) Hseed)
                    in_turn 5%nat) as Hfinal.
  destruct (bfs_loop Demo.three_pages ∅ Demo.small_crawl
              "https://example.com/" "example.com" in_turn 5 0
              (seed "https://example.com/" [])) as [final|] eqn:Hrun.
  - exists final. split; [reflexivity | now apply Hfinal].
  - exfalso. vm_compute in Hrun. discriminate Hrun.
Defined.

End CrawlScopeExamples.

(** ** Sitemap discovery, the crawl issues and the crawl score *)

Section SitemapMisses.
Context `{Lib.IpAddress} `{Lib.Html}.
Import Py Base Crawler.
Variable web : string -> http_result.

(** The request for [url] brings no sitemap: it raises, or the status
    is not 200. *)
Definition misses (url : string) : Prop :=
  match web url with
  | HttpRaised => True
  | HttpResponse status _ => status <> 200
  end.

Lemma _fetch_sitemap_miss (limit : nat) (url : string) :
  misses url -> _fetch_sitemap web (S limit) url = ([], [url]).
Proof.
  unfold misses. cbn [_fetch_sitemap].
  destruct (web url) as [|status text]; [reflexivity|].
  intros Hs. apply Z.eqb_neq in Hs. now rewrite Hs.
Qed.

(** X18: when none of the three standard sitemap locations answers with
    status 200 (a request may also raise), [discover] returns no URL at
    all, does not raise, and has asked for exactly those three
    locations. *)
Theorem discover_without_sitemaps :
  forall (limit : nat) (root_url : string) (probes : list string),
    candidates root_url = Ret probes ->
    Forall misses probes ->
    discover web (S limit) root_url = Ret (∅, probes).
Proof.
  intros limit root_url probes Hc Hmiss. unfold discover. rewrite Hc. cbn [bind].
  f_equal.
  unfold candidates in Hc.
  destruct (UrlParse.urlparse root_url "") as [parsed | e]; cbn [bind] in Hc;
    [| discriminate].
  injection Hc as <-.
  apply List.Forall_cons_iff in Hmiss as [H1' Hmiss].
  apply List.Forall_cons_iff in Hmiss as [H2' Hmiss].
  apply List.Forall_cons_iff in Hmiss as [H3' _].
  cbn [fold_left].
  rewrite !_fetch_sitemap_miss by assumption.
  cbn [list_to_set app].
  assert (E : ∅ ∪ ∅ ∪ ∅ ∪ ∅ = (∅ : gset string)) by set_solver.
  now rewrite E.
Qed.

End SitemapMisses.


Section CrawlScore.
Import Base CrawlReport Num.
#[local] Open Scope Q_scope.

Lemma share_range {A} (f : A -> bool) (l : list A) (d : Z) :
  (Z.of_nat (length l) <= d)%Z -> (1 <= d)%Z ->
  0 <= inject_Z (Z.of_nat (length (List.filter f l))) / inject_Z d
  /\ inject_Z (Z.of_nat (length (List.filter f l))) / inject_Z d <= 1.
Proof.
  intros Hl Hd.
  assert (Hpos : 0 < inject_Z d).
  { change 0 with (inject_Z 0). rewrite <- Zlt_Qlt. lia. }
  pose proof (List.filter_length_le f l) as Hf.
  split.
  - apply Qle_shift_div_l; [exact Hpos|].
    rewrite Qmult_0_l. change 0 with (inject_Z 0). rewrite <- Zle_Qle. lia.
  - apply Qle_shift_div_r; [exact Hpos|].
    rewrite Qmult_1_l. rewrite <- Zle_Qle. lia.
Qed.

Lemma severity_penalties_nonneg (s : Severity) : 0 <= severity_penalties s.
Proof. destruct s; cbn; lra. Qed.

Lemma penalties_lower (issues : list Issue) :
  forall score : Q,
    fold_left (fun sc i => sc - severity_penalties (severity i)) issues score <= score.
Proof.
  induction issues as [|i issues IH]; intros score; cbn [fold_left]; [lra|].
  pose proof (IH (score - severity_penalties (severity i))).
  pose proof (severity_penalties_nonneg (severity i)). lra.
Qed.

(** X19: the crawl score lies between 0 and 90 for every list of pages
    and of issues: the success rate earns at most 70, the canonical
    coverage at most 20, and issues only subtract.  A crawl reaches
    grade A only with exactly 90. *)
Theorem crawl_score_at_most_90 :
  forall (pages : list PageData) (issues : list Issue),
    0 <= _calculate_crawl_score pages issues
    /\ _calculate_crawl_score pages issues <= 90.
Proof.
  intros pages issues. unfold _calculate_crawl_score.
  destruct pages as [|p pages]; [split; lra|].
  set (l := p :: pages).
  assert (Hlen : (1 <= Z.of_nat (length l))%Z) by (unfold l; cbn [length]; lia).
  split; [apply py_max_ge_l|].
  apply py_max_lub; [lra|].
  eapply Qle_trans; [apply py_min_le_r|].
  change 90 with (inject_Z 90). rewrite <- (round2_Z 90).
  apply round2_mono.
  eapply Qle_trans; [apply penalties_lower|].
  destruct (share_range (fun p => (200 <=? status_code p)%Z && (status_code p <? 400)%Z)
              l (Z.of_nat (length l)) ltac:(lia) Hlen) as [_ Hs].
  destruct (share_range (fun p => truthy_str (canonical_url p))
              l (Z.max 1 (Z.of_nat (length l))) ltac:(lia) ltac:(lia)) as [_ Hc].
  change (inject_Z 90) with 90. lra.
Qed.

End CrawlScore.

Section CrawlIssues.
Import Base CrawlReport Num.
#[local] Open Scope Q_scope.




End CrawlIssues.

Section CrawlReportExamples.
#[local] Existing Instance Demo.ip.
#[local] Existing Instance Demo.html.
Import Py Base Crawler CrawlReport.

(** A site that answers 404 everywhere. *)
Lemma discover_without_sitemaps_witness :
  discover (fun _ => HttpResponse 404 "") 1 "https://example.com/"
  = Ret (∅, ["https://example.com/sitemap.xml";
             "https://example.com/sitemap_index.xml";
             "https://example.com/sitemap/sitemap.xml"]).
Proof.
  apply (discover_without_sitemaps (fun _ => HttpResponse 404 "") 0
           "https://example.com/").
  - vm_compute. reflexivity.
  - repeat constructor; discriminate.
Defined.


End CrawlReportExamples.

(** ** The on-page engine: its score, and what it is given *)

Section OnPageScore.
Context `{Lib.IpAddress} `{Lib.Html}.
Import Py Base RuleEngine OnPage Num.
#[local] Open Scope Q_scope.

(** The weights of the issues of a list, summed. *)
Fixpoint weight_sum (issues : list Issue) : Q :=
  match issues with
  | [] => 0
  | i :: rest => SEVERITY_WEIGHTS (severity i) + weight_sum rest
  end.

Lemma weight_sum_app (l1 l2 : list Issue) :
  weight_sum (l1 ++ l2) == weight_sum l1 + weight_sum l2.
Proof.
  induction l1 as [|i l1 IH]; cbn [app weight_sum]; [ring|].
  rewrite IH. ring.
Qed.

Lemma penalty_from_bound (issues : list Issue) (pages : Z) :
  forall acc, penalty_from acc issues pages <= acc + weight_sum issues.
Proof.
  unfold penalty_from.
  induction issues as [|i issues IH]; intros acc; cbn [fold_left weight_sum];
    [lra|].
  eapply Qle_trans; [apply IH|].
  pose proof (SEVERITY_WEIGHTS_nonneg (severity i)) as Hw.
  pose proof (coverage_le_1 (affected_count i) pages) as Hc.
  assert (SEVERITY_WEIGHTS (severity i)
          * ((1 # 2) + (1 # 2) * coverage (affected_count i) pages)
          <= SEVERITY_WEIGHTS (severity i) * 1)
    by (apply Qmult_le_nonneg_l; [exact Hw | lra]).
  lra.
Qed.

Lemma scored_issue_weight (found : list PageData) (total : Z)
    (rid ttl descr : string) (sev : Severity) (base : Q) (recm doc : string) :
  0 <= weight_sum (scored_issue found total rid ttl descr sev base recm doc)
  /\ weight_sum (scored_issue found total rid ttl descr sev base recm doc)
     <= SEVERITY_WEIGHTS sev.
Proof.
  unfold scored_issue. destruct found; cbn [weight_sum severity].
  - pose proof (SEVERITY_WEIGHTS_nonneg sev). split; lra.
  - pose proof (SEVERITY_WEIGHTS_nonneg sev). split; lra.
Qed.

Lemma create_issues_weight (b : Buckets) (pages : list PageData) (total : Z) :
  weight_sum (create_issues b pages total) <= 124.
Proof.
  unfold create_issues.
  repeat rewrite weight_sum_app.
  repeat match goal with
         | |- context [weight_sum (scored_issue ?f ?t ?r ?tt ?d ?s ?bs ?rc ?dc)] =>
             let Hb := fresh "Hb" in
             destruct (scored_issue_weight f t r tt d s bs rc dc) as [_ Hb];
             cbn [SEVERITY_WEIGHTS] in Hb;
             generalize dependent (weight_sum (scored_issue f t r tt d s bs rc dc));
             intros
         end.
  assert (Hu : weight_sum
                 match uppercase_urls b with
                 | [] => []
                 | p :: l =>
                     [{| rule_id := "onpage-uppercase-urls";
                         title := "URLs containing uppercase characters";
                         description :=
                           (n_pages (p :: l)
                            ++ " pages have uppercase letters in their URL paths.")%string;
                         severity := LOW; category := ON_PAGE;
                         affected_urls := map url (firstn 50 (p :: l));
                         affected_count := Z.of_nat (length (p :: l));
                         impact_score := 20; effort_score := 5;
                         recommendation :=
                           "Use only lowercase URLs. Redirect uppercase variants to lowercase equivalents.";
                         documentation_url := "" |}]
                 end <= 3).
  { destruct (uppercase_urls b); cbn; lra. }
  lra.
Qed.

(** X21: whatever the pages are, an on-page run that does not raise
    scores between 75.69 and 100, so its grade is A, B or C: the twelve
    kinds of issue it can raise weigh 124 together, out of the 510 the
    score is measured against. *)
Theorem onpage_score_floor :
  forall (audit : string) (site_pages : list PageData) (r : AuditResult),
    run audit site_pages = Ret r ->
    (7569 # 100) <= score r /\ score r <= 100
    /\ (grade r = "A" \/ grade r = "B" \/ grade r = "C").
Proof.
  intros audit site_pages r Hrun. unfold run in Hrun.
  destruct (analyse_pages empty_buckets (html_pages site_pages)) as [b | e];
    cbn [bind] in Hrun; [| discriminate].
  injection Hrun as <-. cbn [score grade].
  set (issues := create_issues b (html_pages site_pages) (total_pages_of site_pages)).
  assert (Hscore :
            (7569 # 100)
            <= calculate_category_score issues 12 (total_pages_of site_pages)
            /\ calculate_category_score issues 12 (total_pages_of site_pages) <= 100);
    [| destruct Hscore as [Hlo Hhi]; repeat split; [exact Hlo | exact Hhi |];
       unfold calculate_grade, Qge_bool;
       destruct (Qle_bool 90 _) eqn:E90; [now left|]; right;
       destruct (Qle_bool 80 _) eqn:E80; [now left|]; right;
       assert (E65 : Qle_bool 65 (calculate_category_score issues 12
                                    (total_pages_of site_pages)) = true)
         by (apply Qle_bool_iff; lra);
       now rewrite E65 ].
  unfold calculate_category_score. change (12 =? 0)%Z with false. cbv iota.
  fold (penalty_from 0 issues (total_pages_of site_pages)).
  set (pen := penalty_from 0 issues (total_pages_of site_pages)).
  assert (Hm : py_max (sumQ (map SEVERITY_WEIGHTS [CRITICAL; HIGH; MEDIUM; LOW; INFO])
                       * inject_Z (Z.min 12 10)) 1 = 510) by reflexivity.
  rewrite Hm.
  assert (Hpen : pen <= 124).
  { unfold pen. eapply Qle_trans; [apply penalty_from_bound|].
    pose proof (create_issues_weight b (html_pages site_pages)
                  (total_pages_of site_pages)) as Hw. fold issues in Hw. lra. }
  assert (Hpos : 0 <= pen).
  { unfold pen. apply penalty_from_nonneg; [| lra].
    intros i Hi. unfold issues, create_issues in Hi.
    repeat (apply in_app_or in Hi as [Hi | Hi];
            [ unfold scored_issue in Hi;
              match type of Hi with
              | In _ (match ?f with _ => _ end) => destruct f; [destruct Hi|]
              end;
              destruct Hi as [<- | []]; cbn [affected_count]; lia | ]).
    destruct (uppercase_urls b); [destruct Hi|].
    destruct Hi as [<- | []]. cbn [affected_count]. lia. }
  split.
  - assert (E : (7569 # 100) == round2 (100 - (124 / 510) * 100)) by reflexivity.
    rewrite E. apply round2_mono.
    eapply Qle_trans; [| apply py_max_ge_r].
    assert (pen / 510 <= 124 / 510)
      by (apply Qmult_le_compat_r; [exact Hpen | discriminate]).
    lra.
  - change 100 with (inject_Z 100) at 3. rewrite <- (round2_Z 100).
    apply round2_mono. apply py_max_lub; [discriminate|].
    assert (0 <= pen / 510) by (apply Qle_shift_div_l; [reflexivity | lra]).
    change (inject_Z 100) with 100. lra.
Qed.

End OnPageScore.

Section AnalysisInput.
Context `{Lib.PyBuiltins} `{Lib.IpAddress} `{Lib.Html} `{Technical.LinkRel}.
Import Py Base Tasks.
#[local] Open Scope Q_scope.

Lemma filter_none {A} (f : A -> bool) (l : list A) :
  (forall x, In x l -> f x = false) -> List.filter f l = [].
Proof.
  induction l as [|x l IH]; intros Hf; [reflexivity|].
  cbn [List.filter]. rewrite (Hf x (or_introl eq_refl)).
  apply IH. intros y Hy. apply Hf. now right.
Qed.





End AnalysisInput.

Section OnPageFailure.
Context `{Lib.PyBuiltins} `{Lib.IpAddress} `{Lib.Html} `{Technical.LinkRel}.
Import Py Base Tasks.

Lemma analyse_pages_raises (l : list PageData) (p : PageData) (e : exn) :
  In p l -> html p <> "" -> UrlParse.urlparse (url p) "" = Raise e ->
  forall b : OnPage.Buckets, exists e', OnPage.analyse_pages b l = Raise e'.
Proof.
  intros Hin Hhtml Hparse.
  induction l as [|q l IH]; intros b; [destruct Hin|].
  cbn [OnPage.analyse_pages].
  destruct (OnPage.analyse_page b q) as [b' | e'] eqn:Hq; cbn [bind].
  - destruct Hin as [-> | Hin]; [| now apply IH].
    exfalso. unfold OnPage.analyse_page in Hq.
    assert (Hne : UrlParse.nonempty (html p) = true).
    { unfold UrlParse.nonempty. apply negb_true_iff. now apply String.eqb_neq. }
    rewrite Hne, Hparse in Hq. discriminate.
  - now exists e'.
Qed.

(** X23: one page is enough to lose the whole on-page result.  When an
    HTML page with a body has a URL that [urlparse] refuses, the engine
    run raises, and the task returns a failed result with score 0,
    grade F and no issue, whatever the other pages hold. *)
Theorem onpage_fails_on_unparsable_url :
  forall (audit : string) (site_data : SiteData) (p : PageData) (e : exn),
    In p (OnPage.html_pages (pages site_data)) ->
    html p <> "" ->
    UrlParse.urlparse (url p) "" = Raise e ->
    let result := run_onpage_task audit site_data in
    status result = FAILED /\ score result = 0%Q /\ grade result = "F"
    /\ issues result = [].
Proof.
  intros audit site_data p e Hin Hhtml Hparse result.
  subst result. unfold run_onpage_task, OnPage.run.
  destruct (analyse_pages_raises _ p e Hin Hhtml Hparse OnPage.empty_buckets)
    as [e' He'].
  rewrite He'. cbn. repeat split.
Qed.

End OnPageFailure.


Section OnPageStageExamples.
#[local] Existing Instance Demo.builtins.
#[local] Existing Instance Demo.ip.
#[local] Existing Instance Demo.html.
#[local] Existing Instance Demo.link_rel.
Import Py Base Tasks.
#[local] Open Scope Q_scope.

(** The site with one untitled page of three: the run scores 97.06. *)
Lemma onpage_score_floor_witness :
  (7569 # 100) <= score Demo.untitled_run /\ score Demo.untitled_run <= 100
  /\ (grade Demo.untitled_run = "A" \/ grade Demo.untitled_run = "B"
      \/ grade Demo.untitled_run = "C").
Proof.
  apply (onpage_score_floor "audit-1" Demo.site_one_untitled).
  vm_compute. reflexivity.
Defined.



(** A site whose second page has a URL with an unclosed bracket. *)
Definition site_with_bad_url : SiteData :=
  {| domain := "example.com"; root_url := "https://example.com/";
     pages := [Demo.html_page "https://example.com/" "Home";
               Demo.html_page "https://[example.com/" "Broken"];
     sitemap_urls := []; robots_txt := "" |}.

Lemma onpage_fails_on_unparsable_url_witness :
  let result := run_onpage_task "audit-1" site_with_bad_url in
  UrlParse.urlparse "https://[example.com/" "" = Raise ValueError
  /\ status result = FAILED /\ score result = 0 /\ grade result = "F"
  /\ issues result = [].
Proof.
  intros result. split; [vm_compute; reflexivity|].
  apply (onpage_fails_on_unparsable_url "audit-1" site_with_bad_url
           (Demo.html_page "https://[example.com/" "Broken") ValueError).
  - vm_compute. right. left. reflexivity.
  - discriminate.
  - vm_compute. reflexivity.
Defined.

End OnPageStageExamples.

(** ** The technical engine: its score, its checks, and what it is given *)

Section TechnicalFacts.
Context `{Lib.PyBuiltins} `{Lib.IpAddress} `{Lib.Html} `{Technical.LinkRel}.
Import Py Base RuleEngine Technical Num.
#[local] Open Scope Q_scope.

Lemma scored_weight (urls : list string) (count : nat) (total : Z)
    (rid ttl descr : string) (sev : Severity) (base : Q) (recm doc : string) :
  weight_sum (scored urls count total rid ttl descr sev base recm doc)
  <= SEVERITY_WEIGHTS sev.
Proof.
  unfold scored. pose proof (SEVERITY_WEIGHTS_nonneg sev).
  destruct count; cbn [weight_sum tech_issue severity]; lra.
Qed.

Lemma www_weight (pages : list PageData) (found : list Issue) :
  _check_www_consistency pages = Ret found -> weight_sum found <= 8.
Proof.
  unfold _check_www_consistency.
  destruct (mapM is_www pages) as [flags | e]; cbn [bind]; [| discriminate].
  destruct (select flags pages), (select (map negb flags) pages);
    intros Hf; injection Hf as <-; cbn; lra.
Qed.

Lemma pagination_weight (pages : list PageData) :
  weight_sum (_check_pagination pages) <= 3.
Proof.
  unfold _check_pagination. destruct (List.filter _ pages); cbn; lra.
Qed.

Lemma security_weight (pages : list PageData) :
  weight_sum (_check_security_headers pages) <= 3.
Proof.
  unfold _check_security_headers.
  destruct (firstn 10 _); [cbn; lra|].
  destruct (Qlt_bool _ _); cbn; lra.
Qed.

Lemma affected_nonneg_app (l1 l2 : list Issue) :
  (forall i, In i l1 -> (0 <= affected_count i)%Z) ->
  (forall i, In i l2 -> (0 <= affected_count i)%Z) ->
  forall i, In i (l1 ++ l2) -> (0 <= affected_count i)%Z.
Proof. intros H1' H2' i Hi. apply in_app_or in Hi as [Hi | Hi]; auto. Qed.

Lemma scored_affected (urls : list string) (count : nat) (total : Z)
    (rid ttl descr : string) (sev : Severity) (base : Q) (recm doc : string) :
  forall i, In i (scored urls count total rid ttl descr sev base recm doc) ->
            (0 <= affected_count i)%Z.
Proof.
  unfold scored. destruct count; [intros i []|].
  intros i [<- | []]. cbn [tech_issue affected_count]. lia.
Qed.

Lemma www_affected (pages : list PageData) (found : list Issue) :
  _check_www_consistency pages = Ret found ->
  forall i, In i found -> (0 <= affected_count i)%Z.
Proof.
  unfold _check_www_consistency.
  destruct (mapM is_www pages) as [flags | e]; cbn [bind]; [| discriminate].
  destruct (select flags pages), (select (map negb flags) pages);
    intros Hf; injection Hf as <-; intros i Hi; try destruct Hi as [<- | []];
    try destruct Hi; cbn [tech_issue affected_count]; lia.
Qed.

Lemma pagination_affected (pages : list PageData) :
  forall i, In i (_check_pagination pages) -> (0 <= affected_count i)%Z.
Proof.
  unfold _check_pagination. destruct (List.filter _ pages); [intros i []|].
  intros i [<- | []]. cbn [tech_issue affected_count]. lia.
Qed.

Lemma security_affected (pages : list PageData) :
  forall i, In i (_check_security_headers pages) -> (0 <= affected_count i)%Z.
Proof.
  unfold _check_security_headers.
  destruct (firstn 10 _); [intros i []|].
  destruct (Qlt_bool _ _); [| intros i []].
  intros i [<- | []]. cbn [tech_issue affected_count]. lia.
Qed.

(** X24: whatever the pages are, a technical run that does not raise
    scores between 80.39 and 100, so its grade is A or B: the nine issues
    it can raise weigh 100 together, out of the 510 the score is
    measured against. *)
Theorem technical_score_floor :
  forall (audit : string) (pages : list PageData) (robots_txt root_url : string)
         (r : AuditResult),
    run audit pages robots_txt root_url = Ret r ->
    (8039 # 100) <= score r /\ score r <= 100
    /\ (grade r = "A" \/ grade r = "B").
Proof.
  intros audit pages robots_txt root_url r Hrun. unfold run in Hrun.
  destruct (_find_redirect_chains pages) as [chains | e]; cbn [bind] in Hrun;
    [| discriminate].
  destruct (_check_www_consistency pages) as [www | e] eqn:Hwww; cbn [bind] in Hrun;
    [| discriminate].
  injection Hrun as <-. cbn [score grade].
  match goal with
  | |- context [calculate_category_score ?l 10 ?t] =>
      set (issues := l); set (total := t)
  end.
  assert (Hweights : weight_sum issues <= 100).
  { unfold issues. repeat rewrite weight_sum_app.
    repeat match goal with
           | |- context [weight_sum (scored ?u ?c ?t ?r ?tt ?d ?s ?bs ?rc ?dc)] =>
               let Hb := fresh "Hb" in
               pose proof (scored_weight u c t r tt d s bs rc dc) as Hb;
               cbn [SEVERITY_WEIGHTS] in Hb;
               generalize dependent (weight_sum (scored u c t r tt d s bs rc dc));
               intros
           end.
    pose proof (www_weight pages www Hwww).
    pose proof (pagination_weight pages).
    pose proof (security_weight pages).
    assert (weight_sum
              (if UrlParse.nonempty robots_txt then []
               else [tech_issue [root_url] 1 "tech-missing-robots-txt"
                       "robots.txt file is missing or inaccessible"
                       "No robots.txt was found at the root of the domain."
                       MEDIUM 45
                       "Create a robots.txt file at yourdomain.com/robots.txt." ""])
            <= 8)
      by (destruct (UrlParse.nonempty robots_txt); cbn; lra).
    lra. }
  assert (Haffected : forall i, In i issues -> (0 <= affected_count i)%Z).
  { unfold issues.
    do 5 (apply affected_nonneg_app; [apply scored_affected|]).
    apply affected_nonneg_app; [now apply (www_affected pages)|].
    apply affected_nonneg_app; [apply pagination_affected|].
    apply affected_nonneg_app; [| apply security_affected].
    destruct (UrlParse.nonempty robots_txt); [intros i []|].
    intros i [<- | []]. cbn [tech_issue affected_count]. lia. }
  assert (Hscore : (8039 # 100) <= calculate_category_score issues 10 total
                   /\ calculate_category_score issues 10 total <= 100).
  { unfold calculate_category_score. change (10 =? 0)%Z with false. cbv iota.
    fold (penalty_from 0 issues total).
    set (pen := penalty_from 0 issues total).
    assert (Hm : py_max (sumQ (map SEVERITY_WEIGHTS [CRITICAL; HIGH; MEDIUM; LOW; INFO])
                         * inject_Z (Z.min 10 10)) 1 = 510) by reflexivity.
    rewrite Hm.
    assert (Hpen : pen <= 100).
    { unfold pen. eapply Qle_trans; [apply penalty_from_bound|]. lra. }
    assert (Hpos : 0 <= pen) by (unfold pen; apply penalty_from_nonneg; [exact Haffected | lra]).
    split.
    - assert (E : (8039 # 100) == round2 (100 - (100 / 510) * 100)) by reflexivity.
      rewrite E. apply round2_mono.
      eapply Qle_trans; [| apply py_max_ge_r].
      assert (pen / 510 <= 100 / 510)
        by (apply Qmult_le_compat_r; [exact Hpen | discriminate]).
      lra.
    - change 100 with (inject_Z 100) at 3. rewrite <- (round2_Z 100).
      apply round2_mono. apply py_max_lub; [discriminate|].
      assert (0 <= pen / 510) by (apply Qle_shift_div_l; [reflexivity | lra]).
      change (inject_Z 100) with 100. lra. }
  destruct Hscore as [Hlo Hhi]. repeat split; [exact Hlo | exact Hhi |].
  unfold calculate_grade, Qge_bool.
  destruct (Qle_bool 90 _) eqn:E90; [now left|]. right.
  assert (E80 : Qle_bool 80 (calculate_category_score issues 10 total) = true)
    by (apply Qle_bool_iff; lra).
  now rewrite E80.
Qed.

End TechnicalFacts.

Section TechnicalChecks.
Context `{Lib.PyBuiltins} `{Lib.IpAddress} `{Lib.Html} `{Technical.LinkRel}.
Import Py Base RuleEngine Technical Num.

Lemma mapM_length {A B} (f : A -> res B) (l : list A) :
  forall ys, mapM f l = Ret ys -> length ys = length l.
Proof.
  induction l as [|x l IH]; intros ys Hm; cbn [mapM] in Hm.
  - now injection Hm as <-.
  - destruct (f x) as [y | e]; cbn [bind] in Hm; [| discriminate].
    destruct (mapM f l) as [ys' | e]; cbn [bind] in Hm; [| discriminate].
    injection Hm as <-. cbn [length]. now rewrite (IH ys').
Qed.

Lemma select_partition (flags : list bool) :
  forall l : list PageData,
    length flags = length l ->
    (length (select flags l) + length (select (map negb flags) l))%nat = length l.
Proof.
  unfold select.
  induction flags as [|b flags IH]; intros [|p l] Hlen; try discriminate;
    [reflexivity|].
  injection Hlen as Hlen. specialize (IH l Hlen).
  cbn [combine map List.filter fst negb].
  destruct b; cbn [fst negb map length]; lia.
Qed.

(** X26: the www check raises at most one issue, and when it does the
    issue counts every page of the site: the pages with a www host and
    those without are all of them. *)
Theorem www_issue_counts_every_page :
  forall (pages : list PageData) (found : list Issue) (i : Issue),
    _check_www_consistency pages = Ret found ->
    In i found ->
    rule_id i = "tech-www-consistency"
    /\ affected_count i = Z.of_nat (length pages)
    /\ found = [i].
Proof.
  intros pages found i Hcheck Hin. unfold _check_www_consistency in Hcheck.
  destruct (mapM is_www pages) as [flags | e] eqn:Hflags; cbn [bind] in Hcheck;
    [| discriminate].
  apply mapM_length in Hflags.
  pose proof (select_partition flags pages Hflags) as Hsum.
  destruct (select flags pages) as [|w ws], (select (map negb flags) pages) as [|n ns];
    injection Hcheck as <-; try destruct Hin as [<- | []]; try destruct Hin.
  cbn [tech_issue rule_id affected_count]. repeat split.
  now rewrite <- Hsum.
Qed.

End TechnicalChecks.

Section TechnicalInput.
Context `{Lib.PyBuiltins} `{Lib.IpAddress} `{Lib.Html} `{Technical.LinkRel}.
Import Py Base Technical Tasks.

Lemma scored_rule_id (urls : list string) (count : nat) (total : Z)
    (rid ttl descr : string) (sev : Severity) (base : Q) (recm doc : string)
    (i : Issue) :
  In i (scored urls count total rid ttl descr sev base recm doc) -> rule_id i = rid.
Proof. unfold scored. destruct count; [intros []|]. now intros [<- | []]. Qed.

Lemma www_rule_id (pages : list PageData) (found : list Issue) (i : Issue) :
  _check_www_consistency pages = Ret found -> In i found ->
  rule_id i = "tech-www-consistency".
Proof.
  unfold _check_www_consistency.
  destruct (mapM is_www pages) as [flags | e]; cbn [bind]; [| discriminate].
  destruct (select flags pages), (select (map negb flags) pages);
    intros Hf; injection Hf as <-; intros Hin;
    try destruct Hin as [<- | []]; try destruct Hin; reflexivity.
Qed.

Lemma security_rule_id (pages : list PageData) (i : Issue) :
  In i (_check_security_headers pages) -> rule_id i = "tech-missing-hsts".
Proof.
  unfold _check_security_headers.
  destruct (firstn 10 _); [intros []|].
  destruct (Num.Qlt_bool _ _); [| intros []]. now intros [<- | []].
Qed.

(** X25: in an audit the technical engine is given pages without HTML
    and site data whose robots.txt text is never filled in.  So a
    technical stage that succeeds always reports that robots.txt is
    missing, and never reports mixed content or missing pagination
    links, whatever was crawled. *)
Theorem technical_stage_blind_spots :
  forall (audit site_domain site_root_url : string) (found : list string)
         (crawled_pages : list PageData),
    let result :=
      run_technical_task audit
        (analysis_input site_domain site_root_url found crawled_pages) in
    status result = SUCCESS ->
    (exists i, In i (issues result) /\ rule_id i = "tech-missing-robots-txt")
    /\ forall i, In i (issues result) ->
         rule_id i <> "tech-mixed-content"
         /\ rule_id i <> "tech-missing-pagination-rel".
Proof.
  intros audit dom root found crawled_pages result Hstatus.
  subst result. unfold run_technical_task, analysis_input in *.
  cbn [_serialize_site_data crawled _build_site_data pages robots_txt root_url] in *.
  set (pgs := map without_html crawled_pages) in *.
  assert (Hhtml : forall p, In p pgs -> html p = "").
  { intros p Hp. apply in_map_iff in Hp as (q & <- & _). reflexivity. }
  unfold Technical.run in *.
  destruct (_find_redirect_chains pgs) as [chains | e]; cbn [bind] in *;
    [| discriminate].
  destruct (_check_www_consistency pgs) as [www | e] eqn:Hwww; cbn [bind] in *;
    [| discriminate].
  cbn [Engine.execute issues] in *. clear Hstatus.
  assert (Hmixed : _find_mixed_content pgs = []).
  { apply filter_none. intros p Hp. rewrite (Hhtml p Hp).
    change (http_resource_search "") with false. now rewrite andb_false_r. }
  assert (Hpag : _check_pagination pgs = []).
  { unfold _check_pagination. rewrite filter_none; [reflexivity|].
    intros p Hp. rewrite (Hhtml p Hp).
    change (UrlParse.nonempty "") with false.
    now rewrite andb_false_r. }
  rewrite Hmixed, Hpag. cbn [length map scored app UrlParse.nonempty String.eqb negb].
  split.
  - eexists. split.
    + repeat (apply in_or_app; right). left. reflexivity.
    + reflexivity.
  - intros i Hin.
    repeat (apply in_app_or in Hin as [Hin | Hin];
            [ first [ apply scored_rule_id in Hin
                    | apply (www_rule_id pgs) in Hin; [| exact Hwww]
                    | destruct Hin as [<- | []]; cbn [tech_issue rule_id] ];
              try rewrite Hin; split; discriminate | ]).
    destruct Hin as [<- | Hin]; [split; discriminate|].
    apply security_rule_id in Hin. rewrite Hin. split; discriminate.
Qed.

End TechnicalInput.

Section TechnicalExamples.
#[local] Existing Instance Demo.builtins.
#[local] Existing Instance Demo.ip.
#[local] Existing Instance Demo.html.
#[local] Existing Instance Demo.link_rel.
Import Py Base Technical Tasks.
#[local] Open Scope Q_scope.

(** An HTTPS page that loads an image over HTTP. *)
Definition mixed_page : PageData :=
  Demo.linked_page "https://example.com/"
                   "<img src='http://cdn.example.com/a.png'>" [].

Definition mixed_run : AuditResult :=
  Engine.execute "technical" TECHNICAL "audit-1"
    (Technical.run "audit-1" [mixed_page] "" "https://example.com/").

(** Given the page as crawled, the engine reports three issues and
    scores 94.9. *)
Lemma technical_score_floor_witness :
  map rule_id (issues mixed_run)
  = ["tech-mixed-content"; "tech-missing-robots-txt"; "tech-missing-hsts"]
  /\ (8039 # 100) <= score mixed_run /\ score mixed_run <= 100
  /\ (grade mixed_run = "A" \/ grade mixed_run = "B").
Proof.
  split; [vm_compute; reflexivity|].
  apply (technical_score_floor "audit-1" [mixed_page] "" "https://example.com/").
  vm_compute. reflexivity.
Defined.

(** In an audit the mixed content of the same page goes unreported. *)
Lemma technical_stage_blind_spots_witness :
  let result :=
    run_technical_task "audit-1"
      (analysis_input "example.com" "https://example.com/" [] [mixed_page]) in
  map url (_find_mixed_content [mixed_page]) = ["https://example.com/"]
  /\ map rule_id (issues result) = ["tech-missing-robots-txt"; "tech-missing-hsts"]
  /\ (exists i, In i (issues result) /\ rule_id i = "tech-missing-robots-txt")
  /\ forall i, In i (issues result) ->
       rule_id i <> "tech-mixed-content"
       /\ rule_id i <> "tech-missing-pagination-rel".
Proof.
  intros result.
  split; [vm_compute; reflexivity|]. split; [vm_compute; reflexivity|].
  apply (technical_stage_blind_spots "audit-1" "example.com"
           "https://example.com/" [] [mixed_page]).
  vm_compute. reflexivity.
Defined.

(** A site reached with and without www. *)
Lemma www_issue_counts_every_page_witness :
  let pages := [Demo.html_page "https://www.example.com/" "Home";
                Demo.html_page "https://example.com/a" "A"] in
  exists i : Issue,
    _check_www_consistency pages = Ret [i]
    /\ rule_id i = "tech-www-consistency"
    /\ affected_count i = 2%Z.
Proof.
  intros pages.
  pose proof (www_issue_counts_every_page pages) as Hcount.
  destruct (_check_www_consistency pages) as [[|i rest] | e] eqn:Hcheck.
  - exfalso. vm_compute in Hcheck. discriminate Hcheck.
  - destruct (Hcount (i :: rest) i eq_refl (or_introl eq_refl))
      as (Hid & Hn & Hfound).
    exists i. split; [now f_equal | split; [exact Hid | exact Hn]].
  - exfalso. vm_compute in Hcheck. discriminate Hcheck.
Defined.

End TechnicalExamples.

(** ** Priority scores, the overall score and the confidence *)

Section PriorityFacts.
Import Base Prioritization Num.
#[local] Open Scope Q_scope.

(** The bounds the [Issue] model puts on its two scores. *)
Definition issue_in_bounds (i : Issue) : Prop :=
  0 <= impact_score i /\ impact_score i <= 100
  /\ 0 <= effort_score i /\ effort_score i <= 10.

Lemma potential_range (s : Severity) :
  0 <= TRAFFIC_POTENTIAL_BY_SEVERITY s /\ TRAFFIC_POTENTIAL_BY_SEVERITY s <= 80.
Proof. destruct s; cbn; split; lra. Qed.

Lemma weight_range (s : Severity) :
  0 <= Prioritization.SEVERITY_WEIGHTS s /\ Prioritization.SEVERITY_WEIGHTS s <= 100.
Proof. destruct s; cbn; split; lra. Qed.

(** X27: for an issue whose impact and effort scores are in the ranges
    the [Issue] model allows, the priority score lies between 0 and 95:
    the four factors can bring at most 40, 20, 20 and 15. *)
Theorem priority_score_range :
  forall i : Issue,
    issue_in_bounds i ->
    0 <= calculate_priority_score i /\ calculate_priority_score i <= 95.
Proof.
  intros i (Hi0 & Hi1 & He0 & He1). unfold calculate_priority_score.
  pose proof (potential_range (severity i)) as [Ht0 Ht1].
  pose proof (weight_range (severity i)) as [Hw0 Hw1].
  apply (round2_between 0 95); change (inject_Z 0) with 0;
    change (inject_Z 95) with 95; lra.
Qed.

(** [t] is at least as severe as [s]. *)
Definition at_least (s t : Severity) : Prop :=
  Prioritization.SEVERITY_WEIGHTS s <= Prioritization.SEVERITY_WEIGHTS t.

Lemma potential_follows_severity (s t : Severity) :
  at_least s t -> TRAFFIC_POTENTIAL_BY_SEVERITY s <= TRAFFIC_POTENTIAL_BY_SEVERITY t.
Proof. unfold at_least. destruct s, t; cbn; lra. Qed.

(** X28: an issue that is at least as severe as another, has at least
    its impact score and at most its effort score never gets the lower
    priority score of the two. *)
Theorem priority_follows_dominance :
  forall i j : Issue,
    at_least (severity i) (severity j) ->
    impact_score i <= impact_score j ->
    effort_score j <= effort_score i ->
    calculate_priority_score i <= calculate_priority_score j.
Proof.
  intros i j Hsev Himp Heff. unfold calculate_priority_score.
  apply round2_mono.
  pose proof (potential_follows_severity _ _ Hsev). unfold at_least in Hsev.
  lra.
Qed.

End PriorityFacts.

Section ScoringFacts.
Import Base Scoring Num.
#[local] Open Scope Q_scope.

Definition weights_nonneg (w : Weights) : Prop :=
  forall c : IssueCategory, 0 <= CATEGORY_WEIGHTS w c.

Definition score_in_bounds (r : AuditResult) : Prop :=
  0 <= score r /\ score r <= 100.

Lemma tally_weighted (w : Weights) (engine_results : list AuditResult) :
  weights_nonneg w ->
  Forall score_in_bounds engine_results ->
  forall t : Tally,
    0 <= total_weight t ->
    0 <= weighted_sum t /\ weighted_sum t <= 100 * total_weight t ->
    let t' := fold_left (tally_result w) engine_results t in
    0 <= total_weight t'
    /\ 0 <= weighted_sum t' /\ weighted_sum t' <= 100 * total_weight t'.
Proof.
  intros Hw Hall. induction Hall as [|r rs [Hr0 Hr1] Hrs IH]; intros t Ht Hs;
    cbn [fold_left]; [now split|].
  apply IH; unfold tally_result.
  - destruct (bool_decide (status r = FAILED)); [exact Ht|].
    destruct (Qeq_bool _ 0); [exact Ht|]. cbn [total_weight].
    pose proof (Hw (result_category r)). lra.
  - destruct (bool_decide (status r = FAILED)); [exact Hs|].
    destruct (Qeq_bool _ 0); [exact Hs|]. cbn [total_weight weighted_sum].
    pose proof (Hw (result_category r)) as Hc.
    assert (0 <= score r * CATEGORY_WEIGHTS w (result_category r))
      by now apply Qmult_le_0_compat.
    assert (score r * CATEGORY_WEIGHTS w (result_category r)
            <= 100 * CATEGORY_WEIGHTS w (result_category r))
      by now apply Qmult_le_compat_r.
    lra.
Qed.

(** X29: with category weights that are not negative and engine results
    whose scores are between 0 and 100, the overall score of the scoring
    engine is between 0 and 100, whichever engines failed or carry no
    weight. *)
Theorem overall_score_within_bounds :
  forall (w : Weights) (audit : string) (engine_results : list AuditResult)
         (monthly_traffic : Q) (n_site_pages : Z),
    weights_nonneg w ->
    Forall score_in_bounds engine_results ->
    score_in_bounds (fst (run w audit engine_results monthly_traffic n_site_pages)).
Proof.
  intros w audit engine_results traffic n Hw Hall.
  unfold run, score_in_bounds. cbn [fst score].
  destruct (tally_weighted w engine_results Hw Hall
              {| category_scores := []; all_issues := [];
                 weighted_sum := 0; total_weight := 0 |})
    as (Ht & Hs0 & Hs1); cbn [total_weight weighted_sum]; try lra.
  fold (tally w engine_results) in Ht, Hs0, Hs1.
  set (t := tally w engine_results) in *.
  apply (round2_between 0 100); change (inject_Z 0) with 0;
    change (inject_Z 100) with 100.
  - unfold Qlt_bool. destruct (Qle_bool (total_weight t) 0) eqn:E; cbn [negb]; [lra|].
    apply Qle_shift_div_l; [| lra].
    destruct (Qlt_le_dec 0 (total_weight t)) as [Hlt | Hle]; [exact Hlt|].
    apply Qle_bool_iff in Hle. congruence.
  - unfold Qlt_bool. destruct (Qle_bool (total_weight t) 0) eqn:E; cbn [negb]; [lra|].
    apply Qle_shift_div_r; [| lra].
    destruct (Qlt_le_dec 0 (total_weight t)) as [Hlt | Hle]; [exact Hlt|].
    apply Qle_bool_iff in Hle. congruence.
Qed.

Lemma successful_bound (engine_results : list AuditResult) :
  (0 <= successful engine_results <= Z.of_nat (length engine_results))%Z.
Proof.
  unfold successful.
  pose proof (List.filter_length_le (fun r => bool_decide (status r = SUCCESS))
                engine_results). lia.
Qed.

(** X30: the confidence score lies between 0 and 100 as long as no more
    engines succeeded than were expected and the page count is not
    negative. *)
Theorem confidence_within_bounds :
  forall (engine_results : list AuditResult) (pages_crawled expected_engines : Z),
    (successful engine_results <= Z.max 1 expected_engines)%Z ->
    (0 <= pages_crawled)%Z ->
    0 <= calculate_confidence_score engine_results pages_crawled expected_engines
    /\ calculate_confidence_score engine_results pages_crawled expected_engines <= 100.
Proof.
  intros engine_results pages expected Hs Hp. unfold calculate_confidence_score.
  pose proof (successful_bound engine_results) as [Hs0 _].
  assert (Hpos : 0 < inject_Z (Z.max 1 expected)).
  { change 0 with (inject_Z 0). rewrite <- Zlt_Qlt. lia. }
  assert (He0 : 0 <= inject_Z (successful engine_results) / inject_Z (Z.max 1 expected)).
  { apply Qle_shift_div_l; [exact Hpos|]. rewrite Qmult_0_l.
    change 0 with (inject_Z 0). now rewrite <- Zle_Qle. }
  assert (He1 : inject_Z (successful engine_results) / inject_Z (Z.max 1 expected) <= 1).
  { apply Qle_shift_div_r; [exact Hpos|]. rewrite Qmult_1_l. now rewrite <- Zle_Qle. }
  assert (Hc0 : 0 <= py_min 1 (inject_Z pages / 1000)).
  { apply py_min_glb; [lra|]. apply Qle_shift_div_l; [reflexivity|].
    rewrite Qmult_0_l. change 0 with (inject_Z 0). now rewrite <- Zle_Qle. }
  pose proof (py_min_le_l 1 (inject_Z pages / 1000)) as Hc1.
  apply (round2_between 0 100); change (inject_Z 0) with 0;
    change (inject_Z 100) with 100; lra.
Qed.

End ScoringFacts.


Section ScoringExamples.
#[local] Existing Instance Demo.ip.
#[local] Existing Instance Demo.html.
Import Base Prioritization Scoring.
#[local] Open Scope Q_scope.

(** The thin-content issue: medium severity, impact 27.5, effort 5. *)
Lemma priority_score_range_witness :
  issue_in_bounds Demo.thin_content_issue
  /\ 0 <= calculate_priority_score Demo.thin_content_issue
  /\ calculate_priority_score Demo.thin_content_issue <= 95.
Proof.
  assert (Hb : issue_in_bounds Demo.thin_content_issue)
    by (repeat split; discriminate).
  split; [exact Hb|].
  exact (priority_score_range Demo.thin_content_issue Hb).
Defined.

(** The missing-title issue of the demo run is critical, with impact
    50.67 and effort 5: it outranks the thin-content issue. *)
Lemma priority_follows_dominance_witness :
  calculate_priority_score Demo.thin_content_issue
  <= calculate_priority_score Demo.untitled_issue.
Proof.
  apply (priority_follows_dominance Demo.thin_content_issue Demo.untitled_issue).
  - unfold at_least. vm_compute. discriminate.
  - vm_compute. discriminate.
  - vm_compute. discriminate.
Defined.

(** Two on-page results under the default weights: the overall score
    is 91.8. *)
Lemma overall_score_within_bounds_witness :
  let result :=
    fst (Scoring.run default_weights "audit-1"
           [Demo.tied_result; Demo.untitled_run] 10000 3) in
  score result == 918 # 10 /\ score_in_bounds result.
Proof.
  intros result. split; [vm_compute; reflexivity|].
  apply (overall_score_within_bounds default_weights "audit-1"
           [Demo.tied_result; Demo.untitled_run] 10000 3).
  - intros c. destruct c; discriminate.
  - repeat constructor; vm_compute; discriminate.
Defined.

(** Two engines of eight expected and three pages: a confidence of
    15.12. *)
Lemma confidence_within_bounds_witness :
  calculate_confidence_score [Demo.tied_result; Demo.untitled_run] 3 8 == 1512 # 100
  /\ 0 <= calculate_confidence_score [Demo.tied_result; Demo.untitled_run] 3 8
  /\ calculate_confidence_score [Demo.tied_result; Demo.untitled_run] 3 8 <= 100.
Proof.
  split; [vm_compute; reflexivity|].
  apply (confidence_within_bounds [Demo.tied_result; Demo.untitled_run] 3 8).
  - vm_compute. discriminate.
  - lia.
Defined.

End ScoringExamples.
